(** * Culinary Companion: a model of the request handlers and their helpers

    The development follows [main.py] and [models.py]; of [schemas.py],
    which [main.py] never imports, only the bound on [recipe_name] is
    stated ([name_bounded]).

    - [Py]: the Python values and builtins the handlers rely on
      (exceptions, [str] methods, [float()], truthiness, [dict.get]).
    - [Json]: [json.loads].
    - [Re]: the backtracking matcher behind [re.search].
    - then the helpers and handlers of [main.py] under their own names,
      over an explicit store, a session (unit of work) and the log of
      the prompts sent to the structuring service.

    Text: a Python [str] is a Rocq [string] holding its UTF-8 encoding.
    Whitespace, case mapping and digits are those of the ASCII range;
    bytes above 127 are carried through unchanged.

    Numbers: a Python [float] is a binary64 value, here a primitive
    [float]; decimal text is converted with correct rounding.

    Three things stay parameters: Python's [repr] of floats and
    containers ([Section Aggregator]), the answer of the structuring
    service to a prompt, and the text the database engine makes of a real
    number that is stored in a text column ([Section Handlers]).

    The database: [recipe_name] and [provenance] are [String] columns of
    SQLite. What the flush of a commit binds to them is stored as text, or
    refused ([String_column]); the values the forms submit are text, which
    is stored as it is. What FastAPI refuses before a handler runs, by the
    [Form(...)] parameters of its signature, is in the endpoints
    ([post_recipes], [put_recipe], [post_generate_recipe]).

    Two things are left out: the limits of the interpreter (the depth of
    recursion, the 4300 digits of an [int] read from text), and failures
    of the engine that do not come from the values written (a full disk,
    a lost connection). *)

From Stdlib Require Import ZArith List String Ascii Bool Lia.
From Stdlib Require Import Floats.PrimFloat Floats.SpecFloat Floats.FloatOps.
From Stdlib Require Floats.FloatAxioms Numbers.Cyclic.Int63.Uint63.
From Stdlib Require Import DecimalString Sorting.Sorted Sorting.Permutation.
Import ListNotations.

(* ================================================================== *)
(** * Python runtime *)
(* ================================================================== *)

Module Py.

Local Open Scope string_scope.

(** ** Exceptions *)

(** The exception classes that occur in [main.py], and those its
    requests meet below it: [sqlalchemy.exc.DBAPIError] stands for the
    wrapped errors of the driver, [IntegrityError] is the one of them for
    a constraint; [RequestValidationError] is FastAPI's, for a request its
    handler's signature does not accept. *)
Inductive exn_class :=
| ValueError
| TypeError
| ZeroDivisionError
| AttributeError
| JSONDecodeError
| HTTPExceptionClass
| OverflowError
| UnicodeEncodeError
| DBAPIError
| IntegrityError
| InvalidRequestError
| RequestValidationError.

(** A raised exception: its class and, for [HTTPException], the status
    code and the detail message. *)
Inductive exn :=
| Exn (c : exn_class)
| HTTPException (status_code : Z) (detail : string).

Definition class_of (e : exn) : exn_class :=
  match e with
  | Exn c => c
  | HTTPException _ _ => HTTPExceptionClass
  end.

(** [issubclass]: [json.JSONDecodeError] and [UnicodeEncodeError] derive
    from [ValueError], [IntegrityError] from [DBAPIError]. *)
Definition issubclass (c d : exn_class) : bool :=
  match c, d with
  | ValueError, ValueError
  | TypeError, TypeError
  | ZeroDivisionError, ZeroDivisionError
  | AttributeError, AttributeError
  | JSONDecodeError, JSONDecodeError
  | JSONDecodeError, ValueError
  | HTTPExceptionClass, HTTPExceptionClass
  | OverflowError, OverflowError
  | UnicodeEncodeError, UnicodeEncodeError
  | UnicodeEncodeError, ValueError
  | DBAPIError, DBAPIError
  | IntegrityError, IntegrityError
  | IntegrityError, DBAPIError
  | InvalidRequestError, InvalidRequestError
  | RequestValidationError, RequestValidationError => true
  | _, _ => false
  end.

(** The outcome of evaluating an expression or running a block. *)
Inductive result (A : Type) :=
| Ok (a : A)
| Raise (e : exn).

Arguments Ok {A} a.
Arguments Raise {A} e.

Definition bind {A B} (m : result A) (k : A -> result B) : result B :=
  match m with
  | Ok a => k a
  | Raise e => Raise e
  end.

(** [try: body except (c1, ..., cn): handler]. *)
Definition try_except {A} (body : result A) (classes : list exn_class)
  (handler : result A) : result A :=
  match body with
  | Ok a => Ok a
  | Raise e =>
    if existsb (issubclass (class_of e)) classes then handler else Raise e
  end.

Declare Scope py_scope.
Delimit Scope py_scope with py.

Notation "x <- m ;; k" := (bind m (fun x => k))
  (at level 61, m at next level, right associativity) : py_scope.
Notation "' p <- m ;; k" := (bind m (fun x => match x with p => k end))
  (at level 61, p pattern, m at next level, right associativity) : py_scope.

Local Open Scope py_scope.

(** ** Characters and [str] methods *)

Definition ord (c : ascii) : nat := nat_of_ascii c.

Definition in_range (lo hi : nat) (c : ascii) : bool :=
  (lo <=? ord c)%nat && (ord c <=? hi)%nat.

(** [str.isspace] on one character, which is also [\s] of [re] on [str]
    patterns: TAB, LF, VT, FF, CR, FS, GS, RS, US and the space. *)
Definition isspace (c : ascii) : bool :=
  in_range 9 13 c || in_range 28 31 c || (ord c =? 32)%nat.

Definition isdigit (c : ascii) : bool := in_range 48 57 c.

Definition lower_char (c : ascii) : ascii :=
  if in_range 65 90 c then ascii_of_nat (ord c + 32) else c.

(** [s.lower()]. *)
Fixpoint lower (s : string) : string :=
  match s with
  | "" => ""
  | String c r => String (lower_char c) (lower r)
  end.

Fixpoint lstrip_by (sp : ascii -> bool) (s : string) : string :=
  match s with
  | "" => ""
  | String c r => if sp c then lstrip_by sp r else s
  end.

Fixpoint rstrip_by (sp : ascii -> bool) (s : string) : string :=
  match s with
  | "" => ""
  | String c r =>
    match rstrip_by sp r with
    | "" => if sp c then "" else String c ""
    | r' => String c r'
    end
  end.

(** [s.strip()]. *)
Definition strip (s : string) : string := rstrip_by isspace (lstrip_by isspace s).

(** [c in s] for a one-character [c]. *)
Fixpoint contains_char (c : ascii) (s : string) : bool :=
  match s with
  | "" => false
  | String d r => Ascii.eqb d c || contains_char c r
  end.

(** [s.split(sep)] for a one-character separator. *)
Fixpoint split (sep : ascii) (s : string) : list string :=
  match s with
  | "" => [""]
  | String c r =>
    if Ascii.eqb c sep then "" :: split sep r
    else match split sep r with
         | h :: t => String c h :: t
         | [] => [String c ""]
         end
  end.

(** [a, b = l]: unpacking into exactly two targets. *)
Definition unpack2 {A} (l : list A) : result (A * A) :=
  match l with
  | [a; b] => Ok (a, b)
  | _ => Raise (Exn ValueError)
  end.

(** [bool(s)] for a [str]. *)
Definition truthy_str (s : string) : bool := negb (s =? "").

(** ** [float(str)] *)

Local Open Scope Z_scope.

(** The binary64 value nearest to [(-1)^neg * m * 10^e], ties to even,
    overflowing to an infinity. *)
Definition decimal_to_spec (neg : bool) (m e : Z) : spec_float :=
  match m with
  | Z0 => S754_zero neg
  | Zpos p =>
    if 0 <=? e then binary_round prec emax neg (p * Z.to_pos (10 ^ e)) 0
    else
      let '(q, e', l) := SFdiv_core_binary prec emax (Zpos p) 0 (10 ^ (- e)) 0 in
      binary_round_aux prec emax neg q e' l
  | Zneg _ => S754_nan
  end.

Definition decimal_to_float (neg : bool) (m e : Z) : float :=
  SF2Prim (decimal_to_spec neg m e).

Definition digit_value (c : ascii) : Z := Z.of_nat (ord c) - 48.

Fixpoint digits_value_from (acc : Z) (s : string) : Z :=
  match s with
  | "" => acc
  | String c r => digits_value_from (10 * acc + digit_value c) r
  end.

Definition digits_value (s : string) : Z := digits_value_from 0 s.

(** The longest prefix of digits, and what follows it. *)
Fixpoint span_digits (s : string) : string * string :=
  match s with
  | "" => ("", "")
  | String c r =>
    if isdigit c then let '(d, t) := span_digits r in (String c d, t)
    else ("", s)
  end.

(** An optional sign: whether it is a minus, and what follows it. *)
Definition take_sign (s : string) : bool * string :=
  match s with
  | String "-" r => (true, r)
  | String "+" r => (false, r)
  | _ => (false, s)
  end.

(** Underscores may only stand between two digits; they are removed
    before the text is read ([_Py_string_to_number_with_underscores]).
    [prev] is the previous character. *)
Fixpoint drop_underscores (prev : option ascii) (s : string) : option string :=
  match s with
  | "" =>
    match prev with
    | Some "_"%char => None
    | _ => Some ""
    end
  | String c r =>
    if Ascii.eqb c "_" then
      match prev with
      | Some p => if isdigit p then drop_underscores (Some c) r else None
      | None => None
      end
    else
      match prev with
      | Some "_"%char =>
        if isdigit c then option_map (String c) (drop_underscores (Some c) r)
        else None
      | _ => option_map (String c) (drop_underscores (Some c) r)
      end
  end.

(** [Py_ISSPACE]: the whitespace [float()] strips. *)
Definition float_space (c : ascii) : bool :=
  in_range 9 13 c || (ord c =? 32)%nat.

Definition float_strip (s : string) : string :=
  rstrip_by float_space (lstrip_by float_space s).

(** The exponent part [e[+-]digits]: its value and what follows; an
    [e] with no digit after it is not consumed. *)
Definition take_exponent (s : string) : Z * string :=
  match s with
  | String c r =>
    if Ascii.eqb c "e" || Ascii.eqb c "E" then
      let '(eneg, r1) := take_sign r in
      let '(ed, r2) := span_digits r1 in
      if String.eqb ed "" then (0, s)
      else ((if eneg then - digits_value ed else digits_value ed), r2)
    else (0, s)
  | "" => (0, s)
  end.

(** [_Py_dg_strtod]: reads [[sign] digits [. digits] [exponent]] from the
    front of [s]; the value and the unread rest, or [None] when there is
    no digit. *)
Definition strtod (s : string) : option (float * string) :=
  let '(neg, s1) := take_sign s in
  let '(ip, s2) := span_digits s1 in
  let '(fp, s3) :=
    match s2 with
    | String "." r => span_digits r
    | _ => ("", s2)
    end in
  if String.eqb ip "" && String.eqb fp "" then None
  else
    let '(e, s4) := take_exponent s3 in
    Some (decimal_to_float neg (digits_value (ip ++ fp))
            (e - Z.of_nat (String.length fp)), s4).

(** Whether [s] starts with [p], letter case apart ([p] is lower case). *)
Fixpoint ci_prefix (p s : string) : bool :=
  match p, s with
  | "", _ => true
  | String a p', String b s' => Ascii.eqb a (lower_char b) && ci_prefix p' s'
  | String _ _, "" => false
  end.

Fixpoint drop (n : nat) (s : string) : string :=
  match n, s with
  | O, _ => s
  | S n', String _ r => drop n' r
  | S _, "" => ""
  end.

(** [_Py_parse_inf_or_nan]. *)
Definition parse_inf_or_nan (s : string) : option (float * string) :=
  let '(neg, s1) := take_sign s in
  if ci_prefix "inf" s1 then
    let r := drop 3 s1 in
    Some (if neg then neg_infinity else infinity,
          if ci_prefix "inity" r then drop 5 r else r)
  else if ci_prefix "nan" s1 then Some (nan, drop 3 s1)
  else None.

(** [float(s)]: [ValueError] unless the whole of [s], underscores and
    surrounding whitespace apart, is a number, an infinity or a nan. *)
Definition float_of_str (s : string) : result float :=
  match drop_underscores None s with
  | None => Raise (Exn ValueError)
  | Some t =>
    let u := float_strip t in
    let parsed :=
      match strtod u with
      | Some r => Some r
      | None => parse_inf_or_nan u
      end in
    match parsed with
    | Some (x, "") => Ok x
    | _ => Raise (Exn ValueError)
    end
  end.

(** [a / b] on floats. *)
Definition truediv (a b : float) : result float :=
  if PrimFloat.eqb b 0 then Raise (Exn ZeroDivisionError)
  else Ok (a / b)%float.

(** ** Values

    What [json.loads] builds, what the JSON columns hold and what the
    ORM attributes carry. A [dict] keeps its keys in insertion order. *)

#[warnings="-register-all"]
Inductive value :=
| VNone
| VBool (b : bool)
| VInt (n : Z)
| VFloat (x : float)
| VStr (s : string)
| VList (l : list value)
| VDict (d : list (string * value)).

(** [bool(v)]. *)
Definition truthy (v : value) : bool :=
  match v with
  | VNone => false
  | VBool b => b
  | VInt n => negb (n =? 0)
  | VFloat x => negb (PrimFloat.eqb x 0)
  | VStr s => truthy_str s
  | VList l => match l with [] => false | _ => true end
  | VDict d => match d with [] => false | _ => true end
  end.

(** [a or b]. *)
Definition or_else (a b : value) : value := if truthy a then a else b.

(** Lookup in an insertion-ordered mapping. *)
Fixpoint assoc_get {B} (k : string) (d : list (string * B)) : option B :=
  match d with
  | [] => None
  | (k', v) :: r => if String.eqb k' k then Some v else assoc_get k r
  end.

(** [d[k] = v]: an existing key keeps its place, a new key goes last. *)
Fixpoint assoc_set {B} (k : string) (v : B) (d : list (string * B))
  : list (string * B) :=
  match d with
  | [] => [(k, v)]
  | (k', v') :: r =>
    if String.eqb k' k then (k', v) :: r else (k', v') :: assoc_set k v r
  end.

(** [v.get(k)]: only a [dict] has the method; a missing key gives [None]. *)
Definition get (v : value) (k : string) : result value :=
  match v with
  | VDict d => Ok match assoc_get k d with Some x => x | None => VNone end
  | _ => Raise (Exn AttributeError)
  end.

(** [v.strip()]: only a [str] has the method. *)
Definition strip_method (v : value) : result string :=
  match v with
  | VStr s => Ok (strip s)
  | _ => Raise (Exn AttributeError)
  end.

(** The characters of a text, one per byte. *)
Fixpoint chars (s : string) : list value :=
  match s with
  | "" => []
  | String c r => VStr (String c "") :: chars r
  end.

(** [for x in v]: the elements of a list, the characters of a string,
    the keys of a dict; anything else is not iterable. *)
Definition iterate (v : value) : result (list value) :=
  match v with
  | VList l => Ok l
  | VStr s => Ok (chars s)
  | VDict d => Ok (map (fun kv => VStr (fst kv)) d)
  | _ => Raise (Exn TypeError)
  end.

(** A [for] loop whose body updates [acc] and may raise. *)
Fixpoint for_each {A S} (body : A -> S -> result S) (l : list A) (acc : S)
  : result S :=
  match l with
  | [] => Ok acc
  | x :: r => bind (body x acc) (for_each body r)
  end.

(** [str(n)] for an [int]. *)
Definition str_of_int (n : Z) : string := NilZero.string_of_int (Z.to_int n).

(** [sorted] on [(key, value)] pairs with distinct keys: a stable
    insertion sort by [<] on the keys. *)
Fixpoint insert_by_key {B} (x : string * B) (l : list (string * B))
  : list (string * B) :=
  match l with
  | [] => [x]
  | y :: r =>
    if String.ltb (fst x) (fst y) then x :: l else y :: insert_by_key x r
  end.

Definition sorted_items {B} (l : list (string * B)) : list (string * B) :=
  fold_left (fun acc x => insert_by_key x acc) l [].

End Py.

(* ================================================================== *)
(** * main.py: the quantity parser *)
(* ================================================================== *)

Import Py.
Local Open Scope py_scope.
Local Open Scope string_scope.

(** The [try] suite of the fraction branch:
    [num, den = quantity_str.split("/"); return float(num) / float(den)]. *)
Definition fraction_of (quantity_str : string) : result (option float) :=
  '(num, den) <- unpack2 (split "/" quantity_str) ;;
  a <- float_of_str num ;;
  b <- float_of_str den ;;
  q <- truediv a b ;;
  Ok (Some q).

Definition parse_quantity (quantity_str : string) : result (option float) :=
  if negb (truthy_str quantity_str) then Ok None
  else
    try_except
      (x <- float_of_str quantity_str ;; Ok (Some x))
      [ValueError; TypeError]
      (if contains_char "/" quantity_str then
         try_except (fraction_of quantity_str)
           [ValueError; ZeroDivisionError]
           (Ok None)
       else Ok None).

(** ** The parser's rules, as the specification words them *)

Fixpoint count_char (c : ascii) (s : string) : nat :=
  match s with
  | "" => O
  | String d r => if Ascii.eqb d c then S (count_char c r) else count_char c r
  end.

(** The text before the first [c]. *)
Fixpoint before (c : ascii) (s : string) : string :=
  match s with
  | "" => ""
  | String d r => if Ascii.eqb d c then "" else String d (before c r)
  end.

(** The text after the first [c]. *)
Fixpoint after (c : ascii) (s : string) : string :=
  match s with
  | "" => ""
  | String d r => if Ascii.eqb d c then r else after c r
  end.

(** The parser's three branches in closed form, with Python's [float()]
    as the reader of numbers: what [float()] reads; else, with exactly one
    slash, the quotient of what it reads on the two sides, the second not
    zero; else [None]. This is what the code computes
    ([parse_quantity_refines]); the rules as the specification words them
    are [quantity_rules] below. *)
Definition parse_quantity_rules (s : string) : option float :=
  match float_of_str s with
  | Ok v => Some v
  | Raise _ =>
    if (count_char "/" s =? 1)%nat then
      match float_of_str (before "/" s), float_of_str (after "/" s) with
      | Ok x, Ok y => if PrimFloat.eqb y 0 then None else Some (x / y)%float
      | _, _ => None
      end
    else None
  end.

(** ** The rules of the specification

    A decimal number, as the specification has it in "2", "1.5" and the
    sides of "1/2": an optional sign, one digit or more, and optionally a
    point followed by one digit or more. *)

(** One digit or more, and nothing else. *)
Fixpoint only_digits (s : string) : bool :=
  match s with
  | "" => false
  | String c "" => isdigit c
  | String c r => isdigit c && only_digits r
  end.

(** The number that digits denote, by the place of each digit. *)
Fixpoint digits_number (s : string) : Z :=
  match s with
  | "" => 0
  | String c r => (digit_value c * 10 ^ Z.of_nat (String.length r) + digits_number r)%Z
  end.

(** A decimal number read as [(negative, n, k)], which stands for
    [n / 10^k], negated when [negative]; [None] for any other text. *)
Definition read_decimal (s : string) : option (bool * Z * nat) :=
  let '(negative, body) :=
    match s with
    | String "-" r => (true, r)
    | String "+" r => (false, r)
    | _ => (false, s)
    end in
  match count_char "." body with
  | O => if only_digits body then Some (negative, digits_number body, O) else None
  | S O =>
    let whole := before "." body in
    let fraction := after "." body in
    if only_digits whole && only_digits fraction
    then Some (negative, digits_number (whole ++ fraction), String.length fraction)
    else None
  | _ => None
  end.

(** The value of a decimal number: the binary64 nearest to it. *)
Definition decimal_value (s : string) : option float :=
  match read_decimal s with
  | Some (negative, n, k) => Some (decimal_to_float negative n (- Z.of_nat k))
  | None => None
  end.

(** Every character of [s] satisfies [p]. *)
Fixpoint all_chars (p : ascii -> bool) (s : string) : bool :=
  match s with
  | "" => true
  | String c r => p c && all_chars p r
  end.

(** The characters of decimal numbers and of the fractions made of
    them. *)
Definition plain_char (c : ascii) : bool :=
  isdigit c || Ascii.eqb c "-" || Ascii.eqb c "+" || Ascii.eqb c "."
  || Ascii.eqb c "/".

(** A text at which the reading of a number stops: the empty text, or
    one that starts with a slash. *)
Definition stops (t : string) : bool :=
  match t with
  | "" => true
  | String c _ => Ascii.eqb c "/"
  end.

(** Rules (a), (b), (c): the value of a decimal number; else, with
    exactly one slash between two decimal numbers, the second not zero,
    their quotient; else unparseable. *)
Definition quantity_rules (s : string) : option float :=
  match decimal_value s with
  | Some v => Some v
  | None =>
    if (count_char "/" s =? 1)%nat then
      match decimal_value (before "/" s), decimal_value (after "/" s) with
      | Some x, Some y => if PrimFloat.eqb y 0 then None else Some (x / y)%float
      | _, _ => None
      end
    else None
  end.


(* ================================================================== *)
(** * json.loads *)
(* ================================================================== *)

(** The decoder of CPython's [json] module with its default settings
    ([strict] strings, [NaN] and the infinities accepted, the last of
    two equal keys wins). The limits of the interpreter (the depth of
    recursion, the 4300 digits of an [int]) are not modelled. *)
Module Json.

Local Open Scope string_scope.

(** The outcome of one scanning step: a value and the unread text, a
    decoding error, or not enough fuel for the nesting. *)
Inductive outcome (A : Type) :=
| Done (a : A)
| Invalid
| OutOfFuel.

Arguments Done {A} a.
Arguments Invalid {A}.
Arguments OutOfFuel {A}.

Definition quote : ascii := "034".
Definition backslash : ascii := "092".

(** The whitespace of JSON: space, TAB, LF, CR. *)
Definition json_space (c : ascii) : bool :=
  (ord c =? 32)%nat || (ord c =? 9)%nat || (ord c =? 10)%nat || (ord c =? 13)%nat.

Definition skip_ws (s : string) : string := lstrip_by json_space s.

Definition hex_value (c : ascii) : option N :=
  if in_range 48 57 c then Some (N.of_nat (ord c - 48))
  else if in_range 97 102 c then Some (N.of_nat (ord c - 87))
  else if in_range 65 70 c then Some (N.of_nat (ord c - 55))
  else None.

(** The four hex digits of a [\uXXXX] escape. *)
Definition hex4 (a b c d : ascii) : option N :=
  match hex_value a, hex_value b, hex_value c, hex_value d with
  | Some x, Some y, Some z, Some w => Some (((x * 16 + y) * 16 + z) * 16 + w)%N
  | _, _, _, _ => None
  end.

Definition byte (n : N) : ascii := ascii_of_N n.

(** The UTF-8 bytes of a code point (a lone surrogate is encoded like any
    other three-byte code point). *)
Definition utf8 (cp : N) : string :=
  (if cp <? 128 then String (byte cp) ""
   else if cp <? 2048 then
     String (byte (192 + cp / 64)) (String (byte (128 + cp mod 64)) "")
   else if cp <? 65536 then
     String (byte (224 + cp / 4096))
       (String (byte (128 + (cp / 64) mod 64)) (String (byte (128 + cp mod 64)) ""))
   else
     String (byte (240 + cp / 262144))
       (String (byte (128 + (cp / 4096) mod 64))
          (String (byte (128 + (cp / 64) mod 64)) (String (byte (128 + cp mod 64)) ""))))%N.

Definition is_high_surrogate (cp : N) : bool := ((55296 <=? cp) && (cp <=? 56319))%N.
Definition is_low_surrogate (cp : N) : bool := ((56320 <=? cp) && (cp <=? 57343))%N.
Definition join_surrogates (hi lo : N) : N :=
  (65536 + (hi - 55296) * 1024 + (lo - 56320))%N.

(** The character a one-letter escape stands for. *)
Definition simple_escape (c : ascii) : option ascii :=
  if Ascii.eqb c quote then Some quote
  else if Ascii.eqb c backslash then Some backslash
  else if Ascii.eqb c "/" then Some "/"%char
  else if Ascii.eqb c "b" then Some "008"%char
  else if Ascii.eqb c "f" then Some "012"%char
  else if Ascii.eqb c "n" then Some "010"%char
  else if Ascii.eqb c "r" then Some "013"%char
  else if Ascii.eqb c "t" then Some "009"%char
  else None.

(** The rest of [s] after the character [c] it starts with. *)
Definition starts_with (c : ascii) (s : string) : option string :=
  match s with
  | String d r => if Ascii.eqb d c then Some r else None
  | "" => None
  end.

(** [py_scanstring] from just after the opening quote: the decoded text
    and what follows the closing quote. A high surrogate escape followed
    by a low surrogate escape makes one code point. *)
Fixpoint scanstring (s : string) : option (string * string) :=
  match s with
  | "" => None
  | String c r =>
    if Ascii.eqb c quote then Some ("", r)
    else if Ascii.eqb c backslash then
      match r with
      | "" => None
      | String e r1 =>
        if Ascii.eqb e "u" then
          match r1 with
          | String h1 (String h2 (String h3 (String h4 r2))) =>
            match hex4 h1 h2 h3 h4 with
            | None => None
            | Some cp =>
              let lone :=
                option_map (fun '(t, rest) => (utf8 cp ++ t, rest)) (scanstring r2) in
              if is_high_surrogate cp then
                match r2 with
                | String b (String u (String g1 (String g2 (String g3 (String g4 r3))))) =>
                  if Ascii.eqb b backslash && Ascii.eqb u "u" then
                    match hex4 g1 g2 g3 g4 with
                    | None => None
                    | Some cp2 =>
                      if is_low_surrogate cp2 then
                        option_map
                          (fun '(t, rest) => (utf8 (join_surrogates cp cp2) ++ t, rest))
                          (scanstring r3)
                      else lone
                    end
                  else lone
                | _ => lone
                end
              else lone
            end
          | _ => None
          end
        else
          match simple_escape e with
          | Some x => option_map (fun '(t, rest) => (String x t, rest)) (scanstring r1)
          | None => None
          end
      end
    else if (ord c <=? 31)%nat then None
    else option_map (fun '(t, rest) => (String c t, rest)) (scanstring r)
  end.

(** An optional minus, then a lone zero or a digit from 1 to 9 followed
    by digits: the sign, the integer digits and the rest. *)
Definition scan_integer (s : string) : option (bool * string * string) :=
  let '(neg, s1) :=
    match s with
    | String "-" r => (true, r)
    | _ => (false, s)
    end in
  match s1 with
  | String c r =>
    if Ascii.eqb c "0" then Some (neg, "0", r)
    else if isdigit c then
      let '(d, t) := span_digits r in Some (neg, String c d, t)
    else None
  | "" => None
  end.

(** A dot followed by at least one digit: the fraction text with its
    dot, or nothing read. *)
Definition scan_fraction (s : string) : string * string :=
  match s with
  | String "." (String d r) =>
    if isdigit d then
      let '(ds, t) := span_digits (String d r) in (String "." ds, t)
    else ("", s)
  | _ => ("", s)
  end.

(** An [e] or [E], an optional sign and at least one digit: the
    exponent text, or nothing read. *)
Definition scan_exponent (s : string) : string * string :=
  match s with
  | String e r =>
    if Ascii.eqb e "e" || Ascii.eqb e "E" then
      let '(sg, r1) :=
        match r with
        | String "-" r' => ("-", r')
        | String "+" r' => ("+", r')
        | _ => ("", r)
        end in
      let '(ds, t) := span_digits r1 in
      if String.eqb ds "" then ("", s) else (String e (sg ++ ds), t)
    else ("", s)
  | "" => ("", s)
  end.

(** A number: an [int] when it has neither fraction nor exponent, else
    the [float] of its text. *)
Definition scan_number (s : string) : outcome (value * string) :=
  match scan_integer s with
  | None => Invalid
  | Some (neg, ip, s1) =>
    let '(fp, s2) := scan_fraction s1 in
    let '(ep, s3) := scan_exponent s2 in
    if String.eqb fp "" && String.eqb ep "" then
      Done (VInt (if neg then - digits_value ip else digits_value ip)%Z, s3)
    else
      match float_of_str ((if neg then "-" else "") ++ ip ++ fp ++ ep) with
      | Ok x => Done (VFloat x, s3)
      | Raise _ => Invalid
      end
  end.

(** [s] with the prefix [p] removed, when it starts with it. *)
Fixpoint after_prefix (p s : string) : option string :=
  match p, s with
  | "", _ => Some s
  | String a p', String b s' => if Ascii.eqb a b then after_prefix p' s' else None
  | String _ _, "" => None
  end.

(** The named constants. *)
Definition scan_constant (s : string) : option (value * string) :=
  match after_prefix "null" s with
  | Some r => Some (VNone, r)
  | None =>
  match after_prefix "true" s with
  | Some r => Some (VBool true, r)
  | None =>
  match after_prefix "false" s with
  | Some r => Some (VBool false, r)
  | None =>
  match after_prefix "NaN" s with
  | Some r => Some (VFloat nan, r)
  | None =>
  match after_prefix "Infinity" s with
  | Some r => Some (VFloat infinity, r)
  | None =>
  match after_prefix "-Infinity" s with
  | Some r => Some (VFloat neg_infinity, r)
  | None => None
  end end end end end end.

(** [scan_once]: one value from the front of [s]. [object_items] reads
    the members of an object from its first key on, [array_items] the
    elements of an array from its first element on. *)
Fixpoint scan_once (fuel : nat) (s : string) {struct fuel}
  : outcome (value * string) :=
  match fuel with
  | O => OutOfFuel
  | S f =>
    match s with
    | "" => Invalid
    | String c r =>
      if Ascii.eqb c quote then
        match scanstring r with
        | Some (t, rest) => Done (VStr t, rest)
        | None => Invalid
        end
      else if Ascii.eqb c "{" then
        match starts_with "}" (skip_ws r) with
        | Some rest => Done (VDict [], rest)
        | None => object_items f (skip_ws r) []
        end
      else if Ascii.eqb c "[" then
        match starts_with "]" (skip_ws r) with
        | Some rest => Done (VList [], rest)
        | None => array_items f (skip_ws r) []
        end
      else
        match scan_constant s with
        | Some vr => Done vr
        | None => scan_number s
        end
    end
  end

with object_items (fuel : nat) (s : string) (acc : list (string * value))
  {struct fuel} : outcome (value * string) :=
  match fuel with
  | O => OutOfFuel
  | S f =>
    match starts_with quote s with
    | None => Invalid
    | Some r =>
      match scanstring r with
      | None => Invalid
      | Some (key, r1) =>
        match starts_with ":" (skip_ws r1) with
        | None => Invalid
        | Some r2 =>
          match scan_once f (skip_ws r2) with
          | Done (v, r3) =>
            let acc' := assoc_set key v acc in
            match starts_with "}" (skip_ws r3) with
            | Some rest => Done (VDict acc', rest)
            | None =>
              match starts_with "," (skip_ws r3) with
              | Some r4 => object_items f (skip_ws r4) acc'
              | None => Invalid
              end
            end
          | Invalid => Invalid
          | OutOfFuel => OutOfFuel
          end
        end
      end
    end
  end

with array_items (fuel : nat) (s : string) (acc : list value)
  {struct fuel} : outcome (value * string) :=
  match fuel with
  | O => OutOfFuel
  | S f =>
    match scan_once f s with
    | Done (v, r1) =>
      let acc' := (acc ++ [v])%list in
      match starts_with "]" (skip_ws r1) with
      | Some rest => Done (VList acc', rest)
      | None =>
        match starts_with "," (skip_ws r1) with
        | Some r2 => array_items f (skip_ws r2) acc'
        | None => Invalid
        end
      end
    | Invalid => Invalid
    | OutOfFuel => OutOfFuel
    end
  end.

(** Fuel that no text exhausts: a call of the scanner reads at least
    one character before it calls the scanner of the items, which calls
    it back. *)
Definition enough_fuel (s : string) : nat := S (2 * String.length s).

(** [json.loads(s)]: one value, whitespace around it, and nothing else. *)
Definition loads (s : string) : result value :=
  match scan_once (enough_fuel s) (skip_ws s) with
  | Done (v, rest) =>
    match skip_ws rest with
    | "" => Ok v
    | _ => Raise (Exn JSONDecodeError)
    end
  | Invalid => Raise (Exn JSONDecodeError)
  | OutOfFuel => Raise (Exn JSONDecodeError)
  end.

End Json.

(* ================================================================== *)
(** * re.search *)
(* ================================================================== *)

(** A backtracking matcher for the operators the pattern of
    [parse_llm_json_output] uses, with the priorities of [re]: a greedy
    star or option tries the longer match first and gives back what the
    rest of the pattern needs. *)
Module Re.

Local Open Scope string_scope.

Inductive regex :=
| Eps
| Chr (c : ascii)
| Star (p : ascii -> bool)
| Opt (r : regex)
| Seq (r1 r2 : regex)
| Group (n : nat) (r : regex).

(** The text each group matched, the latest first. *)
Definition groups := list (nat * string).

(** A literal text. *)
Fixpoint text (s : string) : regex :=
  match s with
  | "" => Eps
  | String c r => Seq (Chr c) (text r)
  end.

(** [p*] followed by the continuation [k]: as many characters as
    possible, then fewer. *)
Fixpoint star {A} (p : ascii -> bool) (s : string) (k : string -> option A)
  : option A :=
  match s with
  | String c r =>
    if p c then
      match star p r k with
      | Some x => Some x
      | None => k s
      end
    else k s
  | "" => k s
  end.

(** [r] at the front of [s], then the continuation [k] on the rest. *)
Fixpoint matches (r : regex) (s : string) (g : groups)
  (k : string -> groups -> option groups) : option groups :=
  match r with
  | Eps => k s g
  | Chr c =>
    match s with
    | String d t => if Ascii.eqb c d then k t g else None
    | "" => None
    end
  | Star p => star p s (fun t => k t g)
  | Opt r1 =>
    match matches r1 s g k with
    | Some x => Some x
    | None => k s g
    end
  | Seq r1 r2 => matches r1 s g (fun t g1 => matches r2 t g1 k)
  | Group n r1 =>
    matches r1 s g
      (fun t g1 =>
         k t ((n, String.substring 0 (String.length s - String.length t) s) :: g1))
  end.

(** [re.search(r, s)]: the match at the leftmost position that has one. *)
Fixpoint search (r : regex) (s : string) : option groups :=
  match matches r s [] (fun _ g => Some g) with
  | Some g => Some g
  | None =>
    match s with
    | "" => None
    | String _ t => search r t
    end
  end.

(** [m.group(n)]: [None] for a group that took no part in the match. *)
Fixpoint group (m : groups) (n : nat) : option string :=
  match m with
  | [] => None
  | (i, t) :: r => if (i =? n)%nat then Some t else group r n
  end.

End Re.

(* ================================================================== *)
(** * models.py *)
(* ================================================================== *)

(** A row of [transcripts]. [recipe_id] is the nullable foreign key to
    [recipes.id], declared [ondelete="SET NULL"]. *)
Module Transcript.
Record t := Build {
  id : Z;
  full_text : string;
  status : string;
  recipe_id : option Z
}.
End Transcript.

(** A row of [recipes]. [recipe_name] and [provenance] are [String]
    columns: a row that a flush has written holds text in them (for
    [provenance], text or [None]); between the assignment of an attribute
    and the flush, the row of the session holds the Python value as it
    was assigned. [items] and [chef_notes] are JSON columns, which hold
    any JSON value and give it back as it was. *)
Module Recipe.
Record t := Build {
  id : Z;
  recipe_name : value;
  provenance : value;
  items : value;
  chef_notes : value
}.
End Recipe.

(* ================================================================== *)
(** * main.py: the ingredient aggregator *)
(* ================================================================== *)

(** [defaultdict(lambda: defaultdict(float))]. *)
Definition totals := list (string * list (string * float)).

(** [aggregated_ingredients[name][unit] += q]: a missing name gets an
    empty inner mapping and a missing unit starts from [float()], 0.0. *)
Definition add_quantity (name unit : string) (q : float) (agg : totals) : totals :=
  let inner := match assoc_get name agg with Some d => d | None => [] end in
  let current := match assoc_get unit inner with Some x => x | None => 0%float end in
  assoc_set name (assoc_set unit (current + q)%float inner) agg.

Section Aggregator.

(** Python's [repr] of floats, lists and dicts, to which [str] falls
    back; it is a builtin and stays a parameter. *)
Variable repr : value -> string.

(** [str(v)]. *)
Definition str (v : value) : string :=
  match v with
  | VStr s => s
  | VInt n => str_of_int n
  | VBool true => "True"
  | VBool false => "False"
  | VNone => "None"
  | _ => repr v
  end.

(** The body of the inner loop of [serve_ingredients_page]. *)
Definition aggregate_item (item : value) (agg : totals) : result totals :=
  name <- get item "itemName" ;;
  quantity <- get item "quantity" ;;
  unit0 <- get item "unit" ;;
  unit1 <- strip_method (or_else unit0 (VStr "count")) ;;
  let unit := lower unit1 in
  if truthy name && truthy quantity then
    numeric_quantity <- parse_quantity (str quantity) ;;
    match numeric_quantity with
    | Some q =>
      name1 <- strip_method name ;;
      let normalized_name := lower name1 in
      Ok (add_quantity normalized_name unit q agg)
    | None => Ok agg
    end
  else Ok agg.

Definition aggregate_recipe (recipe : Recipe.t) (agg : totals) : result totals :=
  its <- iterate (Recipe.items recipe) ;;
  for_each aggregate_item its agg.

(** The aggregation of [serve_ingredients_page] over the rows that
    [select(models.Recipe)] returned: the value bound to [ingredients] in
    the template context. *)
Definition aggregate_ingredients (all_recipes : list Recipe.t) : result totals :=
  agg <- for_each aggregate_recipe all_recipes [] ;;
  Ok (sorted_items agg).

(** ** The aggregate, as the specification words it *)

(** Trimming whitespace and lowercasing. *)
Definition normalize (s : string) : string := lower (strip s).

(** [d.get(k)] on the mapping itself. *)
Definition field (k : string) (d : list (string * value)) : value :=
  match assoc_get k d with
  | Some x => x
  | None => VNone
  end.

(** What one line item adds to the totals: its normalized name, its
    normalized unit ("count" when the unit is missing or empty) and its
    parsed quantity; nothing when the name or the quantity is missing or
    otherwise falsy, or when the quantity does not parse. *)
Definition contribution (item : value) : option (string * string * float) :=
  match item with
  | VDict d =>
    if truthy (field "itemName" d) && truthy (field "quantity" d) then
      match field "itemName" d,
            or_else (field "unit" d) (VStr "count"),
            parse_quantity_rules (str (field "quantity" d)) with
      | VStr n, VStr u, Some q => Some (normalize n, normalize u, q)
      | _, _, _ => None
      end
    else None
  | _ => None
  end.

(** One step of the loop, on values: the contribution of a line item. *)
Definition step (agg : totals) (item : value) : totals :=
  match contribution item with
  | Some (n, u, q) => add_quantity n u q agg
  | None => agg
  end.

(** The quantities contributed under name [n] and unit [u], in the order
    of the line items. *)
Definition matching (n u : string) (its : list value) : list float :=
  flat_map
    (fun it =>
       match contribution it with
       | Some (n', u', q) =>
         if String.eqb n' n && String.eqb u' u then [q] else []
       | None => []
       end)
    its.

End Aggregator.

(** The sum of a bucket: additions from 0.0 in the order of the line
    items; no bucket when nothing was contributed. *)
Definition total_of (qs : list float) : option float :=
  match qs with
  | [] => None
  | _ => Some (fold_left PrimFloat.add qs 0%float)
  end.

(** The total recorded under name [n] and unit [u]. *)
Definition lookup (n u : string) (m : totals) : option float :=
  match assoc_get n m with
  | Some d => assoc_get u d
  | None => None
  end.

(** Every line item of every recipe, in order. *)
Definition line_items (all_recipes : list Recipe.t) : list value :=
  flat_map
    (fun r => match Recipe.items r with VList l => l | _ => [] end)
    all_recipes.

(** A name or unit the aggregator can normalize: text, or a falsy value
    (missing, null, zero, empty). *)
Definition text_or_falsy (v : value) : bool :=
  match v with
  | VStr _ => true
  | _ => negb (truthy v)
  end.

Definition item_shaped (item : value) : bool :=
  match item with
  | VDict d => text_or_falsy (field "itemName" d) && text_or_falsy (field "unit" d)
  | _ => false
  end.

Definition items_shaped (v : value) : bool :=
  match v with
  | VList l => forallb item_shaped l
  | _ => false
  end.

(** Every recipe holds a list of objects whose name and unit are text
    or falsy. *)
Definition recipes_shaped (all_recipes : list Recipe.t) : bool :=
  forallb (fun r => items_shaped (Recipe.items r)) all_recipes.

(** Names strictly ascending in the order of [str]. *)
Definition ascending (m : totals) : Prop :=
  StronglySorted (fun a b => String.ltb (fst a) (fst b) = true) m.

(** [a <= b] on keys: [b < a] fails. *)
Definition key_le {B} (a b : string * B) : Prop := String.ltb (fst b) (fst a) = false.

(** The value of a bucket, 0.0 when there is none. *)
Definition or_zero (o : option float) : float :=
  match o with
  | Some x => x
  | None => 0%float
  end.

(** Adding the quantities [qs] to a bucket that holds [o]. *)
Definition accumulate (o : option float) (qs : list float) : option float :=
  match qs with
  | [] => o
  | _ => Some (fold_left PrimFloat.add qs (or_zero o))
  end.

(** Mappings with distinct names whose buckets are not empty and have
    distinct units. *)
Definition totals_ok (m : totals) : Prop :=
  NoDup (map fst m) /\
  forall n d, In (n, d) m -> d <> [] /\ NoDup (map fst d).

(** ** Sample data *)

(** A line item as the form handlers and the structuring service write
    it. *)
Definition line_item (name quantity unit : value) : value :=
  VDict [("quantity", quantity); ("unit", unit); ("itemName", name)].

Definition recipe_with (id : Z) (name : string) (its : value) : Recipe.t :=
  Recipe.Build id (VStr name) VNone its (VList []).

(** Two recipes, one item each: "Flour" 1 cup and "flour" 2 cup. *)
Definition flour_recipes : list Recipe.t :=
  [ recipe_with 1 "Bread" (VList [line_item (VStr "Flour") (VStr "1") (VStr "cup")]);
    recipe_with 2 "Cake" (VList [line_item (VStr "flour") (VStr "2") (VStr "cup")]) ].

(** An item with no unit and an item whose quantity is no number. *)
Definition pantry_recipes : list Recipe.t :=
  [ recipe_with 1 "Omelette"
      (VList [ VDict [("itemName", VStr " Egg "); ("quantity", VStr "2")];
               line_item (VStr "Salt") (VStr "a pinch") (VStr "tsp");
               line_item (VStr "Butter") (VStr "1/2") (VStr " Tbsp ") ]) ].

(** A recipe whose items are plain text, as a structuring service may
    return them and as the generation workflow stores them. *)
Definition text_items_recipe : Recipe.t :=
  recipe_with 1 "Pancakes" (VList [VStr "2 eggs"]).

(** A recipe with a quantity of zero. *)
Definition zero_quantity_recipe : Recipe.t :=
  recipe_with 1 "Broth" (VList [line_item (VStr "Salt") (VInt 0) (VStr "tsp")]).

(** A stand-in for [repr] in closed examples, none of which reaches it:
    their quantities are text and integers. *)
Definition repr_unused (v : value) : string := "".

(* ================================================================== *)
(** * main.py: the LLM output parser *)
(* ================================================================== *)

(** The pattern [```(json)?\s*({.*})\s*```] under [re.DOTALL]. *)
Definition fence_pattern : Re.regex :=
  Re.Seq (Re.text "```")
    (Re.Seq (Re.Opt (Re.Group 1 (Re.text "json")))
       (Re.Seq (Re.Star isspace)
          (Re.Seq (Re.Group 2
                     (Re.Seq (Re.Chr "{") (Re.Seq (Re.Star (fun _ => true)) (Re.Chr "}"))))
             (Re.Seq (Re.Star isspace) (Re.text "```"))))).

(** [json_string = match.group(2) if match else raw_string]; passing the
    [None] of an absent group to [json.loads] is a [TypeError]. *)
Definition json_string_of (raw_string : string) : result string :=
  match Re.search fence_pattern raw_string with
  | Some m =>
    match Re.group m 2 with
    | Some t => Ok t
    | None => Raise (Exn TypeError)
    end
  | None => Ok raw_string
  end.

Definition parse_llm_json_output (raw_string : string) : result (option value) :=
  if negb (truthy_str raw_string) then Ok None
  else
    json_string <- json_string_of raw_string ;;
    try_except
      (v <- Json.loads json_string ;; Ok (Some v))
      [JSONDecodeError]
      (Ok None).

(* ================================================================== *)
(** * The store, the session and the structuring service *)
(* ================================================================== *)

(** The two tables, rows in the order of their insertion. *)
Record Store := {
  transcripts : list Transcript.t;
  recipes : list Recipe.t
}.

(** What a request can change: the committed store, the rows as the
    request's session holds them (its unit of work, flushed or not), and
    the prompts sent to the structuring service, the oldest first. *)
Record World := {
  durable : Store;
  session : Store;
  llm_calls : list string
}.

(** A coroutine of a request handler: it runs in a world, returns or
    raises, and leaves a world. *)
Definition handler (A : Type) : Type := World -> result A * World.

Definition ret {A} (a : A) : handler A := fun w => (Ok a, w).

Definition raise {A} (e : exn) : handler A := fun w => (Raise e, w).

Definition and_then {A B} (m : handler A) (k : A -> handler B) : handler B :=
  fun w =>
    match m w with
    | (Ok a, w') => k a w'
    | (Raise e, w') => (Raise e, w')
    end.

(** A computation with no effect on the world. *)
Definition pure {A} (r : result A) : handler A := fun w => (r, w).

Declare Scope handler_scope.
Delimit Scope handler_scope with handler.

Notation "x <~ m ;; k" := (and_then m (fun x => k))
  (at level 61, m at next level, right associativity) : handler_scope.
Notation "m ;;; k" := (and_then m (fun _ => k))
  (at level 61, right associativity) : handler_scope.

Local Open Scope handler_scope.

(** The primary key the engine gives a new row: one more than the
    largest in the table (SQLite's rule for an integer primary key). *)
Definition next_id (ids : list Z) : Z := (1 + fold_right Z.max 0 ids)%Z.

(** [select(models.Transcript).where(id == i)] then [.first()]. *)
Definition find_transcript (i : Z) (s : Store) : option Transcript.t :=
  find (fun t => (Transcript.id t =? i)%Z) (transcripts s).

(** [select(models.Recipe).where(id == i)] then [.first()]. *)
Definition find_recipe (i : Z) (s : Store) : option Recipe.t :=
  find (fun r => (Recipe.id r =? i)%Z) (recipes s).

Definition select_transcript (i : Z) : handler (option Transcript.t) :=
  fun w => (Ok (find_transcript i (session w)), w).

Definition select_recipe (i : Z) : handler (option Recipe.t) :=
  fun w => (Ok (find_recipe i (session w)), w).

(** [select(models.Recipe)]: every row. *)
Definition select_recipes : handler (list Recipe.t) :=
  fun w => (Ok (recipes (session w)), w).

Definition on_session (f : Store -> Store) : handler unit :=
  fun w =>
    (Ok tt, {| durable := durable w; session := f (session w); llm_calls := llm_calls w |}).

(** Assigning attributes of the loaded transcript [i]: the session's
    row changes, the committed one does not. *)
Definition update_transcript (i : Z) (f : Transcript.t -> Transcript.t) : handler unit :=
  on_session (fun s =>
    {| transcripts :=
         map (fun t => if (Transcript.id t =? i)%Z then f t else t) (transcripts s);
       recipes := recipes s |}).

(** Assigning attributes of the loaded recipe [i]. *)
Definition update_recipe (i : Z) (f : Recipe.t -> Recipe.t) : handler unit :=
  on_session (fun s =>
    {| transcripts := transcripts s;
       recipes := map (fun r => if (Recipe.id r =? i)%Z then f r else r) (recipes s) |}).

(** [db.add(models.Transcript(...))]: the row joins the session under
    the key it will be stored with. *)
Definition add_transcript (full_text status : string) : handler Transcript.t :=
  fun w =>
    let s := session w in
    let t := Transcript.Build (next_id (map Transcript.id (transcripts s)))
               full_text status None in
    (Ok t, {| durable := durable w;
              session := {| transcripts := (transcripts s ++ [t])%list;
                            recipes := recipes s |};
              llm_calls := llm_calls w |}).

(** [db.add(models.Recipe(...))]. *)
Definition add_recipe (recipe_name provenance items chef_notes : value)
  : handler Recipe.t :=
  fun w =>
    let s := session w in
    let r := Recipe.Build (next_id (map Recipe.id (recipes s)))
               recipe_name provenance items chef_notes in
    (Ok r, {| durable := durable w;
              session := {| transcripts := transcripts s;
                            recipes := (recipes s ++ [r])%list |};
              llm_calls := llm_calls w |}).

(** [db.delete(recipe)]: the row goes, and every transcript that
    references it has its [recipe_id] set to NULL, as the foreign key of
    [models.py] declares. *)
Definition delete_row (i : Z) : handler unit :=
  on_session (fun s =>
    {| transcripts :=
         map (fun t =>
                match Transcript.recipe_id t with
                | Some j =>
                  if (j =? i)%Z
                  then Transcript.Build (Transcript.id t) (Transcript.full_text t)
                         (Transcript.status t) None
                  else t
                | None => t
                end)
             (transcripts s);
       recipes := filter (fun r => negb (Recipe.id r =? i)%Z) (recipes s) |}).

(** [db.commit()]: the session's rows become the committed ones, all
    together. Rows whose [String] columns hold text are written as they
    are; where a handler assigns values that need not be text, the flush
    of its commit is [flush_recipe], which comes first. *)
Definition commit : handler unit :=
  fun w =>
    (Ok tt, {| durable := session w; session := session w; llm_calls := llm_calls w |}).

(** A request: [get_db] opens a session on the committed store, the
    handler runs, and the session is closed; what was not committed is
    gone. The result, the committed store and the prompts sent. *)
Definition request {A} (h : handler A) (db : Store) : result A * Store * list string :=
  let '(r, w) := h {| durable := db; session := db; llm_calls := [] |} in
  (r, durable w, llm_calls w).

(** What a handler hands to its template. *)
Inductive response :=
| TranscriptEditor (transcript : Transcript.t)
| RecipeCard (template : string) (recipe : Recipe.t)
| CookbookList (rows : list Recipe.t)
| IngredientsPage (ingredients : totals)
| EmptyBody.

(** The status code the framework answers with: FastAPI's handler of
    [RequestValidationError] answers 422, any other exception that is no
    [HTTPException] is a 500. *)
Definition status_code_of {A} (r : result A) : Z :=
  match r with
  | Ok _ => 200
  | Raise (HTTPException code _) => code
  | Raise (Exn RequestValidationError) => 422
  | Raise (Exn _) => 500
  end.

(** The key of [ORDER BY recipe_name] for a name that is text. *)
Definition name_key (r : Recipe.t) : string :=
  match Recipe.recipe_name r with
  | VStr s => s
  | _ => ""
  end.

(** [select(models.Recipe).order_by(models.Recipe.recipe_name)]. *)
Definition select_cookbook : handler (list Recipe.t) :=
  fun w =>
    (Ok (map snd (sorted_items (map (fun r => (name_key r, r)) (recipes (session w))))), w).

(* ================================================================== *)
(** * main.py: the handlers *)
(* ================================================================== *)

(** [db.refresh(recipe)]: the attributes are read again from the
    committed row. *)
Definition refresh (r : Recipe.t) : handler Recipe.t :=
  fun w =>
    match find_recipe (Recipe.id r) (durable w) with
    | Some stored => (Ok stored, w)
    | None => (Raise (Exn InvalidRequestError), w)
    end.

(** Whether a text holds a lone surrogate (the bytes ED A0..BF of its
    three-byte form), which [json.loads] builds from an escape and which
    has no UTF-8 encoding. *)
Fixpoint has_surrogate (s : string) : bool :=
  match s with
  | String c (String d _ as r) =>
    ((ord c =? 237)%nat && in_range 160 191 d) || has_surrogate r
  | _ => false
  end.

Section Handlers.

(** The structuring service: the text it answers to a prompt, or [None]
    when the call fails. *)
Variable generate_content : string -> option string.

(** The text SQLite makes of a real number that is stored in a column of
    TEXT affinity, [5.5] giving [5.5] and [1e100] giving [1.0e+100]. *)
Variable real_text : float -> string.

(** What a [String] column of SQLite holds after a Python value was bound
    to it: [None] is NULL; text is stored as it is, and refused by the
    driver when it has no UTF-8 encoding; an [int] that fits 64 bits, a
    [bool] (an [int]) and a [float] are stored in their text form, by the
    TEXT affinity of the column, a nan as NULL; a wider [int] overflows;
    the driver binds no [list] and no [dict]. *)
Definition String_column (v : value) : result value :=
  match v with
  | VNone => Ok VNone
  | VStr s => if has_surrogate s then Raise (Exn UnicodeEncodeError) else Ok (VStr s)
  | VBool b => Ok (VStr (if b then "1" else "0"))
  | VInt n =>
    if ((- 2 ^ 63 <=? n) && (n <? 2 ^ 63))%Z then Ok (VStr (str_of_int n))
    else Raise (Exn OverflowError)
  | VFloat x => if PrimFloat.is_nan x then Ok VNone else Ok (VStr (real_text x))
  | VList _ | VDict _ => Raise (Exn DBAPIError)
  end.

(** The INSERT of a recipe: its parameters are bound in the order of the
    columns, then the row is checked against [nullable=False] of
    [recipe_name]. [items] and [chef_notes] are never [None] here. *)
Definition insert_recipe (r : Recipe.t) : result Recipe.t :=
  (name <- String_column (Recipe.recipe_name r) ;;
   provenance <- String_column (Recipe.provenance r) ;;
   match name with
   | VNone => Raise (Exn IntegrityError)
   | _ => Ok (Recipe.Build (Recipe.id r) name provenance
                (Recipe.items r) (Recipe.chef_notes r))
   end)%py.

(** The flush of the unit of work that holds the new recipe [r]: the row
    is inserted, or the flush raises. *)
Definition flush_recipe (r : Recipe.t) : handler unit :=
  fun w =>
    match insert_recipe r with
    | Ok stored =>
      (Ok tt,
       {| durable := durable w;
          session :=
            {| transcripts := transcripts (session w);
               recipes := map (fun x => if (Recipe.id x =? Recipe.id r)%Z then stored else x)
                            (recipes (session w)) |};
          llm_calls := llm_calls w |})
    | Raise e => (Raise e, w)
    end.

(** [call_llm_for_json]: the service's text, or [None] on any exception
    of the call. *)
Definition call_llm_for_json (prompt : string) : handler (option string) :=
  fun w =>
    (Ok (generate_content prompt),
     {| durable := durable w; session := session w;
        llm_calls := (llm_calls w ++ [prompt])%list |}).

(** POST /transcripts. [full_text] is text, which the [Text] column
    stores as it is, so the flush binds nothing that could be refused and
    [db.refresh] reads back the row as it was added. *)
Definition create_transcript_and_return_editor (full_text : string) : handler response :=
  new_transcript <~ add_transcript full_text "pending" ;;
  commit ;;;
  ret (TranscriptEditor new_transcript).

(** [bool(x)] for an optional text. *)
Definition truthy_opt (o : option string) : bool :=
  match o with
  | Some s => truthy_str s
  | None => false
  end.

(** [bool(x)] for the result of [parse_llm_json_output]. *)
Definition truthy_parsed (o : option value) : bool :=
  match o with
  | Some v => truthy v
  | None => false
  end.

(** POST /transcripts/{transcript_id}/generate-recipe. [hx_request]
    tells whether the request carries the [HX-Request] header. The
    values of the new recipe come from the parsed JSON, so the flush of
    [await db.commit()] is written out: [flush_recipe], then [commit]. *)
Definition generate_recipe_from_transcript (transcript_id : Z)
  (transcript_text : string) (hx_request : bool) : handler response :=
  transcript_obj <~ select_transcript transcript_id ;;
  match transcript_obj with
  | None => raise (HTTPException 404 "Transcript not found")
  | Some _ =>
    update_transcript transcript_id
      (fun t => Transcript.Build (Transcript.id t) transcript_text
                  (Transcript.status t) (Transcript.recipe_id t)) ;;;
    raw_ai_output <~ call_llm_for_json transcript_text ;;
    if negb (truthy_opt raw_ai_output)
    then raise (HTTPException 500 "AI service failed to respond.")
    else
      recipe_data <~ pure (parse_llm_json_output
                             match raw_ai_output with Some s => s | None => "" end) ;;
      if negb (truthy_parsed recipe_data)
      then raise (HTTPException 500 "AI returned an invalid recipe structure.")
      else
        let data := match recipe_data with Some v => v | None => VNone end in
        name <~ pure (get data "recipe_name") ;;
        prov <~ pure (get data "provenance") ;;
        its <~ pure (get data "items") ;;
        notes <~ pure (get data "chef_notes") ;;
        new_recipe <~ add_recipe (or_else name (VStr "Untitled Recipe"))
                        (or_else prov VNone)
                        (or_else its (VList []))
                        (or_else notes (VList [])) ;;
        update_transcript transcript_id
          (fun t => Transcript.Build (Transcript.id t) (Transcript.full_text t)
                      (Transcript.status t) (Some (Recipe.id new_recipe))) ;;;
        update_transcript transcript_id
          (fun t => Transcript.Build (Transcript.id t) (Transcript.full_text t)
                      "processed" (Transcript.recipe_id t)) ;;;
        flush_recipe new_recipe ;;;
        commit ;;;
        new_recipe <~ refresh new_recipe ;;
        ret (RecipeCard (if hx_request then "partials/recipe_card.html" else "index.html")
               new_recipe)
  end.

End Handlers.

(** [zip(item_quantity, item_unit, item_name)] filtered by [if name],
    each triple as a dict. *)
Fixpoint items_data (item_quantity item_unit item_name : list string) : list value :=
  match item_quantity, item_unit, item_name with
  | qty :: qs, unit :: us, name :: ns =>
    if truthy_str name
    then VDict [("quantity", VStr qty); ("unit", VStr unit); ("itemName", VStr name)]
         :: items_data qs us ns
    else items_data qs us ns
  | _, _, _ => []
  end.

(** [chef_note or []]. *)
Definition notes_or_empty (chef_note : option (list string)) : value :=
  match chef_note with
  | Some (n :: ns) => VList (map VStr (n :: ns))
  | _ => VList []
  end.

(** POST /recipes. *)
Definition create_recipe_from_form (recipe_name provenance : string)
  (item_quantity item_unit item_name : list string)
  (chef_note : option (list string)) : handler response :=
  add_recipe (VStr recipe_name) (VStr provenance)
    (VList (items_data item_quantity item_unit item_name))
    (notes_or_empty chef_note) ;;;
  commit ;;;
  rows <~ select_cookbook ;;
  ret (CookbookList rows).

(** GET /recipes/{recipe_id}. *)
Definition get_recipe_editor (recipe_id : Z) : handler response :=
  recipe <~ select_recipe recipe_id ;;
  match recipe with
  | None => raise (HTTPException 404 "Recipe not found")
  | Some r => ret (RecipeCard "partials/recipe_card.html" r)
  end.

(** PUT or POST /recipes/{recipe_id}. *)
Definition update_recipe_and_return_cookbook (recipe_id : Z)
  (recipe_name provenance : string)
  (item_quantity item_unit item_name : list string)
  (chef_note : option (list string)) : handler response :=
  db_recipe <~ select_recipe recipe_id ;;
  match db_recipe with
  | None => raise (HTTPException 404 "Recipe not found")
  | Some _ =>
    update_recipe recipe_id
      (fun r => Recipe.Build (Recipe.id r) (VStr recipe_name) (VStr provenance)
                  (VList (items_data item_quantity item_unit item_name))
                  (notes_or_empty chef_note)) ;;;
    commit ;;;
    rows <~ select_cookbook ;;
    ret (CookbookList rows)
  end.

(** DELETE /recipes/{recipe_id}. *)
Definition delete_recipe (recipe_id : Z) : handler response :=
  recipe_to_delete <~ select_recipe recipe_id ;;
  match recipe_to_delete with
  | None => raise (HTTPException 404 "Recipe not found")
  | Some _ =>
    delete_row recipe_id ;;;
    commit ;;;
    ret EmptyBody
  end.

(** ** What FastAPI refuses before a handler runs

    A parameter declared [Form(...)] is required, and a form value that is
    the empty text, or a list with no value, counts as missing: the
    request is answered with 422 and the body of the handler does not
    run. [provenance] and [chef_note] have defaults. *)

Definition required_text (s : string) : bool := truthy_str s.

Definition required_list (l : list string) : bool :=
  match l with
  | [] => false
  | _ :: _ => true
  end.

Definition validated (accepted : bool) (h : handler response) : handler response :=
  if accepted then h else raise (Exn RequestValidationError).

(** POST /transcripts/{transcript_id}/generate-recipe as it is served:
    [transcript_text: str = Form(...)]. *)
Definition post_generate_recipe (generate_content : string -> option string)
  (real_text : float -> string) (transcript_id : Z) (transcript_text : string)
  (hx_request : bool) : handler response :=
  validated (required_text transcript_text)
    (generate_recipe_from_transcript generate_content real_text transcript_id
       transcript_text hx_request).

(** Whether the form of a recipe is accepted: [recipe_name],
    [item_quantity], [item_unit] and [item_name] are [Form(...)]. *)
Definition recipe_form_accepted (recipe_name : string)
  (item_quantity item_unit item_name : list string) : bool :=
  required_text recipe_name && required_list item_quantity
  && required_list item_unit && required_list item_name.

(** POST /recipes as it is served. *)
Definition post_recipes (recipe_name provenance : string)
  (item_quantity item_unit item_name : list string)
  (chef_note : option (list string)) : handler response :=
  validated (recipe_form_accepted recipe_name item_quantity item_unit item_name)
    (create_recipe_from_form recipe_name provenance item_quantity item_unit item_name
       chef_note).

(** PUT or POST /recipes/{recipe_id} as it is served. *)
Definition put_recipe (recipe_id : Z) (recipe_name provenance : string)
  (item_quantity item_unit item_name : list string)
  (chef_note : option (list string)) : handler response :=
  validated (recipe_form_accepted recipe_name item_quantity item_unit item_name)
    (update_recipe_and_return_cookbook recipe_id recipe_name provenance
       item_quantity item_unit item_name chef_note).

(** GET /ingredients. *)
Definition serve_ingredients_page (repr : value -> string) : handler response :=
  all_recipes <~ select_recipes ;;
  sorted_ingredients <~ pure (aggregate_ingredients repr all_recipes) ;;
  ret (IngredientsPage sorted_ingredients).

(* ================================================================== *)
(** * What the requests leave behind *)
(* ================================================================== *)

(** The committed store after a request. *)
Definition db_after {A} (h : handler A) (db : Store) : Store := snd (fst (request h db)).

(** The result of a request. *)
Definition result_of {A} (h : handler A) (db : Store) : result A := fst (fst (request h db)).

(** The prompts a request sent to the structuring service. *)
Definition prompts_of {A} (h : handler A) (db : Store) : list string := snd (request h db).

(** The Recipe of step 6 of the generation workflow, from the parsed
    object [d], as the handler builds it: the key of a new row, and each
    field or its default. *)
Definition generated_recipe (db : Store) (d : list (string * value)) : Recipe.t :=
  Recipe.Build (next_id (map Recipe.id (recipes db)))
    (or_else (field "recipe_name" d) (VStr "Untitled Recipe"))
    (or_else (field "provenance" d) VNone)
    (or_else (field "items" d) (VList []))
    (or_else (field "chef_notes" d) (VList [])).

(** The Transcript of step 7: the corrected text, processed, linked. *)
Definition processed_transcript (t : Transcript.t) (text : string) (new : Recipe.t)
  : Transcript.t :=
  Transcript.Build (Transcript.id t) text "processed" (Some (Recipe.id new)).

(** The store with both writes of the generation workflow. *)
Definition store_after_generation (db : Store) (transcript_id : Z) (text : string)
  (new : Recipe.t) : Store :=
  {| transcripts :=
       map (fun t => if (Transcript.id t =? transcript_id)%Z
                     then processed_transcript t text new else t)
         (transcripts db);
     recipes := (recipes db ++ [new])%list |}.

(** The store after the deletion of recipe [i]. *)
Definition store_after_delete (db : Store) (i : Z) : Store :=
  {| transcripts :=
       map (fun t =>
              match Transcript.recipe_id t with
              | Some j =>
                if (j =? i)%Z
                then Transcript.Build (Transcript.id t) (Transcript.full_text t)
                       (Transcript.status t) None
                else t
              | None => t
              end)
         (transcripts db);
     recipes := filter (fun r => negb (Recipe.id r =? i)%Z) (recipes db) |}.

(** ** The invariants of the data model *)

(** An object with at least an [itemName]. *)
Definition item_has_name (item : value) : bool :=
  match item with
  | VDict d =>
    match assoc_get "itemName" d with
    | Some _ => true
    | None => false
    end
  | _ => false
  end.

(** A list, possibly empty, of objects with at least an [itemName]. *)
Definition items_valid (v : value) : bool :=
  match v with
  | VList l => forallb item_has_name l
  | _ => false
  end.

(** One of the two defined statuses. *)
Definition status_valid (s : string) : bool :=
  String.eqb s "pending" || String.eqb s "processed".

Definition statuses_valid (db : Store) : bool :=
  forallb (fun t => status_valid (Transcript.status t)) (transcripts db).

Definition recipes_valid (db : Store) : bool :=
  forallb (fun r => items_valid (Recipe.items r)) (recipes db).

(** The invariant of the data model on a store. *)
Definition store_valid (db : Store) : bool := recipes_valid db && statuses_valid db.

(** The number of characters of a text: its bytes that do not continue
    a UTF-8 sequence. *)
Fixpoint char_length (s : string) : nat :=
  match s with
  | "" => O
  | String c r => if in_range 128 191 c then char_length r else S (char_length r)
  end.

(** A name that is present: text of one character or more. *)
Definition name_present (r : Recipe.t) : bool :=
  match Recipe.recipe_name r with
  | VStr s => truthy_str s
  | _ => false
  end.

(** A name of 1 to 100 characters. *)
Definition name_bounded (r : Recipe.t) : bool :=
  match Recipe.recipe_name r with
  | VStr s => (1 <=? char_length s)%nat && (char_length s <=? 100)%nat
  | _ => false
  end.

Definition names_present (db : Store) : bool := forallb name_present (recipes db).

Definition names_bounded (db : Store) : bool := forallb name_bounded (recipes db).

(** ** Sample stores and services *)

Definition quoted (s : string) : string :=
  String Json.quote (s ++ String Json.quote "").

(** The object [{ "recipe_name": "Soup" }]. *)
Definition soup_json : string :=
  "{ " ++ quoted "recipe_name" ++ ": " ++ quoted "Soup" ++ " }".

(** One pending transcript and no recipe. *)
Definition one_transcript : Store :=
  {| transcripts := [Transcript.Build 1 "two eggs, beaten" "pending" None];
     recipes := [] |}.

(** A service that answers every prompt with [answer]. *)
Definition answering (answer : string) : string -> option string :=
  fun _ => Some answer.

(** A service whose every call fails. *)
Definition failing : string -> option string := fun _ => None.

(** A text form of real numbers for the examples, none of which stores
    a real number in a text column. *)
Definition sample_real_text : float -> string := fun _ => "0.0".

(** A recipe object whose items are plain text:
    [{"recipe_name": "Pancakes", "items": ["2 eggs"]}]. *)
Definition text_items_json : string :=
  "{" ++ quoted "recipe_name" ++ ": " ++ quoted "Pancakes" ++ ", "
      ++ quoted "items" ++ ": [" ++ quoted "2 eggs" ++ "]}".

(** An object whose name is a number: [{"recipe_name": 5}]. *)
Definition number_name_json : string :=
  "{" ++ quoted "recipe_name" ++ ": 5}".

(** An object whose name is a list: [{"recipe_name": ["Soup"]}]. *)
Definition list_name_json : string :=
  "{" ++ quoted "recipe_name" ++ ": [" ++ quoted "Soup" ++ "]}".

(** An object whose name holds a lone surrogate, written as an escape. *)
Definition surrogate_name_json : string :=
  "{" ++ quoted "recipe_name" ++ ": " ++ quoted (String Json.backslash "ud800") ++ "}".

(** A recipe and the transcript it was generated from. *)
Definition linked_store : Store :=
  {| transcripts := [Transcript.Build 1 "boil water" "processed" (Some 7%Z)];
     recipes := [recipe_with 7 "Tea" (VList [])] |}.

(** A name of 101 characters. *)
Definition long_name : string :=
  Eval cbv in
    let ten := "aaaaaaaaaa" in
    let fifty := ten ++ ten ++ ten ++ ten ++ ten in
    fifty ++ fifty ++ "a".

(** No transcript and no recipe. *)
Definition empty_store : Store := {| transcripts := []; recipes := [] |}.

(** ** The stores that requests build *)

(** One request to an endpoint that writes takes the committed store
    [db] to [db']. Each request to the generation workflow may meet
    another answer of the structuring service, any that [service] admits;
    the engine is the same throughout. *)
Inductive request_step (service : (string -> option string) -> Prop)
  (real_text : float -> string) (db : Store) : Store -> Prop :=
| step_create_transcript full_text :
    request_step service real_text db
      (db_after (create_transcript_and_return_editor full_text) db)
| step_generate_recipe generate_content transcript_id transcript_text hx_request :
    service generate_content ->
    request_step service real_text db
      (db_after (post_generate_recipe generate_content real_text transcript_id
                   transcript_text hx_request) db)
| step_create_recipe name prov qs us ns notes :
    request_step service real_text db (db_after (post_recipes name prov qs us ns notes) db)
| step_update_recipe rid name prov qs us ns notes :
    request_step service real_text db
      (db_after (put_recipe rid name prov qs us ns notes) db)
| step_delete_recipe rid :
    request_step service real_text db (db_after (delete_recipe rid) db).

(** The stores that requests build from the empty store. *)
Inductive reachable (service : (string -> option string) -> Prop)
  (real_text : float -> string) : Store -> Prop :=
| reachable_empty : reachable service real_text empty_store
| reachable_step db db' :
    reachable service real_text db -> request_step service real_text db db' ->
    reachable service real_text db'.

(** Any structuring service. *)
Definition any_service (generate_content : string -> option string) : Prop := True.

(** A structuring service whose every answer that parses to an object
    carries [items] that are a list of objects with an [itemName], or
    none. *)
Definition valid_items_service (generate_content : string -> option string) : Prop :=
  forall prompt raw d,
    generate_content prompt = Some raw ->
    parse_llm_json_output raw = Ok (Some (VDict d)) ->
    items_valid (or_else (field "items" d) (VList [])) = true.

(* ================================================================== *)
(** * Further handlers, and what the further properties speak of *)
(* ================================================================== *)

(** GET /cookbook: the rows ordered by name, for [cookbook.html]. *)
Definition serve_cookbook_page : handler response :=
  rows <~ select_cookbook ;;
  ret (CookbookList rows).

(** The request of the generation workflow in closed form: what it
    returns or raises, what it leaves committed and what it sent, by the
    row found, the answer of the service, the value parsed from it and
    what the columns make of its fields. *)
Definition generation_outcome (generate_content : string -> option string)
  (real_text : float -> string) (transcript_id : Z) (text : string) (hx_request : bool) (db : Store)
  : result response * Store * list string :=
  match find_transcript transcript_id db with
  | None => (Raise (HTTPException 404 "Transcript not found"), db, [])
  | Some _ =>
    if truthy_opt (generate_content text) then
      match parse_llm_json_output
              match generate_content text with Some raw => raw | None => "" end with
      | Raise e => (Raise e, db, [text])
      | Ok parsed =>
        if truthy_parsed parsed then
          match parsed with
          | Some (VDict d) =>
            match insert_recipe real_text (generated_recipe db d) with
            | Ok new =>
              (Ok (RecipeCard
                     (if hx_request then "partials/recipe_card.html" else "index.html")
                     new),
               store_after_generation db transcript_id text new,
               [text])
            | Raise e => (Raise e, db, [text])
            end
          | _ => (Raise (Exn AttributeError), db, [text])
          end
        else
          (Raise (HTTPException 500 "AI returned an invalid recipe structure."), db, [text])
      end
    else (Raise (HTTPException 500 "AI service failed to respond."), db, [text])
  end.

(** Every link of a transcript leads to a stored recipe. *)
Definition links_valid (db : Store) : bool :=
  forallb
    (fun t =>
       match Transcript.recipe_id t with
       | None => true
       | Some j => existsb (fun r => (Recipe.id r =? j)%Z) (recipes db)
       end)
    (transcripts db).

(** From [db] to [db'] no transcript row went away, none changed its
    key, and none that was processed is anything else. *)
Definition transcripts_kept (db db' : Store) : Prop :=
  (exists added,
      map Transcript.id (transcripts db') =
      (map Transcript.id (transcripts db) ++ added)%list) /\
  forall t, In t (transcripts db) -> Transcript.status t = "processed" ->
    exists t', In t' (transcripts db') /\
               Transcript.id t' = Transcript.id t /\
               Transcript.status t' = "processed".

(** The object of the form's row [i]: the quantity, the unit and the
    name at place [i] of the three lists. *)
Definition row_object (item_quantity item_unit item_name : list string) (i : nat)
  : value :=
  VDict [("quantity", VStr (nth i item_quantity ""));
         ("unit", VStr (nth i item_unit ""));
         ("itemName", VStr (nth i item_name ""))].

(** The rows of a form that are kept, in their order: those below the
    end of the shortest list whose name is not empty. *)
Definition kept_rows (item_quantity item_unit item_name : list string) : list nat :=
  filter (fun i => truthy_str (nth i item_name ""))
    (seq 0 (Nat.min (List.length item_quantity)
              (Nat.min (List.length item_unit) (List.length item_name)))).

(** Rows in the order of [ORDER BY recipe_name]. *)
Definition by_name (rows : list Recipe.t) : Prop :=
  StronglySorted (fun a b => String.ltb (name_key b) (name_key a) = false) rows.

(** Two recipes, the later with the smaller name, and a transcript
    linked to the first. *)
Definition two_recipes : Store :=
  {| transcripts := [Transcript.Build 1 "boil water" "processed" (Some 7%Z);
                     Transcript.Build 2 "knead the dough" "pending" None];
     recipes := [recipe_with 7 "Tea" (VList []);
                 recipe_with 8 "Bread"
                   (VList [line_item (VStr "Flour") (VStr "500") (VStr "g")])] |}.

(** The rows [select_cookbook] returns for the recipe table [l]. *)
Definition cookbook_rows (l : list Recipe.t) : list Recipe.t :=
  map snd (sorted_items (map (fun r => (name_key r, r)) l)).

(** A line item the aggregator cannot take: one that is no object, or an
    object whose unit is truthy and no text. *)
Definition breaks_aggregation (item : value) : Prop :=
  (forall d, item <> VDict d) \/
  (exists d, item = VDict d /\ truthy (field "unit" d) = true /\
             forall s, field "unit" d <> VStr s).

(** A recipe whose only item has the number 1 as its unit and no name. *)
Definition numeric_unit_recipe : Recipe.t :=
  recipe_with 3 "Stock" (VList [VDict [("unit", VInt 1)]]).

(** The recipe table holds text in every [recipe_name]. *)
Definition names_text (l : list Recipe.t) : bool :=
  forallb (fun r => match Recipe.recipe_name r with VStr _ => true | _ => false end) l.

(* ================================================================== *)
(** * The quantity parser *)
(* ================================================================== *)

Example parse_quantity_two : parse_quantity "2" = Ok (Some 2%float).
Proof. reflexivity. Qed.
Example parse_quantity_half : parse_quantity "1/2" = Ok (Some 0.5%float).
Proof. reflexivity. Qed.
Example parse_quantity_one_and_half : parse_quantity "1.5" = Ok (Some 1.5%float).
Proof. reflexivity. Qed.
Example parse_quantity_abc : parse_quantity "abc" = Ok None.
Proof. reflexivity. Qed.
Example parse_quantity_zero_den : parse_quantity "1/0" = Ok None.
Proof. reflexivity. Qed.
Example parse_quantity_empty : parse_quantity "" = Ok None.
Proof. reflexivity. Qed.
Example parse_quantity_misc :
  parse_quantity " 1_000 " = Ok (Some 1000%float) /\
  parse_quantity "1e3" = Ok (Some 1000%float) /\
  parse_quantity ".5" = Ok (Some 0.5%float) /\
  parse_quantity "5." = Ok (Some 5%float) /\
  parse_quantity "1/2/3" = Ok None /\
  parse_quantity "1_/2" = Ok None /\
  parse_quantity "-1/4" = Ok (Some (-0.25)%float) /\
  parse_quantity "inf" = Ok (Some infinity) /\
  parse_quantity "1e" = Ok None /\
  parse_quantity "0.1" = Ok (Some 0x1.999999999999ap-4%float) /\
  parse_quantity "1/3" = Ok (Some (1 / 3)%float) /\
  parse_quantity "1/-0.0" = Ok None /\
  parse_quantity "Infinity" = Ok (Some infinity) /\
  parse_quantity "1 / 2" = Ok (Some 0.5%float).
Proof. repeat split; vm_compute; reflexivity. Qed.

(** ** Facts about the builtins *)

Lemma contains_char_count c s :
  contains_char c s = negb (count_char c s =? 0)%nat.
Proof.
  induction s as [|d r IH]; simpl; [reflexivity|].
  destruct (Ascii.eqb d c); simpl; [reflexivity | exact IH].
Qed.

Lemma split_length c s : List.length (split c s) = S (count_char c s).
Proof.
  induction s as [|d r IH]; simpl; [reflexivity|].
  destruct (Ascii.eqb d c); simpl; [now rewrite IH|].
  destruct (split c r) as [|h t] eqn:E; simpl in *; [discriminate | exact IH].
Qed.

Lemma split_no_sep c s : count_char c s = O -> split c s = [s].
Proof.
  induction s as [|d r IH]; simpl; [reflexivity|].
  destruct (Ascii.eqb d c); [discriminate|].
  intros H. now rewrite (IH H).
Qed.

Lemma after_count c s :
  count_char c s = 1%nat -> count_char c (after c s) = O.
Proof.
  induction s as [|d r IH]; simpl; [discriminate|].
  destruct (Ascii.eqb d c); [now intros [= ->] | exact IH].
Qed.

Lemma split_one_sep c s :
  count_char c s = 1%nat -> split c s = [before c s; after c s].
Proof.
  induction s as [|d r IH]; simpl; [discriminate|].
  destruct (Ascii.eqb d c) eqn:E.
  - intros [= H]. now rewrite (split_no_sep _ _ H).
  - intros H. now rewrite (IH H).
Qed.

Lemma float_of_str_raises s e : float_of_str s = Raise e -> e = Exn ValueError.
Proof.
  unfold float_of_str.
  destruct (drop_underscores None s); [|now intros [= <-]].
  destruct (match strtod _ with Some r => Some r | None => _ end) as [[x [|c r]]|];
    first [discriminate | now intros [= <-]].
Qed.

Lemma truediv_raises a b e : truediv a b = Raise e -> e = Exn ZeroDivisionError.
Proof.
  unfold truediv. destruct (PrimFloat.eqb b 0); [now intros [= <-] | discriminate].
Qed.

Lemma unpack2_raises A (l : list A) e : unpack2 l = Raise e -> e = Exn ValueError.
Proof.
  destruct l as [|a [|b [|c l]]]; simpl; first [discriminate | now intros [= <-]].
Qed.

(** Whatever the fraction branch raises is a [ValueError] or a
    [ZeroDivisionError]. *)
Lemma fraction_of_raises s e :
  fraction_of s = Raise e -> e = Exn ValueError \/ e = Exn ZeroDivisionError.
Proof.
  unfold fraction_of.
  destruct (unpack2 (split "/" s)) as [[num den]|e0] eqn:U; simpl.
  2:{ intros [= <-]. left. eapply unpack2_raises; eauto. }
  destruct (float_of_str num) as [a|e1] eqn:Fa; simpl.
  2:{ intros [= <-]. left. eapply float_of_str_raises; eauto. }
  destruct (float_of_str den) as [b|e2] eqn:Fb; simpl.
  2:{ intros [= <-]. left. eapply float_of_str_raises; eauto. }
  destruct (truediv a b) as [q|e3] eqn:D; simpl; [discriminate|].
  intros [= <-]. right. eapply truediv_raises; eauto.
Qed.

Lemma fraction_of_guarded s :
  try_except (fraction_of s) [ValueError; ZeroDivisionError] (Ok None)
  = Ok match fraction_of s with Ok r => r | Raise _ => None end.
Proof.
  destruct (fraction_of s) as [r|e] eqn:F; simpl; [reflexivity|].
  destruct (fraction_of_raises _ _ F) as [-> | ->]; reflexivity.
Qed.

(** The code computes its closed form. *)
Lemma parse_quantity_refines s : parse_quantity s = Ok (parse_quantity_rules s).
Proof.
  unfold parse_quantity, parse_quantity_rules.
  unfold truthy_str.
  destruct (String.eqb_spec s "") as [-> | _]; [reflexivity|].
  cbn [negb].
  destruct (float_of_str s) as [v|e] eqn:F; [reflexivity|].
  rewrite (float_of_str_raises _ _ F).
  cbn [bind try_except class_of existsb issubclass orb].
  rewrite fraction_of_guarded, contains_char_count.
  destruct (count_char "/" s) as [|[|n]] eqn:C; cbn [Nat.eqb negb]; [reflexivity| |].
  - unfold fraction_of. rewrite (split_one_sep _ _ C). cbn [unpack2 bind].
    destruct (float_of_str (before "/" s)) as [x|]; cbn [bind]; [|reflexivity].
    destruct (float_of_str (after "/" s)) as [y|]; cbn [bind]; [|reflexivity].
    unfold truediv. destruct (PrimFloat.eqb y 0); reflexivity.
  - unfold fraction_of.
    pose proof (split_length "/" s) as L. rewrite C in L.
    destruct (split "/" s) as [|a [|b [|d l]]]; simpl in L; try discriminate.
    reflexivity.
Qed.

(** ** Decimal numbers under [float()] *)

Lemma append_empty_r s : s ++ "" = s.
Proof. induction s as [|c r IH]; [reflexivity|]. cbn [append]. now rewrite IH. Qed.

Lemma append_associative a b c : (a ++ b) ++ c = a ++ (b ++ c).
Proof. induction a as [|x r IH]; [reflexivity|]. cbn [append]. now rewrite IH. Qed.

Lemma digits_value_from_number s : forall acc,
  digits_value_from acc s = (acc * 10 ^ Z.of_nat (String.length s) + digits_number s)%Z.
Proof.
  induction s as [|c r IH]; intros acc.
  - simpl. lia.
  - cbn [digits_value_from digits_number String.length]. rewrite IH.
    rewrite Nat2Z.inj_succ, Z.pow_succ_r by lia. ring.
Qed.

Lemma digits_value_number s : digits_value s = digits_number s.
Proof. unfold digits_value. rewrite digits_value_from_number. lia. Qed.

Lemma only_digits_all s : only_digits s = true -> all_chars isdigit s = true /\ s <> "".
Proof.
  induction s as [|c r IH]; [discriminate|].
  destruct r as [|d r'].
  - cbn. intros ->. now split.
  - change (only_digits (String c (String d r')))
      with (isdigit c && only_digits (String d r')).
    intros H. apply andb_prop in H. destruct H as [Hc Hr].
    destruct (IH Hr) as [A _]. split; [|discriminate].
    change (all_chars isdigit (String c (String d r')))
      with (isdigit c && all_chars isdigit (String d r')).
    now rewrite Hc, A.
Qed.

Lemma isdigit_plain c : isdigit c = true -> plain_char c = true.
Proof. unfold plain_char. now intros ->. Qed.

Lemma all_chars_impl (p q : ascii -> bool) s :
  (forall c, p c = true -> q c = true) -> all_chars p s = true -> all_chars q s = true.
Proof.
  intros I. induction s as [|c r IH]; [reflexivity|].
  cbn [all_chars]. intros H. apply andb_prop in H. destruct H as [Hc Hr].
  now rewrite (I _ Hc), IH.
Qed.

Lemma all_chars_app p a b :
  all_chars p (a ++ b) = all_chars p a && all_chars p b.
Proof.
  induction a as [|c r IH]; [reflexivity|].
  cbn [append all_chars]. now rewrite IH, andb_assoc.
Qed.

Lemma span_digits_app ds t :
  all_chars isdigit ds = true -> stops t = true ->
  span_digits (ds ++ t) = (ds, t).
Proof.
  intros D S. induction ds as [|c r IH].
  - destruct t as [|c t']; [reflexivity|].
    cbn in S. apply Ascii.eqb_eq in S. subst c. reflexivity.
  - cbn [all_chars] in D. apply andb_prop in D. destruct D as [Dc Dr].
    cbn [append span_digits]. rewrite Dc, (IH Dr). reflexivity.
Qed.

Lemma span_digits_point ds t :
  all_chars isdigit ds = true ->
  span_digits (ds ++ String "." t) = (ds, String "." t).
Proof.
  intros D. induction ds as [|c r IH]; [reflexivity|].
  cbn [all_chars] in D. apply andb_prop in D. destruct D as [Dc Dr].
  cbn [append span_digits]. rewrite Dc, (IH Dr). reflexivity.
Qed.

Lemma before_after c s :
  count_char c s = 1%nat -> s = before c s ++ String c (after c s).
Proof.
  induction s as [|d r IH]; [discriminate|].
  cbn [count_char before after]. destruct (Ascii.eqb_spec d c) as [-> | _].
  - reflexivity.
  - intros H. cbn [append]. now rewrite <- (IH H).
Qed.

(** The sign of a decimal number is read as [float()] reads it. *)
Lemma read_decimal_sign s :
  read_decimal s =
  let '(negative, body) := take_sign s in
  match count_char "." body with
  | O => if only_digits body then Some (negative, digits_number body, O) else None
  | S O =>
    if only_digits (before "." body) && only_digits (after "." body)
    then Some (negative, digits_number (before "." body ++ after "." body),
               String.length (after "." body))
    else None
  | _ => None
  end.
Proof.
  destruct s as [|c r]; [reflexivity|].
  destruct c as [[] [] [] [] [] [] [] []]; reflexivity.
Qed.

Lemma take_sign_app c r t :
  take_sign (String c r ++ t) = (fst (take_sign (String c r)), snd (take_sign (String c r)) ++ t).
Proof. destruct c as [[] [] [] [] [] [] [] []]; reflexivity. Qed.

Lemma take_sign_plain s :
  all_chars plain_char s = true -> all_chars plain_char (snd (take_sign s)) = true.
Proof.
  destruct s as [|c r]; [reflexivity|].
  cbn [all_chars]. intros H. apply andb_prop in H. destruct H as [Hc Hr].
  destruct c as [[] [] [] [] [] [] [] []]; cbn [take_sign snd all_chars];
    first [exact Hr | now rewrite Hc, Hr].
Qed.

(** A decimal number is read by [strtod] up to its end, with its value. *)
Lemma strtod_decimal a t negative n k :
  read_decimal a = Some (negative, n, k) -> stops t = true ->
  strtod (a ++ t) = Some (decimal_to_float negative n (- Z.of_nat k), t).
Proof.
  rewrite read_decimal_sign. intros R S.
  destruct a as [|c r]; [discriminate R|].
  unfold strtod. rewrite take_sign_app.
  destruct (take_sign (String c r)) as [neg body]. cbn [fst snd].
  destruct (count_char "." body) as [|[|m]] eqn:C; [| |discriminate R].
  - destruct (only_digits body) eqn:D; [|discriminate R].
    injection R as <- <- <-.
    destruct (only_digits_all _ D) as [A N].
    rewrite (span_digits_app _ _ A S).
    assert (E : match t with String "." r0 => span_digits r0 | _ => ("", t) end = ("", t)).
    { destruct t as [|d t']; [reflexivity|]. cbn in S. apply Ascii.eqb_eq in S.
      subst d. reflexivity. }
    rewrite E.
    destruct (String.eqb_spec body "") as [-> | _]; [now destruct N|].
    cbn [andb].
    assert (X : take_exponent t = (0%Z, t)).
    { destruct t as [|d t']; [reflexivity|]. cbn in S. apply Ascii.eqb_eq in S.
      subst d. reflexivity. }
    rewrite X. rewrite append_empty_r, digits_value_number. reflexivity.
  - destruct (only_digits (before "." body)) eqn:D1; [|discriminate R].
    destruct (only_digits (after "." body)) eqn:D2; [|discriminate R].
    cbn [andb] in R. injection R as <- <- <-.
    destruct (only_digits_all _ D1) as [A1 N1].
    destruct (only_digits_all _ D2) as [A2 N2].
    rewrite (before_after _ _ C) at 1.
    rewrite append_associative. cbn [append].
    rewrite (span_digits_point _ _ A1).
    rewrite (span_digits_app _ _ A2 S).
    destruct (String.eqb_spec (before "." body) "") as [E | _]; [now destruct N1|].
    cbn [andb].
    assert (X : take_exponent t = (0%Z, t)).
    { destruct t as [|d t']; [reflexivity|]. cbn in S. apply Ascii.eqb_eq in S.
      subst d. reflexivity. }
    rewrite X, digits_value_number. reflexivity.
Qed.

Lemma plain_char_not_space c : plain_char c = true -> float_space c = false.
Proof. destruct c as [[] [] [] [] [] [] [] []]; first [discriminate | reflexivity]. Qed.

Lemma plain_char_not_underscore c : plain_char c = true -> Ascii.eqb c "_" = false.
Proof. destruct c as [[] [] [] [] [] [] [] []]; first [discriminate | reflexivity]. Qed.

Lemma drop_underscores_plain s : forall prev,
  match prev with Some p => Ascii.eqb p "_" = false | None => True end ->
  all_chars plain_char s = true ->
  drop_underscores prev s = Some s.
Proof.
  induction s as [|c r IH]; intros prev P A.
  - destruct prev as [p|]; [|reflexivity].
    destruct p as [[] [] [] [] [] [] [] []]; first [discriminate P | reflexivity].
  - cbn [all_chars] in A. apply andb_prop in A. destruct A as [Ac Ar].
    pose proof (plain_char_not_underscore _ Ac) as U.
    cbn [drop_underscores]. rewrite U.
    assert (R : drop_underscores (Some c) r = Some r) by (apply IH; assumption).
    destruct prev as [p|]; [|now rewrite R].
    destruct p as [[] [] [] [] [] [] [] []]; first [discriminate P | now rewrite R].
Qed.

Lemma rstrip_by_kept sp s :
  all_chars (fun c => negb (sp c)) s = true -> rstrip_by sp s = s.
Proof.
  induction s as [|c r IH]; [reflexivity|].
  cbn [all_chars]. intros H. apply andb_prop in H. destruct H as [Hc Hr].
  cbn [rstrip_by]. rewrite (IH Hr).
  destruct r; [|reflexivity].
  apply negb_true_iff in Hc. now rewrite Hc.
Qed.

Lemma float_strip_plain s : all_chars plain_char s = true -> float_strip s = s.
Proof.
  intros A. unfold float_strip.
  assert (L : lstrip_by float_space s = s).
  { destruct s as [|c r]; [reflexivity|].
    cbn [all_chars] in A. apply andb_prop in A. destruct A as [Ac _].
    cbn [lstrip_by]. now rewrite (plain_char_not_space _ Ac). }
  rewrite L. apply rstrip_by_kept.
  eapply all_chars_impl; [|exact A].
  intros c Pc. now rewrite (plain_char_not_space _ Pc).
Qed.

Lemma take_sign_cases s :
  s = snd (take_sign s) \/ s = String "-" (snd (take_sign s))
  \/ s = String "+" (snd (take_sign s)).
Proof.
  destruct s as [|c r]; [now left|].
  destruct c as [[] [] [] [] [] [] [] []]; cbn; tauto.
Qed.

(** A decimal number is made of digits, a sign and a point. *)
Lemma read_decimal_plain a d :
  read_decimal a = Some d -> all_chars plain_char a = true.
Proof.
  rewrite read_decimal_sign. intros R.
  assert (B : all_chars plain_char (snd (take_sign a)) = true).
  { destruct (take_sign a) as [neg body]. cbn [snd].
    destruct (count_char "." body) as [|[|m]] eqn:C; [| |discriminate R].
    - destruct (only_digits body) eqn:D; [|discriminate R].
      eapply all_chars_impl; [exact isdigit_plain|]. now apply only_digits_all.
    - destruct (only_digits (before "." body)) eqn:D1; [|discriminate R].
      destruct (only_digits (after "." body)) eqn:D2; [|discriminate R].
      rewrite (before_after _ _ C), all_chars_app. cbn [all_chars].
      rewrite (all_chars_impl _ _ _ isdigit_plain (proj1 (only_digits_all _ D1))).
      rewrite (all_chars_impl _ _ _ isdigit_plain (proj1 (only_digits_all _ D2))).
      reflexivity. }
  destruct (take_sign_cases a) as [E | [E | E]]; rewrite E; cbn [all_chars];
    now rewrite ?B.
Qed.

(** [float()] reads every decimal number, with its value. *)
Lemma float_of_str_decimal a v : decimal_value a = Some v -> float_of_str a = Ok v.
Proof.
  unfold decimal_value.
  destruct (read_decimal a) as [[[negative n] k]|] eqn:R; [|discriminate].
  intros [= <-]. pose proof (read_decimal_plain _ _ R) as A.
  unfold float_of_str.
  rewrite (drop_underscores_plain _ None I A), (float_strip_plain _ A).
  pose proof (strtod_decimal a "" _ _ _ R eq_refl) as S.
  rewrite append_empty_r in S. now rewrite S.
Qed.

(** [float()] reads no text in which a slash follows a decimal number. *)
Lemma float_of_str_slash a b v :
  decimal_value a = Some v -> all_chars plain_char b = true ->
  float_of_str (a ++ String "/" b) = Raise (Exn ValueError).
Proof.
  unfold decimal_value.
  destruct (read_decimal a) as [[[negative n] k]|] eqn:R; [|discriminate].
  intros _ B. pose proof (read_decimal_plain _ _ R) as A.
  assert (P : all_chars plain_char (a ++ String "/" b) = true).
  { rewrite all_chars_app, A. cbn [all_chars]. now rewrite B. }
  unfold float_of_str.
  rewrite (drop_underscores_plain _ None I P), (float_strip_plain _ P).
  now rewrite (strtod_decimal a (String "/" b) _ _ _ R eq_refl).
Qed.

Lemma decimal_value_plain a v : decimal_value a = Some v -> all_chars plain_char a = true.
Proof.
  unfold decimal_value.
  destruct (read_decimal a) as [d|] eqn:R; [|discriminate].
  intros _. eapply read_decimal_plain; eauto.
Qed.

(** What the rules of the specification give, the parser returns. *)
Lemma quantity_rules_kept s v :
  quantity_rules s = Some v -> parse_quantity s = Ok (Some v).
Proof.
  unfold quantity_rules. rewrite parse_quantity_refines. unfold parse_quantity_rules.
  destruct (decimal_value s) as [v0|] eqn:D.
  - intros [= <-]. now rewrite (float_of_str_decimal _ _ D).
  - destruct (count_char "/" s =? 1)%nat eqn:C; [|discriminate].
    apply Nat.eqb_eq in C.
    destruct (decimal_value (before "/" s)) as [x|] eqn:X; [|discriminate].
    destruct (decimal_value (after "/" s)) as [y|] eqn:Y; [|discriminate].
    intros H.
    assert (F : float_of_str s = Raise (Exn ValueError)).
    { rewrite (before_after _ _ C) at 1.
      apply (float_of_str_slash _ _ x X). eapply decimal_value_plain; eauto. }
    rewrite F.
    rewrite (float_of_str_decimal _ _ X), (float_of_str_decimal _ _ Y).
    now rewrite H.
Qed.

Lemma whole_number_value n :
  (0 <= n < 2 ^ 63)%Z ->
  decimal_to_float false n 0 = PrimFloat.of_uint63 (Uint63.of_Z n).
Proof.
  intros N. unfold decimal_to_float.
  rewrite <- (FloatAxioms.SF2Prim_Prim2SF (PrimFloat.of_uint63 (Uint63.of_Z n))).
  f_equal. rewrite FloatAxioms.of_uint63_spec, Uint63.of_Z_spec.
  rewrite Z.mod_small by (change Uint63.wB with (2 ^ 63)%Z; lia).
  destruct n as [|p|p]; [reflexivity| |lia].
  unfold decimal_to_spec, binary_normalize. cbn [Z.leb Z.compare Z.pow Z.pow_pos Pos.iter Z.to_pos].
  now rewrite Pos.mul_1_r.
Qed.

Lemma digit_not_sign c r : isdigit c = true -> take_sign (String c r) = (false, String c r).
Proof. destruct c as [[] [] [] [] [] [] [] []]; first [discriminate | reflexivity]. Qed.

Lemma digits_no_point s : all_chars isdigit s = true -> count_char "." s = O.
Proof.
  induction s as [|c r IH]; [reflexivity|].
  cbn [all_chars count_char]. intros H. apply andb_prop in H. destruct H as [Hc Hr].
  rewrite (IH Hr).
  destruct c as [[] [] [] [] [] [] [] []]; first [discriminate Hc | reflexivity].
Qed.

Lemma digits_number_nonneg s : all_chars isdigit s = true -> (0 <= digits_number s)%Z.
Proof.
  induction s as [|c r IH]; [simpl; lia|].
  cbn [all_chars digits_number]. intros H. apply andb_prop in H. destruct H as [Hc Hr].
  specialize (IH Hr).
  assert (0 <= digit_value c)%Z.
  { unfold isdigit, in_range in Hc. apply andb_prop in Hc. destruct Hc as [L _].
    apply Nat.leb_le in L. unfold digit_value. lia. }
  assert (0 <= 10 ^ Z.of_nat (String.length r))%Z by (apply Z.pow_nonneg; lia).
  nia.
Qed.

(** Digits that denote a number below 2^63 have the value of that
    integer converted to binary64. *)
Lemma whole_number_rule s :
  only_digits s = true -> (digits_number s < 2 ^ 63)%Z ->
  quantity_rules s = Some (PrimFloat.of_uint63 (Uint63.of_Z (digits_number s))).
Proof.
  intros D B. destruct (only_digits_all _ D) as [A N].
  unfold quantity_rules, decimal_value. rewrite read_decimal_sign.
  destruct s as [|c r]; [now destruct N|].
  assert (Hc : isdigit c = true).
  { cbn [all_chars] in A. now apply andb_prop in A. }
  rewrite (digit_not_sign _ _ Hc), (digits_no_point _ A), D.
  change (- Z.of_nat 0)%Z with 0%Z.
  rewrite whole_number_value; [reflexivity|].
  split; [now apply digits_number_nonneg | exact B].
Qed.

(** C2. For every string, [parse_quantity] returns what the rules give
    with Python's [float()] as the reader of numbers: the value [float()]
    reads; otherwise, with exactly one slash and both sides read by
    [float()], the second not zero, their quotient; otherwise [None]. What
    the rules of the specification give on decimal numbers (an optional
    sign, digits, optionally a point and digits, valued at the nearest
    binary64) and on fractions of two of them, the parser returns; digits
    that denote a number below 2^63 give that integer as a float. "2" gives
    2.0, "1/2" gives 0.5, "1.5" gives 1.5, and "abc", "1/0" and the empty
    string give [None], by the rules and by the parser. *)
Theorem parse_quantity_follows_rules :
  (forall s v, quantity_rules s = Some v -> parse_quantity s = Ok (Some v)) /\
  (forall s, parse_quantity s = Ok (parse_quantity_rules s)) /\
  (forall s, only_digits s = true -> (digits_number s < 2 ^ 63)%Z ->
     parse_quantity s = Ok (Some (PrimFloat.of_uint63 (Uint63.of_Z (digits_number s))))) /\
  (quantity_rules "2" = Some 2%float /\ parse_quantity "2" = Ok (Some 2%float)) /\
  (quantity_rules "1/2" = Some 0.5%float /\ parse_quantity "1/2" = Ok (Some 0.5%float)) /\
  (quantity_rules "1.5" = Some 1.5%float /\ parse_quantity "1.5" = Ok (Some 1.5%float)) /\
  (quantity_rules "-2" = Some (-2)%float /\ parse_quantity "-2" = Ok (Some (-2)%float)) /\
  (quantity_rules "abc" = None /\ parse_quantity "abc" = Ok None) /\
  (quantity_rules "1/0" = None /\ parse_quantity "1/0" = Ok None) /\
  (quantity_rules "" = None /\ parse_quantity "" = Ok None).
Proof.
  split; [exact quantity_rules_kept|].
  split; [exact parse_quantity_refines|].
  split.
  - intros s D B. apply quantity_rules_kept. now apply whole_number_rule.
  - repeat split; vm_compute; reflexivity.
Qed.

(** C2 as stated fails: the parser reads more than decimal numbers.
    "inf", "nan", "1e3" and " 2 " are no decimal numbers and no fractions,
    and "1/inf" is no fraction of decimal numbers, so the rules call all of
    them unparseable; the parser returns infinity, a nan, 1000.0, 2.0 and
    0.0. *)
Lemma parse_quantity_counterexample :
  (quantity_rules "inf" = None /\ parse_quantity "inf" = Ok (Some infinity)) /\
  (quantity_rules "nan" = None /\ parse_quantity "nan" = Ok (Some nan)) /\
  (quantity_rules "1e3" = None /\ parse_quantity "1e3" = Ok (Some 1000%float)) /\
  (quantity_rules " 2 " = None /\ parse_quantity " 2 " = Ok (Some 2%float)) /\
  (quantity_rules "1/inf" = None /\ parse_quantity "1/inf" = Ok (Some 0%float)).
Proof. repeat split; vm_compute; reflexivity. Qed.

(** C10. [parse_quantity] is total: on every string it returns a float or
    [None] and raises nothing; more than one slash, a zero denominator and
    text that is no number give [None]; whatever the division of the
    fraction branch raises is one of the two classes its handler names. *)
Theorem parse_quantity_total (s : string) :
  (exists r, parse_quantity s = Ok r) /\
  match fraction_of s with
  | Ok _ => True
  | Raise e =>
    existsb (issubclass (class_of e)) [ValueError; ZeroDivisionError] = true
  end /\
  parse_quantity "1/2/3" = Ok None /\
  parse_quantity "1/0" = Ok None /\
  parse_quantity "two cups" = Ok None.
Proof.
  split; [|split; [|repeat split; reflexivity]].
  - unfold parse_quantity.
    destruct (negb (truthy_str s)); [now eexists|].
    destruct (float_of_str s) as [v|e] eqn:F; simpl; [now eexists|].
    rewrite (float_of_str_raises _ _ F). simpl.
    destruct (contains_char "/" s); [|now eexists].
    rewrite fraction_of_guarded. now eexists.
  - destruct (fraction_of s) as [r|e] eqn:F; [exact I|].
    destruct (fraction_of_raises _ _ F) as [-> | ->]; reflexivity.
Qed.

(* ================================================================== *)
(** * Insertion-ordered mappings and [sorted] *)
(* ================================================================== *)

Section Assoc.

Context {B : Type}.
Implicit Types (d : list (string * B)) (k : string) (v : B).

Lemma assoc_get_set_same k v d : assoc_get k (assoc_set k v d) = Some v.
Proof.
  induction d as [|[k' v'] r IH]; simpl.
  - now rewrite String.eqb_refl.
  - destruct (String.eqb k' k) eqn:E; simpl; rewrite E; [reflexivity | exact IH].
Qed.

Lemma assoc_get_set_other k k0 v d :
  k <> k0 -> assoc_get k0 (assoc_set k v d) = assoc_get k0 d.
Proof.
  intros N. induction d as [|[k' v'] r IH]; simpl.
  - destruct (String.eqb_spec k k0); [contradiction | reflexivity].
  - destruct (String.eqb_spec k' k) as [-> | _]; simpl.
    + destruct (String.eqb_spec k k0); [contradiction | reflexivity].
    + now rewrite IH.
Qed.

Lemma assoc_get_In k v d : assoc_get k d = Some v -> In (k, v) d.
Proof.
  induction d as [|[k' v'] r IH]; simpl; [discriminate|].
  destruct (String.eqb_spec k' k) as [-> | _].
  - intros [= ->]. now left.
  - intros H. right. now apply IH.
Qed.

Lemma assoc_get_None k d : assoc_get k d = None -> ~ In k (map fst d).
Proof.
  induction d as [|[k' v'] r IH]; simpl; [tauto|].
  destruct (String.eqb_spec k' k) as [-> | N]; [discriminate|].
  intros H [E | I]; [contradiction | now apply IH].
Qed.

Lemma In_assoc_get k v d : NoDup (map fst d) -> In (k, v) d -> assoc_get k d = Some v.
Proof.
  induction d as [|[k' v'] r IH]; simpl; [tauto|].
  intros ND [E | I].
  - injection E as -> ->. now rewrite String.eqb_refl.
  - inversion ND as [|? ? NI ND']; subst.
    destruct (String.eqb_spec k' k) as [-> | _]; [|now apply IH].
    exfalso. apply NI. now apply (in_map fst) in I.
Qed.

Lemma assoc_set_In x k v d : In x (assoc_set k v d) -> x = (k, v) \/ In x d.
Proof.
  induction d as [|[k' v'] r IH]; simpl.
  - intros [<- | []]. now left.
  - destruct (String.eqb_spec k' k) as [-> | _]; simpl.
    + intros [<- | I]; [now left | now right; right].
    + intros [<- | I]; [now right; left|].
      destruct (IH I); [now left | now right; right].
Qed.

Lemma assoc_set_keys k v d :
  map fst (assoc_set k v d) =
  match assoc_get k d with
  | Some _ => map fst d
  | None => (map fst d ++ [k])%list
  end.
Proof.
  induction d as [|[k' v'] r IH]; simpl; [reflexivity|].
  destruct (String.eqb_spec k' k) as [-> | _]; simpl; [reflexivity|].
  rewrite IH. now destruct (assoc_get k r).
Qed.

Lemma assoc_set_NoDup k v d : NoDup (map fst d) -> NoDup (map fst (assoc_set k v d)).
Proof.
  intros ND. rewrite assoc_set_keys.
  destruct (assoc_get k d) eqn:E; [exact ND|].
  apply assoc_get_None in E.
  apply (Permutation_NoDup (l := k :: map fst d)).
  - apply Permutation_cons_append.
  - now constructor.
Qed.

Lemma assoc_set_not_nil k v d : assoc_set k v d <> [].
Proof.
  destruct d as [|[k' v'] r]; simpl; [discriminate|].
  destruct (String.eqb k' k); discriminate.
Qed.

Lemma assoc_get_perm k d d' :
  NoDup (map fst d) -> Permutation d d' -> assoc_get k d' = assoc_get k d.
Proof.
  intros ND P.
  assert (ND' : NoDup (map fst d'))
    by (eapply Permutation_NoDup; [apply Permutation_map, P | exact ND]).
  destruct (assoc_get k d) as [v|] eqn:E.
  - apply In_assoc_get; [exact ND'|].
    eapply Permutation_in; [exact P | now apply assoc_get_In].
  - destruct (assoc_get k d') as [v'|] eqn:E'; [|reflexivity].
    apply assoc_get_In in E'.
    apply (Permutation_in _ (Permutation_sym P)) in E'.
    apply (In_assoc_get _ _ _ ND) in E'. congruence.
Qed.

End Assoc.

(** ** The order of [str] *)

Lemma ascii_compare_refl c : Ascii.compare c c = Eq.
Proof. unfold Ascii.compare. apply N.compare_refl. Qed.

Lemma ascii_compare_lt_trans a b c :
  Ascii.compare a b = Lt -> Ascii.compare b c = Lt -> Ascii.compare a c = Lt.
Proof.
  unfold Ascii.compare. rewrite !N.compare_lt_iff. apply N.lt_trans.
Qed.

Lemma string_compare_lt_trans a :
  forall b c, String.compare a b = Lt -> String.compare b c = Lt ->
              String.compare a c = Lt.
Proof.
  induction a as [|x a IH]; intros [|y b] [|z c]; simpl; try easy.
  destruct (Ascii.compare x y) eqn:Exy; destruct (Ascii.compare y z) eqn:Eyz;
    try easy.
  - apply Ascii.compare_eq_iff in Exy, Eyz. subst.
    rewrite ascii_compare_refl. apply IH.
  - apply Ascii.compare_eq_iff in Exy. subst. now rewrite Eyz.
  - apply Ascii.compare_eq_iff in Eyz. subst. now rewrite Exy.
  - now rewrite (ascii_compare_lt_trans _ _ _ Exy Eyz).
Qed.

Lemma ltb_trans a b c :
  String.ltb a b = true -> String.ltb b c = true -> String.ltb a c = true.
Proof.
  unfold String.ltb. intros H1 H2.
  destruct (String.compare a b) eqn:E1; try discriminate.
  destruct (String.compare b c) eqn:E2; try discriminate.
  now rewrite (string_compare_lt_trans _ _ _ E1 E2).
Qed.

Lemma ltb_asym a b : String.ltb a b = true -> String.ltb b a = false.
Proof.
  unfold String.ltb. rewrite (String.compare_antisym a b).
  now destruct (String.compare b a).
Qed.

Lemma not_ltb_cases a b : String.ltb a b = false -> a = b \/ String.ltb b a = true.
Proof.
  unfold String.ltb. rewrite (String.compare_antisym b a).
  destruct (String.compare a b) eqn:E; simpl; intros H; try discriminate.
  - left. now apply String.compare_eq_iff.
  - now right.
Qed.

Lemma key_le_trans B (a b c : string * B) : key_le a b -> key_le b c -> key_le a c.
Proof.
  unfold key_le. intros H1 H2.
  destruct (String.ltb (fst c) (fst a)) eqn:E; [|reflexivity].
  destruct (not_ltb_cases _ _ H1) as [Eq | L].
  - rewrite <- Eq in E. congruence.
  - rewrite (ltb_trans _ _ _ E L) in H2. discriminate.
Qed.

Section Sorting.

Context {B : Type}.
Implicit Types (l : list (string * B)) (x : string * B).

Lemma insert_by_key_perm x l : Permutation (insert_by_key x l) (x :: l).
Proof.
  induction l as [|y r IH]; simpl; [reflexivity|].
  destruct (String.ltb (fst x) (fst y)); [reflexivity|].
  rewrite IH. apply perm_swap.
Qed.

Lemma sorted_items_perm l : Permutation (sorted_items l) l.
Proof.
  unfold sorted_items.
  enough (G : forall acc, Permutation (fold_left (fun a x => insert_by_key x a) l acc)
                                      (acc ++ l)%list) by apply (G []).
  induction l as [|y r IH]; intros acc; simpl.
  - now rewrite app_nil_r.
  - rewrite IH, insert_by_key_perm.
    change (y :: acc ++ r)%list with ((y :: acc) ++ r)%list.
    now rewrite (Permutation_middle acc r y).
Qed.

Lemma insert_by_key_sorted x l :
  StronglySorted key_le l -> StronglySorted key_le (insert_by_key x l).
Proof.
  induction l as [|y r IH]; simpl; intros SS.
  - repeat constructor.
  - inversion SS as [|? ? SS' F]; subst.
    destruct (String.ltb (fst x) (fst y)) eqn:E.
    + constructor; [exact SS|].
      assert (Lxy : key_le x y) by (now apply ltb_asym).
      constructor; [exact Lxy|].
      eapply Forall_impl; [|exact F].
      intros z Lyz. exact (key_le_trans _ _ _ _ Lxy Lyz).
    + constructor; [now apply IH|].
      eapply Permutation_Forall; [symmetry; apply insert_by_key_perm|].
      constructor; [exact E | exact F].
Qed.

Lemma sorted_items_sorted l : StronglySorted key_le (sorted_items l).
Proof.
  unfold sorted_items.
  enough (G : forall acc, StronglySorted key_le acc ->
            StronglySorted key_le (fold_left (fun a x => insert_by_key x a) l acc))
    by (apply G; constructor).
  induction l as [|y r IH]; intros acc SS; simpl; [exact SS|].
  apply IH. now apply insert_by_key_sorted.
Qed.

Lemma sorted_distinct_ascending l :
  NoDup (map fst l) -> StronglySorted key_le l ->
  StronglySorted (fun a b => String.ltb (fst a) (fst b) = true) l.
Proof.
  induction l as [|y r IH]; simpl; intros ND SS; [constructor|].
  inversion ND as [|? ? NI ND']; subst.
  inversion SS as [|? ? SS' F]; subst.
  constructor; [now apply IH|].
  rewrite Forall_forall in *. intros z Iz.
  destruct (not_ltb_cases _ _ (F z Iz)) as [Eq | L]; [|exact L].
  exfalso. apply NI. rewrite <- Eq. now apply in_map.
Qed.

End Sorting.

(* ================================================================== *)
(** * The ingredient aggregator *)
(* ================================================================== *)

Lemma totals_ok_nil : totals_ok [].
Proof. split; [constructor | intros n d []]. Qed.

Lemma add_quantity_ok n u q m : totals_ok m -> totals_ok (add_quantity n u q m).
Proof.
  intros [ND IN]. unfold add_quantity. split.
  - now apply assoc_set_NoDup.
  - intros n' d' I. apply assoc_set_In in I. destruct I as [E | I]; [|exact (IN _ _ I)].
    injection E as -> ->. split; [apply assoc_set_not_nil|].
    apply assoc_set_NoDup.
    destruct (assoc_get n m) as [d|] eqn:G; [|constructor].
    apply assoc_get_In in G. now destruct (IN _ _ G).
Qed.

Lemma lookup_add_quantity n u n' u' q m :
  lookup n u (add_quantity n' u' q m) =
  if String.eqb n' n && String.eqb u' u
  then Some (or_zero (lookup n u m) + q)%float
  else lookup n u m.
Proof.
  unfold lookup, add_quantity.
  destruct (String.eqb_spec n' n) as [-> | Nn]; simpl.
  - rewrite assoc_get_set_same.
    destruct (String.eqb_spec u' u) as [-> | Nu].
    + rewrite assoc_get_set_same. now destruct (assoc_get n m).
    + rewrite assoc_get_set_other by exact Nu. now destruct (assoc_get n m).
  - now rewrite assoc_get_set_other by exact Nn.
Qed.

Lemma accumulate_cons o q qs :
  accumulate (Some (or_zero o + q)%float) qs = accumulate o (q :: qs).
Proof. now destruct qs. Qed.

Section AggregatorFacts.

Variable repr : value -> string.

Lemma or_else_text v s :
  text_or_falsy v = true -> exists u, or_else v (VStr s) = VStr u.
Proof.
  unfold or_else. destruct v as [|b|n|x|s0|l|d]; simpl; intros H.
  - eauto.
  - destruct b; [discriminate | eauto].
  - destruct (negb (n =? 0)%Z); [discriminate | eauto].
  - destruct (negb (PrimFloat.eqb x 0)); [discriminate | eauto].
  - destruct (truthy_str s0); eauto.
  - destruct l; [eauto | discriminate].
  - destruct d; [eauto | discriminate].
Qed.

Lemma truthy_text v : text_or_falsy v = true -> truthy v = true -> exists s, v = VStr s.
Proof.
  destruct v as [|b|n|x|s|l|d]; simpl; intros H T;
    try (rewrite T in H; discriminate); try discriminate;
    try (destruct l; discriminate); try (destruct d; discriminate); eauto.
Qed.

Lemma aggregate_item_shaped item agg :
  item_shaped item = true -> aggregate_item repr item agg = Ok (step repr agg item).
Proof.
  destruct item as [| | | | |l|d]; simpl; try discriminate.
  intros H. apply andb_true_iff in H. destruct H as [Hn Hu].
  unfold aggregate_item, step, contribution, get. cbn [bind].
  fold (field "itemName" d) (field "quantity" d) (field "unit" d).
  destruct (or_else_text _ "count" Hu) as [u Eu]. rewrite Eu. cbn [strip_method bind].
  destruct (truthy (field "itemName" d)) eqn:Tn; cbn [andb]; [|reflexivity].
  destruct (truthy (field "quantity" d)) eqn:Tq; [|reflexivity].
  destruct (truthy_text _ Hn Tn) as [n En]. rewrite En.
  rewrite parse_quantity_refines. cbn [bind].
  now destruct (parse_quantity_rules _).
Qed.

Lemma for_each_items its : forall agg,
  forallb item_shaped its = true ->
  for_each (aggregate_item repr) its agg = Ok (fold_left (step repr) its agg).
Proof.
  induction its as [|it r IH]; intros agg H; simpl; [reflexivity|].
  simpl in H. apply andb_true_iff in H. destruct H as [Hi Hr].
  rewrite (aggregate_item_shaped _ _ Hi). simpl. now apply IH.
Qed.

Lemma for_each_recipes rs : forall agg,
  recipes_shaped rs = true ->
  for_each (aggregate_recipe repr) rs agg = Ok (fold_left (step repr) (line_items rs) agg).
Proof.
  induction rs as [|r rs IH]; intros agg H; simpl; [reflexivity|].
  simpl in H. apply andb_true_iff in H. destruct H as [Hr Hrs].
  unfold aggregate_recipe at 1.
  destruct (Recipe.items r) as [| | | | |l|d] eqn:E; simpl in Hr; try discriminate.
  cbn [iterate bind]. rewrite (for_each_items _ _ Hr). cbn [bind].
  rewrite fold_left_app. now apply IH.
Qed.

Lemma fold_step_ok its : forall m, totals_ok m -> totals_ok (fold_left (step repr) its m).
Proof.
  induction its as [|it r IH]; intros m H; simpl; [exact H|].
  apply IH. unfold step. destruct (contribution repr it) as [[[n u] q]|]; [|exact H].
  now apply add_quantity_ok.
Qed.

Lemma lookup_fold_step n u its : forall m,
  lookup n u (fold_left (step repr) its m) = accumulate (lookup n u m) (matching repr n u its).
Proof.
  induction its as [|it r IH]; intros m; simpl; [reflexivity|].
  rewrite IH. unfold step.
  destruct (contribution repr it) as [[[n' u'] q]|]; [|reflexivity].
  rewrite lookup_add_quantity.
  destruct (String.eqb n' n && String.eqb u' u); [|reflexivity].
  apply accumulate_cons.
Qed.

Lemma lookup_sorted n u m :
  NoDup (map fst m) -> lookup n u (sorted_items m) = lookup n u m.
Proof.
  intros ND. unfold lookup.
  now rewrite (assoc_get_perm n _ _ ND (Permutation_sym (sorted_items_perm m))).
Qed.

(** The aggregation on well-shaped recipes. *)
Lemma aggregate_ingredients_shaped rs :
  recipes_shaped rs = true ->
  exists m,
    aggregate_ingredients repr rs = Ok m /\
    ascending m /\
    (forall n d, In (n, d) m -> d <> [] /\ NoDup (map fst d)) /\
    (forall n u, lookup n u m = total_of (matching repr n u (line_items rs))).
Proof.
  intros H. unfold aggregate_ingredients.
  rewrite (for_each_recipes _ _ H). cbn [bind].
  set (m := fold_left (step repr) (line_items rs) []).
  assert (OK : totals_ok m) by (apply fold_step_ok, totals_ok_nil).
  destruct OK as [ND IN].
  exists (sorted_items m). split; [reflexivity|]. split; [|split].
  - apply sorted_distinct_ascending; [|apply sorted_items_sorted].
    eapply Permutation_NoDup; [|exact ND].
    apply Permutation_map, Permutation_sym, sorted_items_perm.
  - intros n d I. apply (IN n).
    eapply Permutation_in; [apply sorted_items_perm | exact I].
  - intros n u. rewrite (lookup_sorted _ _ _ ND). unfold m.
    rewrite lookup_fold_step. unfold lookup. simpl.
    now destruct (matching repr n u (line_items rs)).
Qed.

End AggregatorFacts.

(** C1, as amended. For every set of stored recipes whose items are lists
    of objects with a name and a unit that are text or falsy, the
    aggregation returns a mapping, without raising, in which: the names are
    in ascending order; every bucket is non-empty with distinct units; and
    the total under a normalized name and unit is the sum, by additions from
    0.0 in the order of the line items, of the parsed quantities of the
    items with that name and unit. An item counts when its name and its
    quantity are not falsy (missing, null, empty, zero) and its quantity
    parses; name and unit are trimmed and lowercased; a missing or empty
    unit is "count". "Flour" 1 cup and "flour" 2 cup give flour: cup 3.0. *)
Theorem aggregate_ingredients_spec (repr : value -> string) (rs : list Recipe.t) :
  (recipes_shaped rs = true ->
   exists m,
     aggregate_ingredients repr rs = Ok m /\
     ascending m /\
     (forall n d, In (n, d) m -> d <> [] /\ NoDup (map fst d)) /\
     (forall n u, lookup n u m = total_of (matching repr n u (line_items rs)))) /\
  aggregate_ingredients repr flour_recipes = Ok [("flour", [("cup", 3%float)])] /\
  aggregate_ingredients repr pantry_recipes =
    Ok [("butter", [("tbsp", 0.5%float)]); ("egg", [("count", 2%float)])].
Proof.
  split; [apply aggregate_ingredients_shaped|].
  split; reflexivity.
Qed.

(** The amended C1 at the two flour recipes. *)
Lemma aggregate_ingredients_spec_witness :
  exists m,
    aggregate_ingredients repr_unused flour_recipes = Ok m /\
    ascending m /\
    (forall n d, In (n, d) m -> d <> [] /\ NoDup (map fst d)) /\
    (forall n u,
        lookup n u m = total_of (matching repr_unused n u (line_items flour_recipes))).
Proof.
  apply (proj1 (aggregate_ingredients_spec repr_unused flour_recipes)).
  reflexivity.
Defined.

(** C1 as stated fails twice. A stored recipe whose items are plain text
    makes the aggregation raise instead of producing a mapping. And an item
    with a name and the quantity 0, which is present and parses to 0.0, is
    left out of the totals. *)
Lemma aggregate_ingredients_counterexample :
  aggregate_ingredients repr_unused [text_items_recipe] = Raise (Exn AttributeError) /\
  aggregate_ingredients repr_unused [zero_quantity_recipe] = Ok [] /\
  parse_quantity (str repr_unused (VInt 0)) = Ok (Some 0%float).
Proof. repeat split; reflexivity. Qed.

(** Neither failure depends on [repr]. *)
Lemma aggregate_ingredients_any_repr (repr : value -> string) :
  aggregate_ingredients repr [text_items_recipe] = Raise (Exn AttributeError) /\
  aggregate_ingredients repr [zero_quantity_recipe] = Ok [].
Proof. split; reflexivity. Qed.

(* ================================================================== *)
(** * The handlers, request by request *)
(* ================================================================== *)

(** POST /transcripts appends one pending transcript. *)
Lemma create_transcript_request full_text db :
  request (create_transcript_and_return_editor full_text) db =
  let t := Transcript.Build (next_id (map Transcript.id (transcripts db)))
             full_text "pending" None in
  (Ok (TranscriptEditor t),
   {| transcripts := (transcripts db ++ [t])%list; recipes := recipes db |},
   []).
Proof. reflexivity. Qed.

(** POST /recipes appends one recipe. *)
Lemma create_recipe_request name prov qs us ns notes db :
  exists rows,
    request (create_recipe_from_form name prov qs us ns notes) db =
    (Ok (CookbookList rows),
     {| transcripts := transcripts db;
        recipes := (recipes db ++
                      [Recipe.Build (next_id (map Recipe.id (recipes db)))
                         (VStr name) (VStr prov) (VList (items_data qs us ns))
                         (notes_or_empty notes)])%list |},
     []).
Proof. eexists. reflexivity. Qed.

(** PUT /recipes/{id} rewrites the fields of the row. *)
Lemma update_recipe_request rid name prov qs us ns notes db :
  match find_recipe rid db with
  | None =>
    request (update_recipe_and_return_cookbook rid name prov qs us ns notes) db =
    (Raise (HTTPException 404 "Recipe not found"), db, [])
  | Some _ =>
    exists rows,
      request (update_recipe_and_return_cookbook rid name prov qs us ns notes) db =
      (Ok (CookbookList rows),
       {| transcripts := transcripts db;
          recipes :=
            map (fun r => if (Recipe.id r =? rid)%Z
                          then Recipe.Build (Recipe.id r) (VStr name) (VStr prov)
                                 (VList (items_data qs us ns)) (notes_or_empty notes)
                          else r)
              (recipes db) |},
       [])
  end.
Proof.
  unfold request, update_recipe_and_return_cookbook, and_then, select_recipe.
  cbn [session]. destruct (find_recipe rid db); [eexists|]; reflexivity.
Qed.

(** DELETE /recipes/{id}. *)
Lemma delete_recipe_request rid db :
  request (delete_recipe rid) db =
  match find_recipe rid db with
  | None => (Raise (HTTPException 404 "Recipe not found"), db, [])
  | Some _ => (Ok EmptyBody, store_after_delete db rid, [])
  end.
Proof.
  unfold request, delete_recipe, and_then, select_recipe.
  cbn [session]. now destruct (find_recipe rid db).
Qed.

(** ** Keys and lookups *)

Lemma max_id_bound (ids : list Z) x : In x ids -> (x <= fold_right Z.max 0 ids)%Z.
Proof.
  induction ids as [|y r IH]; simpl; [tauto|].
  intros [-> | I]; [lia|]. specialize (IH I). lia.
Qed.

(** The key of a new row is not in the table. *)
Lemma next_id_fresh (ids : list Z) : ~ In (next_id ids) ids.
Proof.
  intros I. apply max_id_bound in I. unfold next_id in I. lia.
Qed.

Lemma find_transcript_none tid db :
  (forall t, In t (transcripts db) -> Transcript.id t <> tid) ->
  find_transcript tid db = None.
Proof.
  unfold find_transcript. induction (transcripts db) as [|x r IH]; simpl; [reflexivity|].
  intros H. destruct (Z.eqb_spec (Transcript.id x) tid) as [E | _].
  - destruct (H x (or_introl eq_refl) E).
  - apply IH. intros t I. apply H. now right.
Qed.

Lemma find_transcript_updated tid f l :
  (forall t, Transcript.id (f t) = Transcript.id t) ->
  find (fun t => (Transcript.id t =? tid)%Z)
    (map (fun t => if (Transcript.id t =? tid)%Z then f t else t) l) =
  option_map f (find (fun t => (Transcript.id t =? tid)%Z) l).
Proof.
  intros Hf. induction l as [|x r IH]; simpl; [reflexivity|].
  destruct (Transcript.id x =? tid)%Z eqn:E.
  - now rewrite Hf, E.
  - now rewrite E.
Qed.

Lemma find_transcript_after_generation db tid text new t :
  find_transcript tid db = Some t ->
  find_transcript tid (store_after_generation db tid text new) =
  Some (processed_transcript t text new).
Proof.
  intros F. unfold find_transcript, store_after_generation. cbn [transcripts].
  rewrite find_transcript_updated by reflexivity.
  unfold find_transcript in F. now rewrite F.
Qed.

(** The row added last under a new key is the one its key finds. *)
Lemma find_added (l : list Recipe.t) (new : Recipe.t) :
  ~ In (Recipe.id new) (map Recipe.id l) ->
  find (fun r => (Recipe.id r =? Recipe.id new)%Z) (l ++ [new]) = Some new.
Proof.
  induction l as [|x r IH]; simpl; intros N.
  - now rewrite Z.eqb_refl.
  - destruct (Z.eqb_spec (Recipe.id x) (Recipe.id new)) as [Ex | _].
    + exfalso. apply N. now left.
    + apply IH. intros I. apply N. now right.
Qed.

Lemma filter_added (l : list Recipe.t) (new : Recipe.t) :
  ~ In (Recipe.id new) (map Recipe.id l) ->
  filter (fun r => negb (Recipe.id r =? Recipe.id new)%Z) (l ++ [new]) = l.
Proof.
  intros N. rewrite filter_app. simpl. rewrite Z.eqb_refl. simpl. rewrite app_nil_r.
  induction l as [|x r IH]; simpl; [reflexivity|].
  destruct (Z.eqb_spec (Recipe.id x) (Recipe.id new)) as [Ex | _]; simpl.
  - exfalso. apply N. now left.
  - f_equal. apply IH. intros I. apply N. now right.
Qed.

(** The flush of a row added last under a new key changes that row
    only. *)
Lemma flush_added (l : list Recipe.t) (r stored : Recipe.t) :
  ~ In (Recipe.id r) (map Recipe.id l) ->
  map (fun x => if (Recipe.id x =? Recipe.id r)%Z then stored else x) (l ++ [r])
  = (l ++ [stored])%list.
Proof.
  intros N. rewrite map_app. cbn [map]. rewrite Z.eqb_refl. f_equal.
  induction l as [|x l' IH]; [reflexivity|].
  cbn [map]. destruct (Z.eqb_spec (Recipe.id x) (Recipe.id r)) as [Ex | _].
  - exfalso. apply N. now left.
  - f_equal. apply IH. intros I. apply N. now right.
Qed.

(** ** What the columns make of a recipe *)

Section ColumnFacts.

Variable real_text : float -> string.

(** A row that was inserted keeps its key and its JSON columns; its
    [String] columns hold what [String_column] makes of the values, and
    the name is not NULL. *)
Lemma insert_recipe_stored r stored :
  insert_recipe real_text r = Ok stored ->
  Recipe.id stored = Recipe.id r /\
  Recipe.items stored = Recipe.items r /\
  Recipe.chef_notes stored = Recipe.chef_notes r /\
  String_column real_text (Recipe.recipe_name r) = Ok (Recipe.recipe_name stored) /\
  String_column real_text (Recipe.provenance r) = Ok (Recipe.provenance stored) /\
  Recipe.recipe_name stored <> VNone.
Proof.
  unfold insert_recipe.
  destruct (String_column real_text (Recipe.recipe_name r)) as [name|e]; [|discriminate].
  destruct (String_column real_text (Recipe.provenance r)) as [prov|e]; [|discriminate].
  cbn [bind].
  destruct name; first [discriminate | intros [= <-]; repeat split; discriminate].
Qed.

(** What a [String] column holds is text or NULL. *)
Lemma String_column_text v stored :
  String_column real_text v = Ok stored -> stored = VNone \/ exists s, stored = VStr s.
Proof.
  destruct v as [|b|n|x|s|l|d]; cbn [String_column].
  - intros [= <-]. now left.
  - intros [= <-]. right. eauto.
  - destruct (_ && _)%bool; [|discriminate]. intros [= <-]. right. eauto.
  - destruct (PrimFloat.is_nan x); intros [= <-]; [now left | right; eauto].
  - destruct (has_surrogate s); [discriminate|]. intros [= <-]. right. eauto.
  - discriminate.
  - discriminate.
Qed.

(** Whatever the flush of a recipe raises is no [HTTPException] and no
    refusal of the request: it is answered with a 500. *)
Lemma String_column_raises v e :
  String_column real_text v = Raise e ->
  e = Exn UnicodeEncodeError \/ e = Exn OverflowError \/ e = Exn DBAPIError.
Proof.
  destruct v as [|b|n|x|s|l|d]; cbn [String_column]; try discriminate.
  - destruct (_ && _)%bool; [discriminate|]. intros [= <-]. tauto.
  - destruct (PrimFloat.is_nan x); discriminate.
  - destruct (has_surrogate s); [|discriminate]. intros [= <-]. tauto.
  - intros [= <-]. tauto.
  - intros [= <-]. tauto.
Qed.

Lemma insert_recipe_raises r e :
  insert_recipe real_text r = Raise e ->
  exists c, e = Exn c /\ c <> RequestValidationError.
Proof.
  unfold insert_recipe.
  destruct (String_column real_text (Recipe.recipe_name r)) as [name|e1] eqn:N.
  - destruct (String_column real_text (Recipe.provenance r)) as [prov|e2] eqn:P.
    + cbn [bind]. destruct name; first [discriminate | intros [= <-]].
      eexists. split; [reflexivity | discriminate].
    + cbn [bind]. intros [= <-].
      destruct (String_column_raises _ _ P) as [-> | [-> | ->]];
        eexists; (split; [reflexivity | discriminate]).
  - cbn [bind]. intros [= <-].
    destruct (String_column_raises _ _ N) as [-> | [-> | ->]];
      eexists; (split; [reflexivity | discriminate]).
Qed.

End ColumnFacts.

(** Unfolds a request of the generation workflow down to its steps. *)
Ltac unfold_generate :=
  unfold request, generate_recipe_from_transcript, and_then, select_transcript,
    call_llm_for_json, update_transcript, on_session, pure, add_recipe, ret, raise;
  cbn [session].

Section GenerationFacts.

Variable generate_content : string -> option string.
Variable real_text : float -> string.

Local Abbreviation generate := (generate_recipe_from_transcript generate_content real_text).

Lemma generate_not_found tid text hx db :
  find_transcript tid db = None ->
  request (generate tid text hx) db =
  (Raise (HTTPException 404 "Transcript not found"), db, []).
Proof.
  intros F. unfold_generate. now rewrite F.
Qed.

Lemma generate_service_failed tid text hx db t :
  find_transcript tid db = Some t ->
  truthy_opt (generate_content text) = false ->
  request (generate tid text hx) db =
  (Raise (HTTPException 500 "AI service failed to respond."), db, [text]).
Proof.
  intros F T.
  unfold_generate. rewrite F. cbn [session durable llm_calls]. now rewrite T.
Qed.

Lemma generate_parse_raised tid text hx db t raw e :
  find_transcript tid db = Some t ->
  generate_content text = Some raw -> truthy_str raw = true ->
  parse_llm_json_output raw = Raise e ->
  request (generate tid text hx) db = (Raise e, db, [text]).
Proof.
  intros F G T P.
  unfold_generate. rewrite F. cbn [session durable llm_calls]. rewrite G.
  cbn [truthy_opt]. rewrite T. cbn [negb]. now rewrite P.
Qed.

Lemma generate_invalid_structure tid text hx db t raw parsed :
  find_transcript tid db = Some t ->
  generate_content text = Some raw -> truthy_str raw = true ->
  parse_llm_json_output raw = Ok parsed -> truthy_parsed parsed = false ->
  request (generate tid text hx) db =
  (Raise (HTTPException 500 "AI returned an invalid recipe structure."), db, [text]).
Proof.
  intros F G T P TP.
  unfold_generate. rewrite F. cbn [session durable llm_calls]. rewrite G.
  cbn [truthy_opt]. rewrite T. cbn [negb]. rewrite P. now rewrite TP.
Qed.

Lemma generate_not_an_object tid text hx db t raw v :
  find_transcript tid db = Some t ->
  generate_content text = Some raw -> truthy_str raw = true ->
  parse_llm_json_output raw = Ok (Some v) -> truthy v = true ->
  (forall d, v <> VDict d) ->
  request (generate tid text hx) db = (Raise (Exn AttributeError), db, [text]).
Proof.
  intros F G T P TV ND.
  unfold_generate. rewrite F. cbn [session durable llm_calls]. rewrite G.
  cbn [truthy_opt]. rewrite T. cbn [negb]. rewrite P. cbn [truthy_parsed].
  rewrite TV. cbn [negb].
  destruct v as [|b|n|x|s|l|d]; try reflexivity.
  now destruct (ND d).
Qed.

(** The flush of the new recipe raises: nothing is committed. *)
Lemma generate_flush_raised tid text hx db t raw d e :
  find_transcript tid db = Some t ->
  generate_content text = Some raw -> truthy_str raw = true ->
  parse_llm_json_output raw = Ok (Some (VDict d)) -> truthy (VDict d) = true ->
  insert_recipe real_text (generated_recipe db d) = Raise e ->
  request (generate tid text hx) db = (Raise e, db, [text]).
Proof.
  intros F G T P TV I.
  unfold_generate. rewrite F. cbn [session durable llm_calls]. rewrite G.
  cbn [truthy_opt]. rewrite T. cbn [negb]. rewrite P. cbn [truthy_parsed].
  rewrite TV. cbn [negb get session durable llm_calls transcripts recipes app].
  unfold flush_recipe. fold (field "recipe_name" d) (field "provenance" d)
    (field "items" d) (field "chef_notes" d).
  fold (generated_recipe db d). now rewrite I.
Qed.

Lemma generate_success tid text hx db t raw d new :
  find_transcript tid db = Some t ->
  generate_content text = Some raw -> truthy_str raw = true ->
  parse_llm_json_output raw = Ok (Some (VDict d)) -> truthy (VDict d) = true ->
  insert_recipe real_text (generated_recipe db d) = Ok new ->
  request (generate tid text hx) db =
  (Ok (RecipeCard (if hx then "partials/recipe_card.html" else "index.html") new),
   store_after_generation db tid text new,
   [text]).
Proof.
  intros F G T P TV I.
  destruct (insert_recipe_stored _ _ _ I) as (Eid & _).
  assert (Fresh : ~ In (Recipe.id (generated_recipe db d)) (map Recipe.id (recipes db)))
    by apply next_id_fresh.
  unfold_generate. rewrite F. cbn [session durable llm_calls]. rewrite G.
  cbn [truthy_opt]. rewrite T. cbn [negb]. rewrite P. cbn [truthy_parsed].
  rewrite TV. cbn [negb get session durable llm_calls transcripts recipes app].
  unfold flush_recipe. fold (field "recipe_name" d) (field "provenance" d)
    (field "items" d) (field "chef_notes" d).
  fold (generated_recipe db d). rewrite I.
  cbn [session durable llm_calls transcripts recipes].
  rewrite (flush_added _ _ new Fresh).
  unfold commit, refresh. cbn [session durable llm_calls transcripts recipes].
  unfold find_recipe. cbn [recipes].
  assert (Fnew : ~ In (Recipe.id new) (map Recipe.id (recipes db))) by (now rewrite Eid).
  rewrite <- Eid, (find_added _ _ Fnew).
  cbn [session durable llm_calls transcripts recipes].
  unfold store_after_generation.
  f_equal. f_equal. f_equal.
  rewrite !map_map. apply map_ext. intros x.
  unfold processed_transcript. rewrite Eid.
  cbn [Transcript.id]. destruct (Transcript.id x =? tid)%Z eqn:E; cbn [Transcript.id].
  - rewrite E. cbn [Transcript.id]. rewrite E. reflexivity.
  - rewrite E. now rewrite E.
Qed.

(** Every run of the generation workflow ends in one of two ways: it
    raises and the committed store is the one it started from, or it
    returns the new recipe as the columns hold it and the committed store
    has both writes. *)
Lemma generate_cases tid text hx db :
  (exists e, result_of (generate tid text hx) db = Raise e /\
             db_after (generate tid text hx) db = db) \/
  (exists t raw d new,
      find_transcript tid db = Some t /\
      generate_content text = Some raw /\
      parse_llm_json_output raw = Ok (Some (VDict d)) /\
      d <> [] /\
      insert_recipe real_text (generated_recipe db d) = Ok new /\
      request (generate tid text hx) db =
      (Ok (RecipeCard (if hx then "partials/recipe_card.html" else "index.html") new),
       store_after_generation db tid text new,
       [text])).
Proof.
  unfold result_of, db_after.
  destruct (find_transcript tid db) as [t|] eqn:F.
  2:{ left. rewrite (generate_not_found _ _ _ _ F). simpl. eauto. }
  destruct (truthy_opt (generate_content text)) eqn:T.
  2:{ left. rewrite (generate_service_failed _ _ _ _ _ F T). simpl. eauto. }
  destruct (generate_content text) as [raw|] eqn:G; [|discriminate].
  cbn [truthy_opt] in T.
  destruct (parse_llm_json_output raw) as [parsed|e] eqn:P.
  2:{ left. rewrite (generate_parse_raised _ _ _ _ _ _ _ F G T P). simpl. eauto. }
  destruct (truthy_parsed parsed) eqn:TP.
  2:{ left. rewrite (generate_invalid_structure _ _ _ _ _ _ _ F G T P TP). simpl. eauto. }
  destruct parsed as [v|]; [|discriminate]. cbn [truthy_parsed] in TP.
  destruct v as [|b|n|x|s|l|d];
    try (left; rewrite (generate_not_an_object _ _ _ _ _ _ _ F G T P TP);
         [simpl; eauto | discriminate]).
  destruct (insert_recipe real_text (generated_recipe db d)) as [new|e] eqn:I.
  - right. exists t, raw, d, new. repeat split; try assumption.
    + intros ->. discriminate.
    + now apply (generate_success _ _ _ _ t raw d).
  - left. rewrite (generate_flush_raised _ _ _ _ _ _ _ _ F G T P TP I). simpl. eauto.
Qed.

End GenerationFacts.

(* ================================================================== *)
(** * The generation workflow *)
(* ================================================================== *)

(** C6. For every transcript identifier that matches no stored
    Transcript, generate-recipe fails with HTTP 404 "Transcript not found",
    sends nothing to the structuring service and leaves the committed store
    as it was. *)
Theorem generate_unknown_transcript (generate_content : string -> option string) (real_text : float -> string)
  (transcript_id : Z) (transcript_text : string) (hx_request : bool) (db : Store) :
  (forall t, In t (transcripts db) -> Transcript.id t <> transcript_id) ->
  let h := generate_recipe_from_transcript generate_content real_text transcript_id
             transcript_text hx_request in
  result_of h db = Raise (HTTPException 404 "Transcript not found") /\
  status_code_of (result_of h db) = 404%Z /\
  prompts_of h db = [] /\
  db_after h db = db.
Proof.
  intros H h. apply find_transcript_none in H.
  unfold result_of, prompts_of, db_after, h.
  rewrite (generate_not_found generate_content real_text _ transcript_text hx_request _ H).
  repeat split.
Qed.

(** C6 at the store with transcript 1 only, asked for transcript 2. *)
Lemma generate_unknown_transcript_witness :
  let h := generate_recipe_from_transcript (answering soup_json) sample_real_text 2 "more eggs" true in
  result_of h one_transcript = Raise (HTTPException 404 "Transcript not found") /\
  status_code_of (result_of h one_transcript) = 404%Z /\
  prompts_of h one_transcript = [] /\
  db_after h one_transcript = one_transcript.
Proof.
  apply (generate_unknown_transcript (answering soup_json) sample_real_text 2 "more eggs" true one_transcript).
  intros t [<- | []]. simpl. lia.
Defined.

(** C3. Every run of the generation workflow either raises and commits
    nothing, or commits the updated Transcript (text, status, link) together
    with the new Recipe. When the call to the structuring service fails, or
    its output does not parse, the run raises and the committed store is the
    one it started from, the text of step 2 included; with an existing
    transcript the errors are the two HTTP 500 of the workflow. *)
Theorem generation_commits_atomically (generate_content : string -> option string) (real_text : float -> string)
  (transcript_id : Z) (transcript_text : string) (hx_request : bool) (db : Store) :
  let h := generate_recipe_from_transcript generate_content real_text transcript_id
             transcript_text hx_request in
  ((exists e, result_of h db = Raise e /\ db_after h db = db) \/
   (exists t new template,
       result_of h db = Ok (RecipeCard template new) /\
       find_transcript transcript_id db = Some t /\
       db_after h db = store_after_generation db transcript_id transcript_text new /\
       In new (recipes (db_after h db)) /\
       find_transcript transcript_id (db_after h db) =
         Some (processed_transcript t transcript_text new))) /\
  (truthy_opt (generate_content transcript_text) = false ->
   (exists e, result_of h db = Raise e) /\ db_after h db = db /\
   (find_transcript transcript_id db <> None ->
    result_of h db = Raise (HTTPException 500 "AI service failed to respond."))) /\
  (forall raw,
      generate_content transcript_text = Some raw ->
      parse_llm_json_output raw = Ok None ->
      (exists e, result_of h db = Raise e) /\ db_after h db = db /\
      (find_transcript transcript_id db <> None -> raw <> "" ->
       result_of h db =
         Raise (HTTPException 500 "AI returned an invalid recipe structure."))).
Proof.
  intros h. split; [|split].
  - destruct (generate_cases generate_content real_text transcript_id transcript_text
                hx_request db)
      as [L | (t & raw & d & new & F & G & P & ND & I & R)]; [now left|].
    right. exists t, new,
      (if hx_request then "partials/recipe_card.html" else "index.html").
    unfold result_of, db_after, h. rewrite R. cbn [fst snd].
    repeat split; try assumption.
    + unfold store_after_generation. cbn [recipes]. apply in_or_app. right. now left.
    + now apply find_transcript_after_generation.
  - intros T. unfold result_of, db_after, h.
    destruct (find_transcript transcript_id db) as [t|] eqn:F.
    + rewrite (generate_service_failed generate_content real_text _ _ hx_request _ _ F T).
      cbn [fst snd]. eauto.
    + rewrite (generate_not_found generate_content real_text _ transcript_text hx_request _ F).
      cbn [fst snd]. split; [eauto|]. split; [reflexivity|]. intros N. now destruct N.
  - intros raw G P. unfold result_of, db_after, h.
    destruct (find_transcript transcript_id db) as [t|] eqn:F.
    + destruct (truthy_str raw) eqn:T.
      * rewrite (generate_invalid_structure generate_content real_text _ _ hx_request _ _ _ _
                   F G T P eq_refl).
        cbn [fst snd]. eauto.
      * assert (T' : truthy_opt (generate_content transcript_text) = false)
          by (now rewrite G).
        rewrite (generate_service_failed generate_content real_text _ _ hx_request _ _ F T').
        cbn [fst snd]. split; [eauto|]. split; [reflexivity|].
        intros _ N. exfalso. apply N. unfold truthy_str in T.
        apply negb_false_iff in T. now apply String.eqb_eq in T.
    + rewrite (generate_not_found generate_content real_text _ transcript_text hx_request _ F).
      cbn [fst snd]. split; [eauto|]. split; [reflexivity|]. intros N. now destruct N.
Qed.

(** C3 where the service fails and where it answers text that is no
    JSON: an HTTP 500 each time, and the transcript keeps its text. *)
Lemma generation_commits_atomically_witness :
  (let h := generate_recipe_from_transcript failing sample_real_text 1 "three eggs" true in
   (exists e, result_of h one_transcript = Raise e) /\
   db_after h one_transcript = one_transcript /\
   (find_transcript 1 one_transcript <> None ->
    result_of h one_transcript =
      Raise (HTTPException 500 "AI service failed to respond."))) /\
  (let h := generate_recipe_from_transcript (answering "no recipe here") sample_real_text 1
              "three eggs" true in
   (exists e, result_of h one_transcript = Raise e) /\
   db_after h one_transcript = one_transcript /\
   (find_transcript 1 one_transcript <> None -> "no recipe here" <> "" ->
    result_of h one_transcript =
      Raise (HTTPException 500 "AI returned an invalid recipe structure."))).
Proof.
  split.
  - apply (proj1 (proj2 (generation_commits_atomically failing sample_real_text 1 "three eggs" true
                           one_transcript))).
    reflexivity.
  - apply (proj2 (proj2 (generation_commits_atomically (answering "no recipe here") sample_real_text 1
                           "three eggs" true one_transcript)) "no recipe here").
    + reflexivity.
    + reflexivity.
Defined.

Lemma or_else_missing d k dflt : assoc_get k d = None -> or_else (field k d) dflt = dflt.
Proof. intros E. unfold field. now rewrite E. Qed.

Lemma or_else_given d k dflt v :
  assoc_get k d = Some v -> truthy v = true -> or_else (field k d) dflt = v.
Proof. intros E T. unfold field, or_else. now rewrite E, T. Qed.

(** C4. A generate-recipe call that succeeds on an existing Transcript
    has created exactly one Recipe, under a new key, from the fields of the
    parsed object: each field or, when it is missing or falsy, its default
    (the name "Untitled Recipe", the provenance null, items and chef_notes
    the empty list); items and chef_notes are stored as they are, and the
    name and the provenance as their String columns hold them: text as it
    is, a number as its text, so the stored name is always text. Afterwards
    the Transcript is "processed", holds the corrected text and links to
    the new Recipe, and the new Recipe, as it is stored, is what the call
    returns. *)
Theorem generation_creates_recipe (generate_content : string -> option string)
  (real_text : float -> string)
  (transcript_id : Z) (transcript_text : string) (hx_request : bool) (db : Store)
  (resp : response) :
  let h := generate_recipe_from_transcript generate_content real_text transcript_id
             transcript_text hx_request in
  result_of h db = Ok resp ->
  exists t raw d new,
    find_transcript transcript_id db = Some t /\
    generate_content transcript_text = Some raw /\
    parse_llm_json_output raw = Ok (Some (VDict d)) /\
    (exists template, resp = RecipeCard template new) /\
    recipes (db_after h db) = (recipes db ++ [new])%list /\
    ~ In (Recipe.id new) (map Recipe.id (recipes db)) /\
    find_recipe (Recipe.id new) (db_after h db) = Some new /\
    find_transcript transcript_id (db_after h db) =
      Some (Transcript.Build (Transcript.id t) transcript_text "processed"
              (Some (Recipe.id new))) /\
    String_column real_text (or_else (field "recipe_name" d) (VStr "Untitled Recipe"))
      = Ok (Recipe.recipe_name new) /\
    String_column real_text (or_else (field "provenance" d) VNone)
      = Ok (Recipe.provenance new) /\
    Recipe.items new = or_else (field "items" d) (VList []) /\
    Recipe.chef_notes new = or_else (field "chef_notes" d) (VList []) /\
    (exists name, Recipe.recipe_name new = VStr name) /\
    (assoc_get "recipe_name" d = None -> Recipe.recipe_name new = VStr "Untitled Recipe") /\
    (assoc_get "provenance" d = None -> Recipe.provenance new = VNone) /\
    (assoc_get "items" d = None -> Recipe.items new = VList []) /\
    (assoc_get "chef_notes" d = None -> Recipe.chef_notes new = VList []) /\
    (forall s, s <> "" ->
       (assoc_get "recipe_name" d = Some (VStr s) -> Recipe.recipe_name new = VStr s) /\
       (assoc_get "provenance" d = Some (VStr s) -> Recipe.provenance new = VStr s)) /\
    (forall n, n <> 0%Z ->
       (assoc_get "recipe_name" d = Some (VInt n) ->
        Recipe.recipe_name new = VStr (str_of_int n)) /\
       (assoc_get "provenance" d = Some (VInt n) ->
        Recipe.provenance new = VStr (str_of_int n))) /\
    (forall v, truthy v = true ->
       (assoc_get "items" d = Some v -> Recipe.items new = v) /\
       (assoc_get "chef_notes" d = Some v -> Recipe.chef_notes new = v)).
Proof.
  intros h. unfold result_of, db_after, h.
  destruct (generate_cases generate_content real_text transcript_id transcript_text
              hx_request db)
    as [(e & E & _) | (t & raw & d & new & F & G & P & ND & I & R)].
  { unfold result_of in E. rewrite E. discriminate. }
  rewrite R. cbn [fst snd]. intros [= <-].
  destruct (insert_recipe_stored _ _ _ I) as (Eid & Eitems & Enotes & Ename & Eprov & NN).
  cbn [generated_recipe Recipe.id Recipe.items Recipe.chef_notes Recipe.recipe_name
         Recipe.provenance] in Eid, Eitems, Enotes, Ename, Eprov.
  assert (Fresh : ~ In (Recipe.id new) (map Recipe.id (recipes db))).
  { rewrite Eid. apply next_id_fresh. }
  assert (Text : exists name, Recipe.recipe_name new = VStr name).
  { destruct (String_column_text _ _ _ Ename) as [N | T]; [now destruct NN | exact T]. }
  exists t, raw, d, new.
  split; [exact F|]. split; [exact G|]. split; [exact P|].
  split; [eauto|]. split; [reflexivity|]. split; [exact Fresh|].
  split; [unfold find_recipe, store_after_generation; cbn [recipes];
          now apply find_added|].
  split; [now apply find_transcript_after_generation|].
  split; [exact Ename|]. split; [exact Eprov|]. split; [exact Eitems|].
  split; [exact Enotes|]. split; [exact Text|].
  split.
  { intros M. rewrite (or_else_missing _ _ _ M) in Ename.
    change (String_column real_text (VStr "Untitled Recipe"))
      with (@Ok value (VStr "Untitled Recipe")) in Ename.
    congruence. }
  split.
  { intros M. rewrite (or_else_missing _ _ _ M) in Eprov. cbn in Eprov. congruence. }
  split; [intros M; rewrite Eitems; now apply or_else_missing|].
  split; [intros M; rewrite Enotes; now apply or_else_missing|].
  split; [|split].
  - intros s S.
    assert (T : truthy (VStr s) = true).
    { cbn. unfold truthy_str. apply negb_true_iff. now apply String.eqb_neq. }
    split; intros M.
    + rewrite (or_else_given _ _ _ _ M T) in Ename. cbn [String_column] in Ename.
      destruct (has_surrogate s); congruence.
    + rewrite (or_else_given _ _ _ _ M T) in Eprov. cbn [String_column] in Eprov.
      destruct (has_surrogate s); congruence.
  - intros n N.
    assert (T : truthy (VInt n) = true).
    { cbn. apply negb_true_iff. now apply Z.eqb_neq. }
    split; intros M.
    + rewrite (or_else_given _ _ _ _ M T) in Ename. cbn [String_column] in Ename.
      destruct (_ && _)%bool; congruence.
    + rewrite (or_else_given _ _ _ _ M T) in Eprov. cbn [String_column] in Eprov.
      destruct (_ && _)%bool; congruence.
  - intros v T. split; intros M.
    + rewrite Eitems. now apply or_else_given.
    + rewrite Enotes. now apply or_else_given.
Qed.

(** C4 on the pending transcript 1, the service answering
    [{ "recipe_name": "Soup" }]: the recipe 1 named "Soup" is stored and
    returned, and the transcript links to it. *)
Lemma generation_creates_recipe_witness :
  exists new,
    recipes (db_after (generate_recipe_from_transcript (answering soup_json)
                         sample_real_text 1 "soup of the day" true) one_transcript)
    = [new] /\
    Recipe.recipe_name new = VStr "Soup" /\
    Recipe.provenance new = VNone /\
    Recipe.items new = VList [] /\
    find_transcript 1
      (db_after (generate_recipe_from_transcript (answering soup_json)
                   sample_real_text 1 "soup of the day" true) one_transcript)
    = Some (Transcript.Build 1 "soup of the day" "processed" (Some (Recipe.id new))).
Proof.
  destruct (generation_creates_recipe (answering soup_json) sample_real_text 1
              "soup of the day" true one_transcript
              (RecipeCard "partials/recipe_card.html"
                 (Recipe.Build 1 (VStr "Soup") VNone (VList []) (VList []))) eq_refl)
    as (t & raw & d & new & F & G & P & _ & Rs & _ & _ & Ft & _ & _ & _ & _ & _
        & _ & Mp & Mi & _ & Given & _).
  injection G as <-. injection P as <-. injection F as <-.
  exists new. split; [exact Rs|].
  split; [exact (proj1 (Given "Soup" ltac:(discriminate)) eq_refl)|].
  split; [exact (Mp eq_refl)|]. split; [exact (Mi eq_refl)|]. exact Ft.
Defined.

(** What the String column makes of a name that is no text: the number
    5 is stored and returned as the text "5"; a list is refused by the
    driver and a lone surrogate by the encoder, the request is answered
    with a 500 and nothing is committed. *)
Example generation_binds_the_name :
  (let h := generate_recipe_from_transcript (answering number_name_json)
              sample_real_text 1 "five" true in
   result_of h one_transcript
   = Ok (RecipeCard "partials/recipe_card.html"
           (Recipe.Build 1 (VStr "5") VNone (VList []) (VList []))) /\
   recipes (db_after h one_transcript)
   = [Recipe.Build 1 (VStr "5") VNone (VList []) (VList [])]) /\
  (let h := generate_recipe_from_transcript (answering list_name_json)
              sample_real_text 1 "soup" true in
   result_of h one_transcript = Raise (Exn DBAPIError) /\
   status_code_of (result_of h one_transcript) = 500%Z /\
   db_after h one_transcript = one_transcript) /\
  (let h := generate_recipe_from_transcript (answering surrogate_name_json)
              sample_real_text 1 "soup" true in
   result_of h one_transcript = Raise (Exn UnicodeEncodeError) /\
   db_after h one_transcript = one_transcript).
Proof. repeat split; vm_compute; reflexivity. Qed.

(* ================================================================== *)
(** * Deleting a recipe *)
(* ================================================================== *)

(** C7. Deleting a Recipe that a Transcript references removes the
    Recipe row and sets that Transcript's link to null; the Transcript row
    stays, with its id, its text and its status, and so does every other
    transcript row. *)
Theorem delete_recipe_clears_link (recipe_id : Z) (db : Store)
  (r : Recipe.t) (t : Transcript.t) :
  find_recipe recipe_id db = Some r ->
  In t (transcripts db) ->
  Transcript.recipe_id t = Some recipe_id ->
  let db' := db_after (delete_recipe recipe_id) db in
  result_of (delete_recipe recipe_id) db = Ok EmptyBody /\
  (forall r', In r' (recipes db') -> Recipe.id r' <> recipe_id) /\
  (forall r', In r' (recipes db) -> Recipe.id r' <> recipe_id -> In r' (recipes db')) /\
  In (Transcript.Build (Transcript.id t) (Transcript.full_text t)
        (Transcript.status t) None)
     (transcripts db') /\
  map Transcript.id (transcripts db') = map Transcript.id (transcripts db) /\
  map Transcript.full_text (transcripts db') = map Transcript.full_text (transcripts db) /\
  map Transcript.status (transcripts db') = map Transcript.status (transcripts db) /\
  (forall t', In t' (transcripts db') -> Transcript.recipe_id t' <> Some recipe_id).
Proof.
  intros F I L db'. unfold result_of, db', db_after.
  rewrite delete_recipe_request, F. cbn [fst snd].
  unfold store_after_delete. cbn [recipes transcripts].
  split; [reflexivity|]. split; [|split; [|split; [|split; [|split; [|split]]]]].
  - intros r' Ir. apply filter_In in Ir. destruct Ir as [_ N].
    apply negb_true_iff in N. now apply Z.eqb_neq in N.
  - intros r' Ir N. apply filter_In. split; [exact Ir|].
    apply negb_true_iff. now apply Z.eqb_neq.
  - apply in_map_iff. exists t. split; [|exact I].
    rewrite L. now rewrite Z.eqb_refl.
  - rewrite map_map. apply map_ext. intros x.
    destruct (Transcript.recipe_id x) as [j|]; [|reflexivity].
    now destruct (j =? recipe_id)%Z.
  - rewrite map_map. apply map_ext. intros x.
    destruct (Transcript.recipe_id x) as [j|]; [|reflexivity].
    now destruct (j =? recipe_id)%Z.
  - rewrite map_map. apply map_ext. intros x.
    destruct (Transcript.recipe_id x) as [j|]; [|reflexivity].
    now destruct (j =? recipe_id)%Z.
  - intros t' It. apply in_map_iff in It. destruct It as (x & <- & _).
    destruct (Transcript.recipe_id x) as [j|] eqn:E; [|now rewrite E].
    destruct (Z.eqb_spec j recipe_id) as [-> | N]; [discriminate|].
    rewrite E. intros [= ->]. now apply N.
Qed.

(** C7 on the store where transcript 1 links to recipe 7. *)
Lemma delete_recipe_clears_link_witness :
  let db' := db_after (delete_recipe 7) linked_store in
  result_of (delete_recipe 7) linked_store = Ok EmptyBody /\
  (forall r', In r' (recipes db') -> Recipe.id r' <> 7%Z) /\
  (forall r', In r' (recipes linked_store) -> Recipe.id r' <> 7%Z -> In r' (recipes db')) /\
  In (Transcript.Build 1 "boil water" "processed" None) (transcripts db') /\
  map Transcript.id (transcripts db') = map Transcript.id (transcripts linked_store) /\
  map Transcript.full_text (transcripts db') =
    map Transcript.full_text (transcripts linked_store) /\
  map Transcript.status (transcripts db') = map Transcript.status (transcripts linked_store) /\
  (forall t', In t' (transcripts db') -> Transcript.recipe_id t' <> Some 7%Z).
Proof.
  apply (delete_recipe_clears_link 7 linked_store (recipe_with 7 "Tea" (VList []))
           (Transcript.Build 1 "boil water" "processed" (Some 7%Z))).
  - reflexivity.
  - now left.
  - reflexivity.
Defined.

(* ================================================================== *)
(** * The invariants of the data model *)
(* ================================================================== *)

(** The items the form handlers build are objects with an [itemName]. *)
Lemma items_data_valid qs : forall us ns,
  items_valid (VList (items_data qs us ns)) = true.
Proof.
  induction qs as [|q qs IH]; intros [|u us] [|n ns]; try reflexivity.
  cbn [items_data]. destruct (truthy_str n); [|apply IH].
  cbn [items_valid forallb]. change (item_has_name _) with true.
  exact (IH us ns).
Qed.

(** What a refused request and an accepted one leave behind. *)
Lemma validated_request accepted h db :
  request (validated accepted h) db =
  if accepted then request h db else (Raise (Exn RequestValidationError), db, []).
Proof. now destruct accepted. Qed.

Lemma db_after_validated accepted h db :
  db_after (validated accepted h) db = if accepted then db_after h db else db.
Proof. unfold db_after. rewrite validated_request. now destruct accepted. Qed.

Lemma result_of_validated accepted h db :
  result_of (validated accepted h) db =
  if accepted then result_of h db else Raise (Exn RequestValidationError).
Proof. unfold result_of. rewrite validated_request. now destruct accepted. Qed.

Lemma db_after_generate generate_content real_text tid text hx db :
  let db' := db_after (generate_recipe_from_transcript generate_content real_text tid text hx) db in
  db' = db \/
  exists t raw d new,
    find_transcript tid db = Some t /\
    generate_content text = Some raw /\
    parse_llm_json_output raw = Ok (Some (VDict d)) /\
    insert_recipe real_text (generated_recipe db d) = Ok new /\
    db' = store_after_generation db tid text new.
Proof.
  intros db'. unfold db'.
  destruct (generate_cases generate_content real_text tid text hx db)
    as [(e & _ & E) | (t & raw & d & new & F & G & P & _ & I & R)]; [now left|].
  right. exists t, raw, d, new. repeat split; try assumption.
  unfold db_after. now rewrite R.
Qed.

Lemma statuses_after_generation db tid text new :
  statuses_valid db = true ->
  statuses_valid (store_after_generation db tid text new) = true.
Proof.
  unfold statuses_valid, store_after_generation. cbn [transcripts].
  rewrite !forallb_forall. intros H x I.
  apply in_map_iff in I. destruct I as (y & <- & Iy).
  destruct (Transcript.id y =? tid)%Z; [reflexivity | now apply H].
Qed.

Lemma statuses_after_delete db i :
  statuses_valid db = true -> statuses_valid (store_after_delete db i) = true.
Proof.
  unfold statuses_valid, store_after_delete. cbn [transcripts].
  rewrite !forallb_forall. intros H x I.
  apply in_map_iff in I. destruct I as (y & <- & Iy).
  specialize (H y Iy).
  destruct (Transcript.recipe_id y) as [j|]; [|exact H].
  now destruct (j =? i)%Z.
Qed.

(** The store after an update that found its recipe, and after one that
    did not. *)
Lemma db_after_update rid name prov qs us ns notes db :
  db_after (update_recipe_and_return_cookbook rid name prov qs us ns notes) db =
  match find_recipe rid db with
  | None => db
  | Some _ =>
    {| transcripts := transcripts db;
       recipes :=
         map (fun r => if (Recipe.id r =? rid)%Z
                       then Recipe.Build (Recipe.id r) (VStr name) (VStr prov)
                              (VList (items_data qs us ns)) (notes_or_empty notes)
                       else r)
           (recipes db) |}
  end.
Proof.
  unfold db_after.
  pose proof (update_recipe_request rid name prov qs us ns notes db) as R.
  destruct (find_recipe rid db); [destruct R as [rows ->] | rewrite R]; reflexivity.
Qed.

Lemma db_after_create name prov qs us ns notes db :
  db_after (create_recipe_from_form name prov qs us ns notes) db =
  {| transcripts := transcripts db;
     recipes := (recipes db ++
                   [Recipe.Build (next_id (map Recipe.id (recipes db)))
                      (VStr name) (VStr prov) (VList (items_data qs us ns))
                      (notes_or_empty notes)])%list |}.
Proof.
  unfold db_after.
  now destruct (create_recipe_request name prov qs us ns notes db) as [rows ->].
Qed.

Lemma db_after_delete rid db :
  db_after (delete_recipe rid) db =
  match find_recipe rid db with
  | None => db
  | Some _ => store_after_delete db rid
  end.
Proof.
  unfold db_after. rewrite delete_recipe_request. now destruct (find_recipe rid db).
Qed.

(** ** The statuses *)

Lemma step_statuses service real_text db db' :
  request_step service real_text db db' ->
  statuses_valid db = true -> statuses_valid db' = true.
Proof.
  intros [full_text | generate_content tid text hx _ | name prov qs us ns notes
          | rid name prov qs us ns notes | rid] V.
  - unfold db_after. rewrite create_transcript_request. cbn [fst snd].
    unfold statuses_valid in *. cbn [transcripts]. now rewrite forallb_app, V.
  - unfold post_generate_recipe. rewrite db_after_validated.
    destruct (required_text text); [|exact V].
    destruct (db_after_generate generate_content real_text tid text hx db)
      as [E | (t & raw & d & new & _ & _ & _ & _ & E)]; cbv zeta in E; rewrite E;
      [exact V | now apply statuses_after_generation].
  - unfold post_recipes. rewrite db_after_validated.
    destruct (recipe_form_accepted _ _ _ _); [|exact V].
    now rewrite db_after_create.
  - unfold put_recipe. rewrite db_after_validated.
    destruct (recipe_form_accepted _ _ _ _); [|exact V].
    rewrite db_after_update. now destruct (find_recipe rid db).
  - rewrite db_after_delete.
    destruct (find_recipe rid db); [now apply statuses_after_delete | exact V].
Qed.

(** ** The items *)

Lemma step_recipes real_text db db' :
  request_step valid_items_service real_text db db' ->
  recipes_valid db = true -> recipes_valid db' = true.
Proof.
  intros [full_text | generate_content tid text hx S | name prov qs us ns notes
          | rid name prov qs us ns notes | rid] V.
  - unfold db_after. now rewrite create_transcript_request.
  - unfold post_generate_recipe. rewrite db_after_validated.
    destruct (required_text text); [|exact V].
    destruct (db_after_generate generate_content real_text tid text hx db)
      as [E | (t & raw & d & new & _ & G & P & I & E)]; cbv zeta in E; rewrite E;
      [exact V|].
    destruct (insert_recipe_stored _ _ _ I) as (_ & Eitems & _).
    unfold recipes_valid, store_after_generation in *. cbn [recipes].
    rewrite forallb_app, V. cbn [forallb]. rewrite Eitems.
    cbn [generated_recipe Recipe.items]. now rewrite (S _ _ _ G P).
  - unfold post_recipes. rewrite db_after_validated.
    destruct (recipe_form_accepted _ _ _ _); [|exact V].
    rewrite db_after_create. unfold recipes_valid in *. cbn [recipes].
    rewrite forallb_app, V. cbn [forallb Recipe.items]. now rewrite items_data_valid.
  - unfold put_recipe. rewrite db_after_validated.
    destruct (recipe_form_accepted _ _ _ _); [|exact V].
    rewrite db_after_update. destruct (find_recipe rid db); [|exact V].
    unfold recipes_valid in *. cbn [recipes]. rewrite forallb_forall in *.
    intros x I. apply in_map_iff in I. destruct I as (y & <- & Iy).
    destruct (Recipe.id y =? rid)%Z; [apply items_data_valid | now apply V].
  - rewrite db_after_delete. destruct (find_recipe rid db); [|exact V].
    unfold recipes_valid, store_after_delete in *. cbn [recipes].
    rewrite forallb_forall in *. intros x I. apply filter_In in I. now apply V.
Qed.

(** C8, as amended. In every store that requests build from the empty
    store, every Transcript's status is "pending" or "processed"; and every
    Recipe's items is a list of objects with at least an itemName as long
    as every answer of the structuring service carried such a list, or
    none. Each request keeps the one and the other from any store. The
    forms write such a list into the recipe they create or rewrite whatever
    else is stored; the generation workflow stores the parsed "items" as it
    came (the empty list when it is missing or falsy), so the new Recipe has
    such items exactly when the service sent them. *)
Theorem store_invariant (real_text : float -> string) :
  (forall db, reachable any_service real_text db -> statuses_valid db = true) /\
  (forall db, reachable valid_items_service real_text db -> store_valid db = true) /\
  (forall db db', request_step any_service real_text db db' ->
                  statuses_valid db = true -> statuses_valid db' = true) /\
  (forall db db', request_step valid_items_service real_text db db' ->
                  recipes_valid db = true -> recipes_valid db' = true) /\
  (forall db name prov qs us ns notes,
      recipe_form_accepted name qs us ns = true ->
      exists new,
        recipes (db_after (post_recipes name prov qs us ns notes) db)
        = (recipes db ++ [new])%list /\
        items_valid (Recipe.items new) = true) /\
  (forall db rid name prov qs us ns notes r,
      recipe_form_accepted name qs us ns = true ->
      find_recipe rid db <> None ->
      In r (recipes (db_after (put_recipe rid name prov qs us ns notes) db)) ->
      (Recipe.id r = rid -> items_valid (Recipe.items r) = true) /\
      (Recipe.id r <> rid -> In r (recipes db))) /\
  (forall generate_content tid text hx db resp,
      let h := post_generate_recipe generate_content real_text tid text hx in
      result_of h db = Ok resp ->
      exists raw d new,
        generate_content text = Some raw /\
        parse_llm_json_output raw = Ok (Some (VDict d)) /\
        recipes (db_after h db) = (recipes db ++ [new])%list /\
        Recipe.items new = or_else (field "items" d) (VList []) /\
        recipes_valid (db_after h db)
        = recipes_valid db && items_valid (or_else (field "items" d) (VList []))).
Proof.
  split; [|split; [|split; [|split; [|split; [|split]]]]].
  - intros db R. induction R as [|db db' _ IH S]; [reflexivity|].
    now apply (step_statuses _ _ _ _ S).
  - intros db R. unfold store_valid. apply andb_true_iff.
    induction R as [|db db' _ [IHr IHs] S]; [now split|]. split.
    + now apply (step_recipes _ _ _ S).
    + now apply (step_statuses _ _ _ _ S).
  - intros db db'. apply step_statuses.
  - intros db db'. apply step_recipes.
  - intros db name prov qs us ns notes A. unfold post_recipes.
    rewrite db_after_validated, A, db_after_create. cbn [recipes].
    eexists. split; [reflexivity|]. apply items_data_valid.
  - intros db rid name prov qs us ns notes r A F. unfold put_recipe.
    rewrite db_after_validated, A, db_after_update.
    destruct (find_recipe rid db); [|now destruct F]. cbn [recipes].
    intros I. apply in_map_iff in I. destruct I as (y & <- & Iy).
    destruct (Z.eqb_spec (Recipe.id y) rid) as [E | N].
    + split; [intros _; apply items_data_valid | cbn [Recipe.id]; intros X; now destruct X].
    + split; [intros X; now destruct N | intros _; exact Iy].
  - intros generate_content tid text hx db resp h. unfold h, post_generate_recipe.
    rewrite result_of_validated, db_after_validated.
    destruct (required_text text); [|discriminate].
    unfold result_of, db_after.
    destruct (generate_cases generate_content real_text tid text hx db)
      as [(e & E & _) | (t & raw & d & new & F & G & P & ND & I & R)].
    { unfold result_of in E. rewrite E. discriminate. }
    rewrite R. cbn [fst snd]. intros _.
    destruct (insert_recipe_stored _ _ _ I) as (_ & Eitems & _).
    cbn [generated_recipe Recipe.items] in Eitems.
    exists raw, d, new. repeat split; try assumption.
    unfold recipes_valid, store_after_generation. cbn [recipes].
    rewrite forallb_app. cbn [forallb]. now rewrite Eitems, andb_true_r.
Qed.

(** The amended C8 on the store that a transcript, a generation whose
    service fails and a form build from the empty store. *)
Lemma store_invariant_witness :
  store_valid
    (db_after (post_recipes "Toast" "" ["2"] ["slice"] ["bread"] None)
       (db_after (post_generate_recipe failing sample_real_text 1 "an egg" true)
          (db_after (create_transcript_and_return_editor "one egg") empty_store)))
  = true.
Proof.
  apply (proj1 (proj2 (store_invariant sample_real_text))).
  eapply reachable_step; [|apply step_create_recipe].
  eapply reachable_step;
    [|apply step_generate_recipe; intros prompt raw d G; discriminate G].
  eapply reachable_step; [|apply step_create_transcript].
  apply reachable_empty.
Defined.

(** C8 as stated fails for the generation workflow: the service answers
    a recipe whose items are plain text, the workflow succeeds, and the
    stored Recipe's items is a list of strings; a form that is submitted
    afterwards leaves it so. *)
Lemma store_invariant_counterexample :
  let h := post_generate_recipe (answering text_items_json) sample_real_text 1
             "pancakes" true in
  let form := post_recipes "Toast" "" ["2"] ["slice"] ["bread"] None in
  store_valid one_transcript = true /\
  result_of h one_transcript =
    Ok (RecipeCard "partials/recipe_card.html"
          (Recipe.Build 1 (VStr "Pancakes") VNone (VList [VStr "2 eggs"]) (VList []))) /\
  recipes (db_after h one_transcript) =
    [Recipe.Build 1 (VStr "Pancakes") VNone (VList [VStr "2 eggs"]) (VList [])] /\
  store_valid (db_after h one_transcript) = false /\
  store_valid (db_after form (db_after h one_transcript)) = false.
Proof. repeat split; reflexivity. Qed.

(** ** The names *)

Lemma str_of_int_not_empty n : str_of_int n <> "".
Proof.
  unfold str_of_int. destruct (Z.to_int n) as [d|d]; [|discriminate].
  destruct d; discriminate.
Qed.

(** A name that the flush of the generation workflow stored is text of
    one character or more. *)
Lemma stored_name_present real_text (v : value) (r : Recipe.t) :
  (forall x, real_text x <> "") ->
  truthy v = true ->
  String_column real_text v = Ok (Recipe.recipe_name r) ->
  Recipe.recipe_name r <> VNone ->
  name_present r = true.
Proof.
  intros RT T S NN. unfold name_present.
  assert (NE : forall s, s <> "" -> truthy_str s = true).
  { intros s N. unfold truthy_str. apply negb_true_iff. now apply String.eqb_neq. }
  destruct v as [|b|n|x|s|l|d]; cbn [String_column] in S; try discriminate.
  - injection S as E. rewrite <- E. cbn in T. subst b. reflexivity.
  - destruct (_ && _)%bool; [|discriminate]. injection S as E. rewrite <- E.
    apply NE, str_of_int_not_empty.
  - destruct (PrimFloat.is_nan x); injection S as E.
    + exfalso. apply NN. now rewrite <- E.
    + rewrite <- E. apply NE, RT.
  - destruct (has_surrogate s); [discriminate|]. injection S as E. rewrite <- E. exact T.
Qed.

Lemma or_else_truthy a dflt : truthy dflt = true -> truthy (or_else a dflt) = true.
Proof. intros T. unfold or_else. now destruct (truthy a) eqn:E. Qed.

Lemma step_names service real_text db db' :
  (forall x, real_text x <> "") ->
  request_step service real_text db db' ->
  names_present db = true -> names_present db' = true.
Proof.
  intros RT [full_text | generate_content tid text hx _ | name prov qs us ns notes
             | rid name prov qs us ns notes | rid] V.
  - unfold db_after. now rewrite create_transcript_request.
  - unfold post_generate_recipe. rewrite db_after_validated.
    destruct (required_text text); [|exact V].
    destruct (db_after_generate generate_content real_text tid text hx db)
      as [E | (t & raw & d & new & _ & G & P & I & E)]; cbv zeta in E; rewrite E;
      [exact V|].
    destruct (insert_recipe_stored _ _ _ I) as (_ & _ & _ & Ename & _ & NN).
    cbn [generated_recipe Recipe.recipe_name] in Ename.
    unfold names_present, store_after_generation in *. cbn [recipes].
    rewrite forallb_app, V. cbn [forallb].
    rewrite (stored_name_present _ _ _ RT (or_else_truthy (field "recipe_name" d) (VStr "Untitled Recipe") eq_refl) Ename NN).
    reflexivity.
  - unfold post_recipes. rewrite db_after_validated.
    destruct (recipe_form_accepted name qs us ns) eqn:A; [|exact V].
    rewrite db_after_create. unfold names_present in *. cbn [recipes].
    rewrite forallb_app, V. cbn [forallb name_present Recipe.recipe_name].
    unfold recipe_form_accepted, required_text in A.
    apply andb_prop in A. destruct A as [A _]. apply andb_prop in A. destruct A as [A _].
    apply andb_prop in A. destruct A as [A _]. now rewrite A.
  - unfold put_recipe. rewrite db_after_validated.
    destruct (recipe_form_accepted name qs us ns) eqn:A; [|exact V].
    rewrite db_after_update. destruct (find_recipe rid db); [|exact V].
    unfold recipe_form_accepted, required_text in A.
    apply andb_prop in A. destruct A as [A _]. apply andb_prop in A. destruct A as [A _].
    apply andb_prop in A. destruct A as [A _].
    unfold names_present in *. cbn [recipes]. rewrite forallb_forall in *.
    intros x I. apply in_map_iff in I. destruct I as (y & <- & Iy).
    destruct (Recipe.id y =? rid)%Z; [exact A | now apply V].
  - rewrite db_after_delete. destruct (find_recipe rid db); [|exact V].
    unfold names_present, store_after_delete in *. cbn [recipes].
    rewrite forallb_forall in *. intros x I. apply filter_In in I. now apply V.
Qed.

(** C9, as amended. In every store that requests build from the empty
    store, every Recipe has a recipe_name that is text of one character or
    more, whichever way it was created or updated, and each request keeps
    it so from any store. The forms refuse an empty name with a 422 and
    store nothing, and store any other name as it is, whatever its length;
    the generation workflow stores a parsed name as its String column
    holds it (C4), "Untitled Recipe" when it is missing or falsy. The
    engine's text of a real number is taken not to be empty. *)
Theorem recipe_names_present (real_text : float -> string) :
  (forall x, real_text x <> "") ->
  (forall db, reachable any_service real_text db -> names_present db = true) /\
  (forall db db', request_step any_service real_text db db' ->
                  names_present db = true -> names_present db' = true) /\
  (forall db prov qs us ns notes,
      result_of (post_recipes "" prov qs us ns notes) db
      = Raise (Exn RequestValidationError) /\
      status_code_of (result_of (post_recipes "" prov qs us ns notes) db) = 422%Z /\
      db_after (post_recipes "" prov qs us ns notes) db = db) /\
  (forall db rid prov qs us ns notes,
      result_of (put_recipe rid "" prov qs us ns notes) db
      = Raise (Exn RequestValidationError) /\
      status_code_of (result_of (put_recipe rid "" prov qs us ns notes) db) = 422%Z /\
      db_after (put_recipe rid "" prov qs us ns notes) db = db) /\
  (forall db name prov qs us ns notes,
      recipe_form_accepted name qs us ns = true ->
      name <> "" /\
      exists new,
        recipes (db_after (post_recipes name prov qs us ns notes) db)
        = (recipes db ++ [new])%list /\
        Recipe.recipe_name new = VStr name) /\
  (forall db rid name prov qs us ns notes r,
      recipe_form_accepted name qs us ns = true ->
      find_recipe rid db <> None ->
      In r (recipes (db_after (put_recipe rid name prov qs us ns notes) db)) ->
      Recipe.id r = rid -> Recipe.recipe_name r = VStr name) /\
  (forall generate_content tid text hx db template new,
      result_of (post_generate_recipe generate_content real_text tid text hx) db
      = Ok (RecipeCard template new) ->
      exists name, Recipe.recipe_name new = VStr name /\ name <> "").
Proof.
  intros RT. split; [|split; [|split; [|split; [|split; [|split]]]]].
  - intros db R. induction R as [|db db' _ IH S]; [reflexivity|].
    now apply (step_names _ _ _ _ RT S).
  - intros db db'. now apply step_names.
  - intros db prov qs us ns notes. unfold post_recipes.
    rewrite result_of_validated, db_after_validated. now cbn.
  - intros db rid prov qs us ns notes. unfold put_recipe.
    rewrite result_of_validated, db_after_validated. now cbn.
  - intros db name prov qs us ns notes A. split.
    + intros ->. discriminate A.
    + unfold post_recipes. rewrite db_after_validated, A, db_after_create. cbn [recipes].
      eexists. split; reflexivity.
  - intros db rid name prov qs us ns notes r A F. unfold put_recipe.
    rewrite db_after_validated, A, db_after_update.
    destruct (find_recipe rid db); [|now destruct F]. cbn [recipes].
    intros I E. apply in_map_iff in I. destruct I as (y & <- & Iy).
    destruct (Z.eqb_spec (Recipe.id y) rid) as [_ | N]; [reflexivity | now destruct N].
  - intros generate_content tid text hx db template new. unfold post_generate_recipe.
    rewrite result_of_validated. destruct (required_text text); [|discriminate].
    unfold result_of.
    destruct (generate_cases generate_content real_text tid text hx db)
      as [(e & E & _) | (t & raw & d & new' & F & G & P & ND & I & R)].
    { unfold result_of in E. rewrite E. discriminate. }
    rewrite R. cbn [fst]. intros [= _ <-].
    destruct (insert_recipe_stored _ _ _ I) as (_ & _ & _ & Ename & _ & NN).
    cbn [generated_recipe Recipe.recipe_name] in Ename.
    pose proof (stored_name_present _ _ _ RT (or_else_truthy (field "recipe_name" d) (VStr "Untitled Recipe") eq_refl) Ename NN) as NP.
    unfold name_present in NP.
    destruct (Recipe.recipe_name new') as [| | | |s| |]; try discriminate NP.
    exists s. split; [reflexivity|]. intros ->. discriminate NP.
Qed.

(** The amended C9 on the store that two forms build from the empty
    store. *)
Lemma recipe_names_present_witness :
  names_present
    (db_after (put_recipe 1 "Toast, buttered" "" ["2"] ["slice"] ["bread"] None)
       (db_after (post_recipes "Toast" "" ["2"] ["slice"] ["bread"] None) empty_store))
  = true.
Proof.
  apply (proj1 (recipe_names_present sample_real_text ltac:(discriminate))).
  eapply reachable_step; [|apply step_update_recipe].
  eapply reachable_step; [|apply step_create_recipe].
  apply reachable_empty.
Defined.

(** C9 as stated fails: the form stores a name of 101 characters. *)
Lemma recipe_names_counterexample :
  let h := post_recipes long_name "" ["1"] ["cup"] ["flour"] None in
  names_bounded empty_store = true /\
  char_length long_name = 101%nat /\
  result_of h empty_store
  = Ok (CookbookList
          [Recipe.Build 1 (VStr long_name) (VStr "")
             (VList [line_item (VStr "flour") (VStr "1") (VStr "cup")]) (VList [])]) /\
  map Recipe.recipe_name (recipes (db_after h empty_store)) = [VStr long_name] /\
  names_bounded (db_after h empty_store) = false.
Proof. repeat split; reflexivity. Qed.

(* ================================================================== *)
(** * The JSON decoder never runs out of fuel *)
(* ================================================================== *)

Section JsonFuel.

Import Json.

Local Abbreviation len := String.length.

Lemma lstrip_by_length p s : (len (lstrip_by p s) <= len s)%nat.
Proof.
  induction s as [|c r IH]; simpl; [lia|].
  destruct (p c); simpl; lia.
Qed.

Lemma skip_ws_length s : (len (skip_ws s) <= len s)%nat.
Proof. apply lstrip_by_length. Qed.

Lemma span_digits_length s : (len (snd (span_digits s)) <= len s)%nat.
Proof.
  induction s as [|c r IH]; simpl; [lia|].
  destruct (isdigit c); [|simpl; lia].
  destruct (span_digits r) as [d t]. simpl in *. lia.
Qed.

Lemma after_prefix_length p : forall s r,
  after_prefix p s = Some r -> (len r + len p = len s)%nat.
Proof.
  induction p as [|a p IH]; intros [|b s] r; simpl; try discriminate.
  - now intros [= <-].
  - now intros [= <-].
  - destruct (Ascii.eqb a b); [|discriminate]. intros H. apply IH in H. lia.
Qed.

Lemma scan_constant_length s v r :
  scan_constant s = Some (v, r) -> (len r < len s)%nat.
Proof.
  unfold scan_constant.
  repeat match goal with
         | |- context [after_prefix ?p s] =>
           let E := fresh "E" in
           destruct (after_prefix p s) eqn:E;
           [apply after_prefix_length in E; simpl in E; intros [= <- <-]; lia|]
         end.
  discriminate.
Qed.

Lemma scan_integer_length s neg ip r :
  scan_integer s = Some (neg, ip, r) -> (len r < len s)%nat.
Proof.
  unfold scan_integer.
  destruct s as [|c r0]; [discriminate|].
  destruct (Ascii.eqb c "-") eqn:E.
  - apply Ascii.eqb_eq in E. subst c. intros H.
    change (match r0 with
            | String c r1 =>
              if Ascii.eqb c "0" then Some (true, "0"%string, r1)
              else if isdigit c
                   then let '(d, t) := span_digits r1 in Some (true, String c d, t)
                   else None
            | EmptyString => None
            end = Some (neg, ip, r)) in H.
    destruct r0 as [|c1 r1]; [discriminate|].
    simpl. destruct (Ascii.eqb c1 "0"); [injection H as <- <- <-; lia|].
    destruct (isdigit c1); [|discriminate].
    pose proof (span_digits_length r1) as S0.
    destruct (span_digits r1) as [d t]. simpl in S0. injection H as <- <- <-. lia.
  - intros H.
    assert (H' : (if Ascii.eqb c "0" then Some (false, "0"%string, r0)
                  else if isdigit c
                       then let '(d, t) := span_digits r0 in Some (false, String c d, t)
                       else None) = Some (neg, ip, r)).
    { revert H. destruct c as [[] [] [] [] [] [] [] []]; try discriminate E; exact (fun H => H). }
    simpl. destruct (Ascii.eqb c "0"); [injection H' as <- <- <-; lia|].
    destruct (isdigit c); [|discriminate].
    pose proof (span_digits_length r0) as S0.
    destruct (span_digits r0) as [d t]. simpl in S0. injection H' as <- <- <-. lia.
Qed.

Lemma scan_fraction_length s : (len (snd (scan_fraction s)) <= len s)%nat.
Proof.
  unfold scan_fraction.
  destruct s as [|c r]; [simpl; lia|].
  destruct (Ascii.eqb c ".") eqn:E.
  - apply Ascii.eqb_eq in E. subst c.
    destruct r as [|d r1]; [simpl; lia|].
    destruct (isdigit d) eqn:D; [|simpl; lia].
    pose proof (span_digits_length (String d r1)) as S0.
    destruct (span_digits (String d r1)) as [ds t]. simpl in *. lia.
  - destruct c as [[] [] [] [] [] [] [] []]; try discriminate E; simpl; lia.
Qed.

Lemma scan_exponent_length s : (len (snd (scan_exponent s)) <= len s)%nat.
Proof.
  unfold scan_exponent.
  destruct s as [|e r]; [simpl; lia|].
  destruct (Ascii.eqb e "e" || Ascii.eqb e "E"); [|simpl; lia].
  assert (G : forall sg r1, (len r1 <= len r)%nat ->
            (len (snd (let '(ds, t) := span_digits r1 in
                       if String.eqb ds "" then (""%string, String e r)
                       else (String e (sg ++ ds), t))) <= len (String e r))%nat).
  { intros sg r1 L. pose proof (span_digits_length r1) as S0.
    destruct (span_digits r1) as [ds t]. simpl in S0.
    destruct (String.eqb ds ""); simpl; lia. }
  destruct r as [|c r1]; [apply G; simpl; lia|].
  destruct (Ascii.eqb c "-") eqn:E1.
  { apply Ascii.eqb_eq in E1. subst c. apply G. simpl. lia. }
  destruct (Ascii.eqb c "+") eqn:E2.
  { apply Ascii.eqb_eq in E2. subst c. apply G. simpl. lia. }
  destruct c as [[] [] [] [] [] [] [] []];
    try discriminate E1; try discriminate E2; apply G; simpl; lia.
Qed.

Lemma scan_number_length s v r :
  scan_number s = Done (v, r) -> (len r < len s)%nat.
Proof.
  unfold scan_number.
  destruct (scan_integer s) as [[[neg ip] s1]|] eqn:I; [|discriminate].
  apply scan_integer_length in I.
  pose proof (scan_fraction_length s1) as F.
  destruct (scan_fraction s1) as [fp s2]. simpl in F.
  pose proof (scan_exponent_length s2) as X.
  destruct (scan_exponent s2) as [ep s3]. simpl in X.
  destruct (String.eqb fp "" && String.eqb ep "").
  - intros [= <- <-]. lia.
  - destruct (float_of_str _); [|discriminate]. intros [= <- <-]. lia.
Qed.

Lemma starts_with_length c s r : starts_with c s = Some r -> len s = S (len r).
Proof.
  destruct s as [|d t]; simpl; [discriminate|].
  destruct (Ascii.eqb d c); [now intros [= ->] | discriminate].
Qed.

Lemma option_map_rest {A B} (f : A -> B) (o : option (A * string)) b rest :
  option_map (fun '(t, r) => (f t, r)) o = Some (b, rest) ->
  exists a, o = Some (a, rest).
Proof.
  destruct o as [[a r]|]; simpl; [|discriminate]. intros [= _ <-]. eauto.
Qed.

Lemma scanstring_length n : forall s t rest,
  (len s <= n)%nat -> scanstring s = Some (t, rest) -> (len rest < len s)%nat.
Proof.
  induction n as [|n IH]; intros s t rest L; destruct s as [|c r];
    cbn [scanstring]; try discriminate; simpl in L; [lia|].
  assert (Rec : forall (f : string -> string) s' b,
             (len s' <= n)%nat ->
             option_map (fun '(t0, r0) => (f t0, r0)) (scanstring s') = Some (b, rest) ->
             (len rest < len s')%nat).
  { intros f s' b Ls H. apply option_map_rest in H. destruct H as [a H].
    now apply (IH _ _ _ Ls H). }
  destruct (Ascii.eqb c quote); [intros [= _ <-]; simpl; lia|].
  destruct (Ascii.eqb c backslash).
  - destruct r as [|e r1]; [discriminate|]. simpl in L.
    destruct (Ascii.eqb e "u").
    + destruct r1 as [|h1 [|h2 [|h3 [|h4 r2]]]]; try discriminate. simpl in L.
      destruct (hex4 h1 h2 h3 h4) as [cp|]; [|discriminate].
      assert (Lone : option_map (fun '(t0, rest0) => ((utf8 cp ++ t0)%string, rest0))
                       (scanstring r2) = Some (t, rest) ->
                     (len rest < len (String c (String e (String h1 (String h2
                                   (String h3 (String h4 r2)))))))%nat).
      { intros H. apply (Rec (fun t0 => (utf8 cp ++ t0)%string)) in H; simpl; lia. }
      destruct (is_high_surrogate cp); [|exact Lone].
      destruct r2 as [|b [|u [|g1 [|g2 [|g3 [|g4 r3]]]]]]; try exact Lone.
      destruct (Ascii.eqb b backslash && Ascii.eqb u "u"); [|exact Lone].
      destruct (hex4 g1 g2 g3 g4) as [cp2|]; [|discriminate].
      destruct (is_low_surrogate cp2); [|exact Lone].
      intros H. simpl in L.
      apply (Rec (fun t0 => (utf8 (join_surrogates cp cp2) ++ t0)%string)) in H;
        simpl; lia.
    + destruct (simple_escape e) as [x|]; [|discriminate].
      intros H. apply (Rec (String x)) in H; simpl; lia.
  - destruct (ord c <=? 31)%nat; [discriminate|].
    intros H. apply (Rec (String c)) in H; simpl; lia.
Qed.

Lemma scanstring_shorter s t rest :
  scanstring s = Some (t, rest) -> (len rest < len s)%nat.
Proof. apply (scanstring_length (len s)). lia. Qed.

(** With fuel above twice the length of the text, [scan_once] neither
    runs out of fuel nor returns a rest that is not shorter; with one more,
    the same holds of the scanners of the items. *)
Lemma scan_fuel f :
  (forall s, (2 * len s < f)%nat ->
     scan_once f s <> OutOfFuel /\
     forall v rest, scan_once f s = Done (v, rest) -> (len rest < len s)%nat) /\
  (forall s acc, (2 * len s + 1 < f)%nat ->
     object_items f s acc <> OutOfFuel /\
     forall v rest, object_items f s acc = Done (v, rest) -> (len rest <= len s)%nat) /\
  (forall s acc, (2 * len s + 1 < f)%nat ->
     array_items f s acc <> OutOfFuel /\
     forall v rest, array_items f s acc = Done (v, rest) -> (len rest <= len s)%nat).
Proof.
  induction f as [|f (IHs & IHo & IHa)].
  { repeat split; intros; lia. }
  split; [|split].
  - intros s L. cbn [scan_once].
    destruct s as [|c r]; [split; [discriminate | intros; discriminate]|].
    simpl in L. pose proof (skip_ws_length r) as W.
    destruct (Ascii.eqb c quote).
    { destruct (scanstring r) as [[t rest]|] eqn:S0;
        [|split; [discriminate | intros; discriminate]].
      apply scanstring_shorter in S0.
      split; [discriminate|]. intros v rest' [= _ <-]. simpl. lia. }
    destruct (Ascii.eqb c "{").
    { destruct (starts_with "}" (skip_ws r)) as [rest|] eqn:S0.
      - apply starts_with_length in S0.
        split; [discriminate|]. intros v rest' [= _ <-]. simpl. lia.
      - destruct (IHo (skip_ws r) [] ltac:(lia)) as [N R].
        split; [exact N|]. intros v rest H. apply R in H. simpl. lia. }
    destruct (Ascii.eqb c "[").
    { destruct (starts_with "]" (skip_ws r)) as [rest|] eqn:S0.
      - apply starts_with_length in S0.
        split; [discriminate|]. intros v rest' [= _ <-]. simpl. lia.
      - destruct (IHa (skip_ws r) [] ltac:(lia)) as [N R].
        split; [exact N|]. intros v rest H. apply R in H. simpl. lia. }
    destruct (scan_constant (String c r)) as [[v0 r0]|] eqn:C.
    { apply scan_constant_length in C.
      split; [discriminate|]. now intros v rest [= _ <-]. }
    split.
    + unfold scan_number. destruct (scan_integer _) as [[[neg ip] s1]|]; [|discriminate].
      destruct (scan_fraction s1) as [fp s2]. destruct (scan_exponent s2) as [ep s3].
      destruct (_ && _); [discriminate|]. destruct (float_of_str _); discriminate.
    + intros v rest H. now apply scan_number_length in H.
  - intros s acc L. cbn [object_items].
    destruct (starts_with quote s) as [r|] eqn:S0;
      [|split; [discriminate | intros; discriminate]].
    apply starts_with_length in S0.
    destruct (scanstring r) as [[key r1]|] eqn:S1;
      [|split; [discriminate | intros; discriminate]].
    apply scanstring_shorter in S1. pose proof (skip_ws_length r1) as W1.
    destruct (starts_with ":" (skip_ws r1)) as [r2|] eqn:S2;
      [|split; [discriminate | intros; discriminate]].
    apply starts_with_length in S2. pose proof (skip_ws_length r2) as W2.
    destruct (IHs (skip_ws r2) ltac:(lia)) as [N R].
    destruct (scan_once f (skip_ws r2)) as [[v r3]| |] eqn:S3;
      [|split; [discriminate | intros; discriminate] | now destruct N].
    specialize (R _ _ eq_refl). pose proof (skip_ws_length r3) as W3.
    destruct (starts_with "}" (skip_ws r3)) as [rest|] eqn:S4.
    { apply starts_with_length in S4.
      split; [discriminate|]. intros v' rest' [= _ <-]. lia. }
    destruct (starts_with "," (skip_ws r3)) as [r4|] eqn:S5;
      [|split; [discriminate | intros; discriminate]].
    apply starts_with_length in S5. pose proof (skip_ws_length r4) as W4.
    destruct (IHo (skip_ws r4) (assoc_set key v acc) ltac:(lia)) as [N' R'].
    split; [exact N'|]. intros v' rest H. apply R' in H. lia.
  - intros s acc L. cbn [array_items].
    destruct (IHs s ltac:(lia)) as [N R].
    destruct (scan_once f s) as [[v r1]| |] eqn:S1;
      [|split; [discriminate | intros; discriminate] | now destruct N].
    specialize (R _ _ eq_refl). pose proof (skip_ws_length r1) as W1.
    destruct (starts_with "]" (skip_ws r1)) as [rest|] eqn:S4.
    { apply starts_with_length in S4.
      split; [discriminate|]. intros v' rest' [= _ <-]. lia. }
    destruct (starts_with "," (skip_ws r1)) as [r2|] eqn:S5;
      [|split; [discriminate | intros; discriminate]].
    apply starts_with_length in S5. pose proof (skip_ws_length r2) as W2.
    destruct (IHa (skip_ws r2) (acc ++ [v])%list ltac:(lia)) as [N' R'].
    split; [exact N'|]. intros v' rest H. apply R' in H. lia.
Qed.

(** [loads] gives its scanner enough fuel. *)
Lemma loads_fuel s : scan_once (enough_fuel s) (skip_ws s) <> OutOfFuel.
Proof.
  apply scan_fuel. unfold enough_fuel. pose proof (skip_ws_length s). lia.
Qed.

(** [json.loads] raises nothing but [JSONDecodeError]. *)
Lemma loads_raises s e : loads s = Raise e -> e = Exn JSONDecodeError.
Proof.
  unfold loads. destruct (scan_once _ _) as [[v rest]| |].
  - destruct (skip_ws rest); [discriminate | now intros [= <-]].
  - now intros [= <-].
  - now intros [= <-].
Qed.

End JsonFuel.

(* ================================================================== *)
(** * The LLM output parser *)
(* ================================================================== *)

Section FenceFacts.

Import Re.

Local Abbreviation len := String.length.

(** A successful star hands the continuation a rest that is no longer
    than the text. *)
Lemma star_sound {A} p (k : string -> option A) s x :
  star p s k = Some x -> exists t, k t = Some x /\ (len t <= len s)%nat.
Proof.
  induction s as [|c r IH]; simpl; [eauto|].
  destruct (p c); [|eauto].
  destruct (star p r k) as [y|] eqn:E; [|eauto].
  intros [= <-]. destruct (IH eq_refl) as (t & K & L). exists t. split; [exact K | lia].
Qed.

(** The text after the literal [p] at the front of [s]. *)
Lemma matches_text p : forall s g k x,
  matches (text p) s g k = Some x ->
  exists t, k t g = Some x /\ (len t <= len s)%nat.
Proof.
  induction p as [|a p IH]; intros s g k x; cbn [text matches]; [eauto|].
  destruct s as [|d t0]; [discriminate|].
  destruct (Ascii.eqb a d); [|discriminate].
  intros H. destruct (IH _ _ _ _ H) as (t & K & L). exists t. split; [exact K | simpl; lia].
Qed.

(** What group 2 of the fence pattern holds after a match: a text that
    starts with a brace. *)
Lemma fence_group t g k x :
  matches (Group 2 (Seq (Chr "{") (Seq (Star (fun _ => true)) (Chr "}")))) t g
    (fun t1 g1 => matches (Seq (Star isspace) (text "```")) t1 g1 k) = Some x ->
  exists body t1 g1, k t1 g1 = Some x /\ g1 = (2%nat, String "{" body) :: g.
Proof.
  cbn [matches]. destruct t as [|d t']; [discriminate|].
  destruct (Ascii.eqb_spec "{"%char d) as [<- | _]; [|discriminate].
  intros H. apply star_sound in H. destruct H as (t2 & H & L2).
  destruct t2 as [|e t3]; [discriminate|].
  destruct (Ascii.eqb "}" e); [|discriminate].
  apply star_sound in H. destruct H as (t4 & H & L4).
  apply matches_text in H. destruct H as (t5 & H & L5).
  cbn [String.length] in L2, H.
  destruct (S (len t') - len t3)%nat as [|m] eqn:D; [lia|].
  cbn [String.substring] in H. eauto.
Qed.

(** After a successful search, group 2 holds a text that starts with a
    brace. *)
Lemma search_fence s m :
  search fence_pattern s = Some m -> exists body, group m 2 = Some (String "{" body).
Proof.
  induction s as [|c r IH].
  - cbn. discriminate.
  - cbn [search].
    destruct (matches fence_pattern (String c r) [] (fun _ g => Some g)) as [x|] eqn:E;
      [|exact IH].
    intros [= <-]. clear IH.
    unfold fence_pattern in E. cbn [matches] in E.
    change (Seq (Chr "`") (Seq (Chr "`") (Seq (Chr "`") Eps))) with (text "```") in E.
    apply matches_text in E. destruct E as (t & E & _).
    cbn [matches] in E.
    match type of E with
    | match ?a with Some _ => _ | None => ?b end = _ =>
      destruct a as [y|] eqn:A; [injection E as ->|]
    end.
    + change (Seq (Chr "j") (Seq (Chr "s") (Seq (Chr "o") (Seq (Chr "n") Eps))))
        with (text "json") in A.
      apply matches_text in A. destruct A as (t1 & A & _).
      apply star_sound in A. destruct A as (t2 & A & _).
      apply fence_group in A. destruct A as (body & t3 & g3 & A & ->).
      injection A as <-. exists body. reflexivity.
    + apply star_sound in E. destruct E as (t2 & E & _).
      apply fence_group in E. destruct E as (body & t3 & g3 & E & ->).
      injection E as <-. exists body. reflexivity.
Qed.

End FenceFacts.

(** The text handed to [json.loads] is always there. *)
Lemma json_string_of_total s :
  exists t, json_string_of s = Ok t /\
            (Re.search fence_pattern s <> None -> exists body, t = String "{" body).
Proof.
  unfold json_string_of.
  destruct (Re.search fence_pattern s) as [m|] eqn:E.
  - destruct (search_fence _ _ E) as (body & ->). eexists. split; [reflexivity | eauto].
  - eexists. split; [reflexivity|]. intros N. now destruct N.
Qed.

(** The scanner of the members of an object returns an object. *)
Lemma object_items_dict f : forall s acc v rest,
  Json.object_items f s acc = Json.Done (v, rest) -> exists d, v = VDict d.
Proof.
  induction f as [|f IH]; intros s acc v rest; cbn [Json.object_items]; [discriminate|].
  destruct (Json.starts_with Json.quote s) as [r|]; [|discriminate].
  destruct (Json.scanstring r) as [[key r1]|]; [|discriminate].
  destruct (Json.starts_with ":" (Json.skip_ws r1)) as [r2|]; [|discriminate].
  destruct (Json.scan_once f (Json.skip_ws r2)) as [[v0 r3]| |]; try discriminate.
  destruct (Json.starts_with "}" (Json.skip_ws r3)) as [rest0|].
  - intros [= <- _]. eauto.
  - destruct (Json.starts_with "," (Json.skip_ws r3)) as [r4|]; [|discriminate].
    apply IH.
Qed.

(** Text that starts with a brace decodes to an object or not at all. *)
Lemma loads_brace body v :
  Json.loads (String "{" body) = Ok v -> exists d, v = VDict d.
Proof.
  unfold Json.loads, Json.enough_fuel.
  change (Json.skip_ws (String "{" body)) with (String "{" body).
  cbn [Json.scan_once]. change (Ascii.eqb "{" Json.quote) with false.
  change (Ascii.eqb "{" "{") with true. cbv iota.
  destruct (Json.starts_with "}" (Json.skip_ws body)) as [rest|].
  - destruct (Json.skip_ws rest); [|discriminate]. intros [= <-]. eauto.
  - destruct (Json.object_items _ _ _) as [[v0 rest]| |] eqn:O; try discriminate.
    destruct (Json.skip_ws rest); [|discriminate]. intros [= <-].
    now apply object_items_dict in O.
Qed.

(** Where [parse_llm_json_output] does what its signature says: it never
    raises, and on text with a fenced block it returns an object or
    [None]. *)
Lemma parse_llm_json_output_total s :
  exists r,
    parse_llm_json_output s = Ok r /\
    (Re.search fence_pattern s <> None ->
     r = None \/ exists d, r = Some (VDict d)).
Proof.
  unfold parse_llm_json_output.
  destruct (negb (truthy_str s)); [exists None; split; [reflexivity | now left]|].
  destruct (json_string_of_total s) as (t & -> & B). cbn [bind].
  destruct (Json.loads t) as [v|e] eqn:L; cbn [bind try_except].
  - exists (Some v). split; [reflexivity|]. intros N.
    destruct (B N) as [body ->]. right.
    destruct (loads_brace _ _ L) as [d ->]. eauto.
  - rewrite (loads_raises _ _ L). cbn. exists None. split; [reflexivity | now left].
Qed.

Example parse_llm_json_output_fenced :
  parse_llm_json_output ("```json " ++ soup_json ++ " ```")
  = Ok (Some (VDict [("recipe_name", VStr "Soup")])).
Proof. reflexivity. Qed.

Example parse_llm_json_output_bare :
  parse_llm_json_output soup_json = Ok (Some (VDict [("recipe_name", VStr "Soup")])).
Proof. reflexivity. Qed.

Example parse_llm_json_output_prose :
  parse_llm_json_output "Sorry, I cannot help with that." = Ok None.
Proof. reflexivity. Qed.

(** C5, where the code departs from it. The parser is declared to
    return a [dict] or [None], and on text with no fenced block it returns
    whatever JSON value the text holds: the text [[1]] gives a list and [5]
    a number. The generation workflow then calls [.get] on the list and
    ends in an [AttributeError], an HTTP 500 outside its own two. *)
Theorem parse_llm_json_output_returns_any_value :
  parse_llm_json_output "[1]" = Ok (Some (VList [VInt 1])) /\
  parse_llm_json_output "5" = Ok (Some (VInt 5)) /\
  result_of (generate_recipe_from_transcript (answering "[1]") sample_real_text 1 "an egg" true)
    one_transcript = Raise (Exn AttributeError).
Proof. repeat split; reflexivity. Qed.

(* ================================================================== *)
(** * Further properties of the generation workflow *)
(* ================================================================== *)

Lemma parsed_not_empty raw v : parse_llm_json_output raw = Ok (Some v) -> truthy_str raw = true.
Proof.
  unfold parse_llm_json_output. destruct (truthy_str raw); [reflexivity | discriminate].
Qed.

(** The handler computes its closed form. *)
Lemma generate_request generate_content real_text tid text hx db :
  request (generate_recipe_from_transcript generate_content real_text tid text hx) db =
  generation_outcome generate_content real_text tid text hx db.
Proof.
  unfold generation_outcome.
  destruct (find_transcript tid db) as [t|] eqn:F.
  2:{ now apply generate_not_found. }
  destruct (truthy_opt (generate_content text)) eqn:T.
  2:{ now apply (generate_service_failed _ _ _ _ _ _ t). }
  destruct (generate_content text) as [raw|] eqn:G; [|discriminate].
  cbn [truthy_opt] in T.
  destruct (parse_llm_json_output raw) as [parsed|e] eqn:P.
  2:{ now apply (generate_parse_raised _ _ _ _ _ _ t raw). }
  destruct (truthy_parsed parsed) eqn:TP.
  2:{ now apply (generate_invalid_structure _ _ _ _ _ _ t raw parsed). }
  destruct parsed as [v|]; [|discriminate]. cbn [truthy_parsed] in TP.
  destruct v as [|b|n|x|s|l|d];
    try (apply (generate_not_an_object _ _ _ _ _ _ t raw _ F G T P TP); discriminate).
  destruct (insert_recipe real_text (generated_recipe db d)) as [new|e] eqn:I.
  - now apply (generate_success _ _ _ _ _ _ t raw d).
  - now apply (generate_flush_raised _ _ _ _ _ _ t raw d).
Qed.

(** X1. On text in which the fence pattern finds a block, whatever
    [parse_llm_json_output] returns besides [None] is an object: the group
    handed to [json.loads] starts with a brace. *)
Theorem fenced_output_is_object (raw_string : string) (v : value) :
  Re.search fence_pattern raw_string <> None ->
  parse_llm_json_output raw_string = Ok (Some v) ->
  exists d, v = VDict d.
Proof.
  intros S P.
  destruct (parse_llm_json_output_total raw_string) as (r & E & B).
  rewrite P in E. injection E as <-.
  destruct (B S) as [N | D]; [discriminate|].
  destruct D as [d [= ->]]. eauto.
Qed.

Lemma fenced_output_is_object_witness :
  exists d, VDict [("recipe_name", VStr "Soup")] = VDict d.
Proof.
  apply (fenced_output_is_object ("```json " ++ soup_json ++ " ```")).
  - intros N. vm_compute in N. discriminate.
  - reflexivity.
Defined.

(** X2. The generation workflow calls the structuring service exactly
    once, with the corrected text as the prompt, when the transcript exists,
    and not at all when it does not. *)
Theorem generation_sends_one_prompt (generate_content : string -> option string) (real_text : float -> string)
  (transcript_id : Z) (transcript_text : string) (hx_request : bool) (db : Store) :
  prompts_of (generate_recipe_from_transcript generate_content real_text transcript_id
                transcript_text hx_request) db =
  match find_transcript transcript_id db with
  | Some _ => [transcript_text]
  | None => []
  end.
Proof.
  unfold prompts_of. rewrite generate_request. unfold generation_outcome.
  destruct (find_transcript transcript_id db); [|reflexivity].
  destruct (truthy_opt _); [|reflexivity].
  destruct (parse_llm_json_output _) as [parsed|e]; [|reflexivity].
  destruct (truthy_parsed parsed); [|reflexivity].
  destruct parsed as [[|b|n|x|s|l|d]|]; try reflexivity.
  now destruct (insert_recipe _ _).
Qed.

(** X3. When the service answers JSON that is a truthy value but no
    object (a list, a number, a text), the workflow raises the
    [AttributeError] of [recipe_data.get], which the framework answers
    with a 500, and commits nothing. *)
Theorem generation_rejects_non_object (generate_content : string -> option string) (real_text : float -> string)
  (transcript_id : Z) (transcript_text : string) (hx_request : bool) (db : Store)
  (t : Transcript.t) (raw : string) (v : value) :
  find_transcript transcript_id db = Some t ->
  generate_content transcript_text = Some raw ->
  parse_llm_json_output raw = Ok (Some v) ->
  truthy v = true ->
  (forall d, v <> VDict d) ->
  let h := generate_recipe_from_transcript generate_content real_text transcript_id
             transcript_text hx_request in
  result_of h db = Raise (Exn AttributeError) /\
  status_code_of (result_of h db) = 500%Z /\
  db_after h db = db.
Proof.
  intros F G P T N h. unfold result_of, db_after, h.
  rewrite (generate_not_an_object generate_content real_text _ _ hx_request _ t raw v
             F G (parsed_not_empty _ _ P) P T N).
  repeat split.
Qed.

Lemma generation_rejects_non_object_witness :
  let h := generate_recipe_from_transcript (answering "[1]") sample_real_text 1 "an egg" false in
  result_of h one_transcript = Raise (Exn AttributeError) /\
  status_code_of (result_of h one_transcript) = 500%Z /\
  db_after h one_transcript = one_transcript.
Proof.
  apply (generation_rejects_non_object (answering "[1]") sample_real_text 1 "an egg" false one_transcript
           (Transcript.Build 1 "two eggs, beaten" "pending" None) "[1]" (VList [VInt 1]));
    try reflexivity.
  discriminate.
Defined.

(** X4. When the service answers JSON whose value is falsy (null,
    false, zero, an empty text, list or object), the workflow answers the
    500 "AI returned an invalid recipe structure." and commits nothing. *)
Theorem generation_rejects_falsy_value (generate_content : string -> option string) (real_text : float -> string)
  (transcript_id : Z) (transcript_text : string) (hx_request : bool) (db : Store)
  (t : Transcript.t) (raw : string) (v : value) :
  find_transcript transcript_id db = Some t ->
  generate_content transcript_text = Some raw ->
  parse_llm_json_output raw = Ok (Some v) ->
  truthy v = false ->
  let h := generate_recipe_from_transcript generate_content real_text transcript_id
             transcript_text hx_request in
  result_of h db = Raise (HTTPException 500 "AI returned an invalid recipe structure.") /\
  db_after h db = db.
Proof.
  intros F G P T h. unfold result_of, db_after, h.
  rewrite (generate_invalid_structure generate_content real_text _ _ hx_request _ t raw (Some v)
             F G (parsed_not_empty _ _ P) P T).
  split; reflexivity.
Qed.

Lemma generation_rejects_falsy_value_witness :
  let h := generate_recipe_from_transcript (answering "{}") sample_real_text 1 "an egg" false in
  result_of h one_transcript =
    Raise (HTTPException 500 "AI returned an invalid recipe structure.") /\
  db_after h one_transcript = one_transcript.
Proof.
  apply (generation_rejects_falsy_value (answering "{}") sample_real_text 1 "an egg" false one_transcript
           (Transcript.Build 1 "two eggs, beaten" "pending" None) "{}" (VDict []));
    reflexivity.
Defined.

Lemma status_of_exn {A} c :
  c <> RequestValidationError -> status_code_of (@Raise A (Exn c)) = 500%Z.
Proof. destruct c; first [reflexivity | intros N; now destruct N]. Qed.

(** The body of the generation workflow is answered with 200, 404 or
    500. *)
Lemma generate_status generate_content real_text tid text hx db :
  let code := status_code_of
                (result_of (generate_recipe_from_transcript generate_content real_text
                              tid text hx) db) in
  code = 200%Z \/ code = 404%Z \/ code = 500%Z.
Proof.
  unfold result_of. rewrite generate_request. unfold generation_outcome.
  destruct (find_transcript tid db); [|cbn; tauto].
  destruct (truthy_opt _); [|cbn; tauto].
  destruct (parse_llm_json_output_total
              match generate_content text with Some raw => raw | None => "" end)
    as (r & -> & _).
  destruct (truthy_parsed r); [|cbn; tauto].
  destruct r as [[|b|n|x|s|l|d]|]; try (cbn; tauto).
  destruct (insert_recipe real_text (generated_recipe db d)) as [new|e] eqn:I;
    [cbn; tauto|].
  destruct (insert_recipe_raises _ _ _ I) as (c & -> & N).
  cbn [fst]. rewrite (status_of_exn _ N). tauto.
Qed.

(** X5. The generate-recipe endpoint is answered with 200, 404, 422 or
    500, whatever the transcript, the text, the stored rows and the
    service: with 422 exactly when the submitted text is empty, the form
    field being required, and then nothing is committed and no prompt is
    sent; any other text reaches the workflow, which is answered with 200,
    404 or 500. *)
Theorem generation_status_codes (generate_content : string -> option string)
  (real_text : float -> string)
  (transcript_id : Z) (transcript_text : string) (hx_request : bool) (db : Store) :
  let served := post_generate_recipe generate_content real_text transcript_id
                  transcript_text hx_request in
  let code := status_code_of (result_of served db) in
  (code = 200%Z \/ code = 404%Z \/ code = 422%Z \/ code = 500%Z) /\
  (code = 422%Z <-> transcript_text = "") /\
  (transcript_text = "" -> db_after served db = db /\ prompts_of served db = []) /\
  (transcript_text <> "" ->
   request served db =
   request (generate_recipe_from_transcript generate_content real_text transcript_id
              transcript_text hx_request) db).
Proof.
  intros served code. unfold code, served, post_generate_recipe, db_after, prompts_of.
  rewrite result_of_validated, validated_request. unfold required_text, truthy_str.
  destruct (String.eqb_spec transcript_text "") as [-> | N]; cbn [negb].
  - cbn. repeat split; tauto.
  - pose proof (generate_status generate_content real_text transcript_id transcript_text
                  hx_request db) as S.
    cbv zeta in S.
    split; [tauto|]. split; [|split; [intros E; now destruct N | reflexivity]].
    split; [|intros E; now destruct N].
    intros E. rewrite E in S. destruct S as [S | [S | S]]; discriminate S.
Qed.

(** X6. The [HX-Request] header chooses the template and nothing else:
    with and without it the workflow commits the same store, sends the same
    prompts, raises the same exception or returns the same recipe. *)
Theorem generation_header_only_picks_template
  (generate_content : string -> option string) (real_text : float -> string)
  (transcript_id : Z) (transcript_text : string) (db : Store) :
  let h hx := generate_recipe_from_transcript generate_content real_text transcript_id
                transcript_text hx in
  db_after (h true) db = db_after (h false) db /\
  prompts_of (h true) db = prompts_of (h false) db /\
  match result_of (h true) db, result_of (h false) db with
  | Ok (RecipeCard t1 r1), Ok (RecipeCard t2 r2) =>
    r1 = r2 /\ t1 = "partials/recipe_card.html" /\ t2 = "index.html"
  | Raise e1, Raise e2 => e1 = e2
  | _, _ => False
  end.
Proof.
  unfold db_after, prompts_of, result_of. rewrite !generate_request.
  unfold generation_outcome.
  destruct (find_transcript transcript_id db); [|cbn; auto].
  destruct (truthy_opt _); [|cbn; auto].
  destruct (parse_llm_json_output _) as [parsed|e]; [|cbn; auto].
  destruct (truthy_parsed parsed); [|cbn; auto].
  destruct parsed as [[|b|n|x|s|l|d]|]; cbn; auto.
  destruct (insert_recipe _ _); cbn; auto.
Qed.

(** ** Lookups in changed tables *)

Lemma find_transcript_map f tid l :
  (forall t, Transcript.id (f t) = Transcript.id t) ->
  find (fun t => (Transcript.id t =? tid)%Z) (map f l) =
  option_map f (find (fun t => (Transcript.id t =? tid)%Z) l).
Proof.
  intros Hf. induction l as [|x r IH]; simpl; [reflexivity|].
  rewrite Hf. now destruct (Transcript.id x =? tid)%Z.
Qed.

Lemma find_recipe_map f rid l :
  (forall r, Recipe.id (f r) = Recipe.id r) ->
  find (fun r => (Recipe.id r =? rid)%Z) (map f l) =
  option_map f (find (fun r => (Recipe.id r =? rid)%Z) l).
Proof.
  intros Hf. induction l as [|x r IH]; simpl; [reflexivity|].
  rewrite Hf. now destruct (Recipe.id x =? rid)%Z.
Qed.

Lemma find_recipe_none rid db :
  (forall r, In r (recipes db) -> Recipe.id r <> rid) -> find_recipe rid db = None.
Proof.
  unfold find_recipe. induction (recipes db) as [|x r IH]; simpl; [reflexivity|].
  intros H. destruct (Z.eqb_spec (Recipe.id x) rid) as [E | _].
  - destruct (H x (or_introl eq_refl) E).
  - apply IH. intros y I. apply H. now right.
Qed.

(** A generation that returns found the transcript and committed the
    store of its two writes. *)
Lemma generate_returned generate_content real_text tid text hx db resp :
  result_of (generate_recipe_from_transcript generate_content real_text tid text hx) db = Ok resp ->
  exists t new,
    find_transcript tid db = Some t /\
    resp = RecipeCard (if hx then "partials/recipe_card.html" else "index.html") new /\
    Recipe.id new = next_id (map Recipe.id (recipes db)) /\
    db_after (generate_recipe_from_transcript generate_content real_text tid text hx) db =
    store_after_generation db tid text new.
Proof.
  unfold result_of, db_after.
  destruct (generate_cases generate_content real_text tid text hx db)
    as [(e & E & _) | (t & raw & d & new & F & G & P & ND & I & R)].
  - unfold result_of in E. rewrite E. discriminate.
  - rewrite R. cbn [fst snd]. intros [= <-].
    destruct (insert_recipe_stored _ _ _ I) as (Eid & _).
    exists t, new. repeat split; assumption.
Qed.

(** X7. The generation workflow touches one transcript: the keys of the
    transcript table stay as they were, in order, every transcript under
    another key is exactly as before, and the recipe table keeps its rows
    and gains at most one. *)
Theorem generation_touches_one_transcript (generate_content : string -> option string) (real_text : float -> string)
  (transcript_id : Z) (transcript_text : string) (hx_request : bool) (db : Store) :
  let db' := db_after (generate_recipe_from_transcript generate_content real_text transcript_id
                         transcript_text hx_request) db in
  map Transcript.id (transcripts db') = map Transcript.id (transcripts db) /\
  (forall t, Transcript.id t <> transcript_id ->
             (In t (transcripts db') <-> In t (transcripts db))) /\
  (exists added, recipes db' = (recipes db ++ added)%list /\ (List.length added <= 1)%nat).
Proof.
  intros db'.
  destruct (db_after_generate generate_content real_text transcript_id transcript_text
              hx_request db)
    as [E | (t & raw & d & new & F & G & P & Ins & E)]; fold db' in E; rewrite E.
  - split; [reflexivity|]. split; [tauto|]. exists []. split; [now rewrite app_nil_r | simpl; lia].
  - unfold store_after_generation. cbn [transcripts recipes]. split; [|split].
    + rewrite map_map. apply map_ext. intros x.
      now destruct (Transcript.id x =? transcript_id)%Z.
    + intros x N. rewrite in_map_iff. split.
      * intros (y & Ey & Iy).
        destruct (Z.eqb_spec (Transcript.id y) transcript_id) as [Eq | _].
        -- subst x. now destruct N.
        -- now subst x.
      * intros I. exists x. split; [|exact I].
        destruct (Z.eqb_spec (Transcript.id x) transcript_id) as [Eq | _];
          [now destruct N | reflexivity].
    + exists [new]. split; [reflexivity | simpl; lia].
Qed.

(** X8. Generating twice from the same transcript keeps both recipes:
    the second run appends a second recipe under another key, the first
    stays stored, and the transcript holds the second text and links to the
    second recipe. *)
Theorem generation_twice_keeps_both (generate_content : string -> option string) (real_text : float -> string)
  (transcript_id : Z) (text1 text2 : string) (hx1 hx2 : bool) (db : Store)
  (resp1 resp2 : response) :
  let h1 := generate_recipe_from_transcript generate_content real_text transcript_id text1 hx1 in
  let h2 := generate_recipe_from_transcript generate_content real_text transcript_id text2 hx2 in
  result_of h1 db = Ok resp1 ->
  result_of h2 (db_after h1 db) = Ok resp2 ->
  exists tpl1 tpl2 new1 new2 t,
    resp1 = RecipeCard tpl1 new1 /\
    resp2 = RecipeCard tpl2 new2 /\
    recipes (db_after h2 (db_after h1 db)) = (recipes db ++ [new1; new2])%list /\
    Recipe.id new1 <> Recipe.id new2 /\
    find_transcript transcript_id (db_after h2 (db_after h1 db)) = Some t /\
    Transcript.full_text t = text2 /\
    Transcript.status t = "processed" /\
    Transcript.recipe_id t = Some (Recipe.id new2).
Proof.
  intros h1 h2 R1 R2.
  destruct (generate_returned _ _ _ _ _ _ _ R1) as (t1 & new1 & F1 & -> & Id1 & E1).
  destruct (generate_returned _ _ _ _ _ _ _ R2) as (t2 & new2 & F2 & -> & Id2 & E2).
  fold h1 in E1, Id2. fold h2 in E2. rewrite E2.
  set (db1 := db_after h1 db) in *.
  exists (if hx1 then "partials/recipe_card.html" else "index.html"),
         (if hx2 then "partials/recipe_card.html" else "index.html"),
         new1, new2, (processed_transcript t2 text2 new2).
  assert (Rs : recipes db1 = (recipes db ++ [new1])%list) by (now rewrite E1).
  repeat split.
  - unfold store_after_generation. cbn [recipes]. rewrite Rs.
    now rewrite <- app_assoc.
  - intros Eq.
    apply (next_id_fresh (map Recipe.id (recipes db1))).
    rewrite <- Id2, <- Eq, Rs, map_app. apply in_or_app. right. now left.
  - now apply find_transcript_after_generation.
Qed.

Lemma generation_twice_keeps_both_witness :
  let h1 := generate_recipe_from_transcript (answering soup_json) sample_real_text 1 "soup" true in
  let h2 := generate_recipe_from_transcript (answering soup_json) sample_real_text 1 "soup, salted" true in
  exists tpl1 tpl2 new1 new2 t,
    RecipeCard "partials/recipe_card.html"
      (Recipe.Build 1 (VStr "Soup") VNone (VList []) (VList [])) = RecipeCard tpl1 new1 /\
    RecipeCard "partials/recipe_card.html"
      (Recipe.Build 2 (VStr "Soup") VNone (VList []) (VList [])) = RecipeCard tpl2 new2 /\
    recipes (db_after h2 (db_after h1 one_transcript)) =
      (recipes one_transcript ++ [new1; new2])%list /\
    Recipe.id new1 <> Recipe.id new2 /\
    find_transcript 1 (db_after h2 (db_after h1 one_transcript)) = Some t /\
    Transcript.full_text t = "soup, salted" /\
    Transcript.status t = "processed" /\
    Transcript.recipe_id t = Some (Recipe.id new2).
Proof.
  apply (generation_twice_keeps_both (answering soup_json) sample_real_text 1 "soup" "soup, salted"
           true true one_transcript); reflexivity.
Defined.

(** X9. Deleting the recipe a generation has just created succeeds and
    puts the recipe table back as it was before the generation, while the
    transcript keeps the corrected text and the status "processed" and has
    no link. *)
Theorem generation_then_delete (generate_content : string -> option string) (real_text : float -> string)
  (transcript_id : Z) (transcript_text : string) (hx_request : bool) (db : Store)
  (template : string) (new : Recipe.t) :
  let h := generate_recipe_from_transcript generate_content real_text transcript_id
             transcript_text hx_request in
  result_of h db = Ok (RecipeCard template new) ->
  let db1 := db_after h db in
  let db2 := db_after (delete_recipe (Recipe.id new)) db1 in
  result_of (delete_recipe (Recipe.id new)) db1 = Ok EmptyBody /\
  recipes db2 = recipes db /\
  exists t,
    find_transcript transcript_id db = Some t /\
    find_transcript transcript_id db2 =
      Some (Transcript.Build (Transcript.id t) transcript_text "processed" None).
Proof.
  intros h R db1 db2.
  destruct (generate_returned _ _ _ _ _ _ _ R) as (t & new' & F & Er & Id & E1).
  injection Er as _ <-. fold h in E1. fold db1 in E1.
  assert (Fresh : ~ In (Recipe.id new) (map Recipe.id (recipes db)))
    by (rewrite Id; apply next_id_fresh).
  assert (Found : find_recipe (Recipe.id new) db1 = Some new).
  { rewrite E1. unfold find_recipe, store_after_generation. cbn [recipes].
    now apply find_added. }
  unfold db2, result_of, db_after. rewrite delete_recipe_request, Found. cbn [fst snd].
  split; [reflexivity|]. split.
  - rewrite E1. unfold store_after_delete, store_after_generation. cbn [recipes].
    now apply filter_added.
  - exists t. split; [exact F|].
    unfold find_transcript, store_after_delete. cbn [transcripts].
    rewrite find_transcript_map.
    + fold (find_transcript transcript_id db1). rewrite E1.
      rewrite (find_transcript_after_generation _ _ _ _ _ F).
      cbn [option_map processed_transcript Transcript.recipe_id].
      now rewrite Z.eqb_refl.
    + intros x. destruct (Transcript.recipe_id x) as [j|]; [|reflexivity].
      now destruct (j =? Recipe.id new)%Z.
Qed.

Lemma generation_then_delete_witness :
  let h := generate_recipe_from_transcript (answering soup_json) sample_real_text 1 "soup" true in
  let new := Recipe.Build 1 (VStr "Soup") VNone (VList []) (VList []) in
  let db1 := db_after h one_transcript in
  let db2 := db_after (delete_recipe (Recipe.id new)) db1 in
  result_of (delete_recipe (Recipe.id new)) db1 = Ok EmptyBody /\
  recipes db2 = recipes one_transcript /\
  exists t,
    find_transcript 1 one_transcript = Some t /\
    find_transcript 1 db2 = Some (Transcript.Build (Transcript.id t) "soup" "processed" None).
Proof.
  apply (generation_then_delete (answering soup_json) sample_real_text 1 "soup" true one_transcript
           "partials/recipe_card.html"
           (Recipe.Build 1 (VStr "Soup") VNone (VList []) (VList []))).
  reflexivity.
Defined.

(* ================================================================== *)
(** * Further properties of the transcript and recipe handlers *)
(* ================================================================== *)

Lemma find_transcript_added (l : list Transcript.t) (new : Transcript.t) :
  ~ In (Transcript.id new) (map Transcript.id l) ->
  find (fun t => (Transcript.id t =? Transcript.id new)%Z) (l ++ [new]) = Some new.
Proof.
  induction l as [|x r IH]; simpl; intros N.
  - now rewrite Z.eqb_refl.
  - destruct (Z.eqb_spec (Transcript.id x) (Transcript.id new)) as [Ex | _].
    + exfalso. apply N. now left.
    + apply IH. intros I. apply N. now right.
Qed.

(** GET /recipes/{id} reads and changes nothing. *)
Lemma get_recipe_request rid db :
  request (get_recipe_editor rid) db =
  match find_recipe rid db with
  | None => (Raise (HTTPException 404 "Recipe not found"), db, [])
  | Some r => (Ok (RecipeCard "partials/recipe_card.html" r), db, [])
  end.
Proof.
  unfold request, get_recipe_editor, and_then, select_recipe. cbn [session].
  now destruct (find_recipe rid db).
Qed.

(** X10. POST /transcripts appends exactly one transcript, pending and
    without a link, holding the text as sent, under a key no other
    transcript has; it returns that row, which its key then finds, and it
    changes no other transcript and no recipe. *)
Theorem create_transcript_appends_pending (full_text : string) (db : Store) :
  let h := create_transcript_and_return_editor full_text in
  exists t,
    result_of h db = Ok (TranscriptEditor t) /\
    Transcript.full_text t = full_text /\
    Transcript.status t = "pending" /\
    Transcript.recipe_id t = None /\
    ~ In (Transcript.id t) (map Transcript.id (transcripts db)) /\
    transcripts (db_after h db) = (transcripts db ++ [t])%list /\
    recipes (db_after h db) = recipes db /\
    find_transcript (Transcript.id t) (db_after h db) = Some t.
Proof.
  intros h. unfold result_of, db_after, h. rewrite create_transcript_request.
  cbn [fst snd].
  set (t := Transcript.Build _ _ _ _).
  assert (Fresh : ~ In (Transcript.id t) (map Transcript.id (transcripts db)))
    by apply next_id_fresh.
  exists t. repeat split; try exact Fresh.
  unfold find_transcript. cbn [transcripts]. now apply find_transcript_added.
Qed.

(** X11. A recipe id that no stored recipe has is answered with the 404
    "Recipe not found" by the read, the update and the delete handler, and
    the update and the delete then leave the store as it was. *)
Theorem unknown_recipe_is_not_found (recipe_id : Z) (db : Store)
  (name prov : string) (qs us ns : list string) (notes : option (list string)) :
  (forall r, In r (recipes db) -> Recipe.id r <> recipe_id) ->
  let not_found := Raise (HTTPException 404 "Recipe not found") in
  let update := update_recipe_and_return_cookbook recipe_id name prov qs us ns notes in
  result_of (get_recipe_editor recipe_id) db = not_found /\
  result_of update db = not_found /\
  db_after update db = db /\
  result_of (delete_recipe recipe_id) db = not_found /\
  db_after (delete_recipe recipe_id) db = db.
Proof.
  intros H not_found update. apply find_recipe_none in H.
  unfold result_of, db_after, update.
  rewrite get_recipe_request, delete_recipe_request.
  pose proof (update_recipe_request recipe_id name prov qs us ns notes db) as R.
  rewrite H in *. rewrite R. repeat split.
Qed.

Lemma unknown_recipe_is_not_found_witness :
  let not_found := Raise (HTTPException 404 "Recipe not found") in
  let update := update_recipe_and_return_cookbook 9 "Scones" "" ["1"] ["cup"] ["flour"] None in
  result_of (get_recipe_editor 9) two_recipes = not_found /\
  result_of update two_recipes = not_found /\
  db_after update two_recipes = two_recipes /\
  result_of (delete_recipe 9) two_recipes = not_found /\
  db_after (delete_recipe 9) two_recipes = two_recipes.
Proof.
  apply (unknown_recipe_is_not_found 9 two_recipes "Scones" "" ["1"] ["cup"] ["flour"] None).
  intros r [<- | [<- | []]]; simpl; lia.
Defined.

(** X12. A recipe created through the form reads back: POST /recipes
    appends one recipe under a key no other recipe has, holding the name,
    the provenance, the items built from the form rows and the notes, and
    GET /recipes/{id} with that key then returns exactly that recipe. The
    transcripts are not touched. *)
Theorem created_recipe_reads_back (name prov : string) (qs us ns : list string)
  (notes : option (list string)) (db : Store) :
  let db' := db_after (create_recipe_from_form name prov qs us ns notes) db in
  exists new,
    recipes db' = (recipes db ++ [new])%list /\
    ~ In (Recipe.id new) (map Recipe.id (recipes db)) /\
    Recipe.recipe_name new = VStr name /\
    Recipe.provenance new = VStr prov /\
    Recipe.items new = VList (items_data qs us ns) /\
    Recipe.chef_notes new = notes_or_empty notes /\
    result_of (get_recipe_editor (Recipe.id new)) db' =
      Ok (RecipeCard "partials/recipe_card.html" new) /\
    transcripts db' = transcripts db.
Proof.
  intros db'. unfold db', db_after.
  destruct (create_recipe_request name prov qs us ns notes db) as [rows ->].
  cbn [fst snd recipes transcripts].
  set (new := Recipe.Build _ _ _ _ _).
  assert (Fresh : ~ In (Recipe.id new) (map Recipe.id (recipes db)))
    by apply next_id_fresh.
  exists new. repeat split; try exact Fresh.
  unfold result_of. rewrite get_recipe_request.
  unfold find_recipe. cbn [recipes]. now rewrite (find_added _ _ Fresh).
Qed.

(** X13. PUT /recipes/{id} on a stored recipe rewrites that recipe and
    nothing else: the recipe keeps its key and reads back with the submitted
    name, provenance, items and notes; the keys of the table stay in their
    order; every recipe under another key and every transcript is as
    before. *)
Theorem update_rewrites_one_recipe (recipe_id : Z) (name prov : string)
  (qs us ns : list string) (notes : option (list string)) (db : Store)
  (r0 : Recipe.t) :
  find_recipe recipe_id db = Some r0 ->
  let h := update_recipe_and_return_cookbook recipe_id name prov qs us ns notes in
  let db' := db_after h db in
  (exists rows, result_of h db = Ok (CookbookList rows)) /\
  result_of (get_recipe_editor recipe_id) db' =
    Ok (RecipeCard "partials/recipe_card.html"
          (Recipe.Build recipe_id (VStr name) (VStr prov)
             (VList (items_data qs us ns)) (notes_or_empty notes))) /\
  map Recipe.id (recipes db') = map Recipe.id (recipes db) /\
  (forall r, Recipe.id r <> recipe_id -> (In r (recipes db') <-> In r (recipes db))) /\
  transcripts db' = transcripts db.
Proof.
  intros F h db'.
  assert (Id0 : Recipe.id r0 = recipe_id).
  { unfold find_recipe in F. apply find_some in F. now apply Z.eqb_eq. }
  assert (E : db' = _) by apply db_after_update. rewrite F in E.
  split; [|rewrite E; cbn [recipes transcripts]; split; [|split; [|split]]].
  - unfold result_of, h.
    pose proof (update_recipe_request recipe_id name prov qs us ns notes db) as R.
    rewrite F in R. destruct R as [rows ->]. cbn [fst]. eauto.
  - unfold result_of. rewrite get_recipe_request.
    unfold find_recipe. cbn [recipes]. rewrite find_recipe_map.
    + unfold find_recipe in F. rewrite F. cbn [option_map].
      rewrite Id0, Z.eqb_refl. reflexivity.
    + intros x. now destruct (Recipe.id x =? recipe_id)%Z.
  - rewrite map_map. apply map_ext. intros x.
    now destruct (Recipe.id x =? recipe_id)%Z.
  - intros x N. rewrite in_map_iff. split.
    + intros (y & Ey & Iy).
      destruct (Z.eqb_spec (Recipe.id y) recipe_id) as [Eq | _].
      * subst x. now destruct N.
      * now subst x.
    + intros I. exists x. split; [|exact I].
      destruct (Z.eqb_spec (Recipe.id x) recipe_id) as [Eq | _];
        [now destruct N | reflexivity].
  - reflexivity.
Qed.

Lemma update_rewrites_one_recipe_witness :
  let h := update_recipe_and_return_cookbook 8 "Rye bread" "home" ["400"] ["g"] ["Rye"] None in
  let db' := db_after h two_recipes in
  (exists rows, result_of h two_recipes = Ok (CookbookList rows)) /\
  result_of (get_recipe_editor 8) db' =
    Ok (RecipeCard "partials/recipe_card.html"
          (Recipe.Build 8 (VStr "Rye bread") (VStr "home")
             (VList (items_data ["400"] ["g"] ["Rye"])) (notes_or_empty None))) /\
  map Recipe.id (recipes db') = map Recipe.id (recipes two_recipes) /\
  (forall r, Recipe.id r <> 8%Z -> (In r (recipes db') <-> In r (recipes two_recipes))) /\
  transcripts db' = transcripts two_recipes.
Proof.
  apply (update_rewrites_one_recipe 8 "Rye bread" "home" ["400"] ["g"] ["Rye"] None
           two_recipes
           (recipe_with 8 "Bread" (VList [line_item (VStr "Flour") (VStr "500") (VStr "g")]))).
  reflexivity.
Defined.

(** X14. Of two updates of the same recipe the later wins: updating with
    one form and then with another commits the same store as updating with
    the second form alone. *)
Theorem update_last_write_wins (recipe_id : Z) (db : Store)
  (name1 prov1 : string) (qs1 us1 ns1 : list string) (notes1 : option (list string))
  (name2 prov2 : string) (qs2 us2 ns2 : list string) (notes2 : option (list string)) :
  db_after (update_recipe_and_return_cookbook recipe_id name2 prov2 qs2 us2 ns2 notes2)
    (db_after (update_recipe_and_return_cookbook recipe_id name1 prov1 qs1 us1 ns1 notes1)
       db) =
  db_after (update_recipe_and_return_cookbook recipe_id name2 prov2 qs2 us2 ns2 notes2) db.
Proof.
  rewrite !db_after_update.
  destruct (find_recipe recipe_id db) as [r0|] eqn:F.
  2:{ now rewrite F. }
  unfold find_recipe at 1. cbn [recipes transcripts]. rewrite find_recipe_map.
  2:{ intros x. now destruct (Recipe.id x =? recipe_id)%Z. }
  unfold find_recipe in F. rewrite F. cbn [option_map].
  f_equal. rewrite map_map. apply map_ext. intros x.
  destruct (Recipe.id x =? recipe_id)%Z eqn:E; cbn [Recipe.id]; now rewrite E.
Qed.

(** X15. After DELETE /recipes/{id} the id is gone: reading it and
    deleting it again are both answered with the 404 "Recipe not found", and
    the second delete changes nothing. *)
Theorem deleted_recipe_is_gone (recipe_id : Z) (db : Store) :
  let db' := db_after (delete_recipe recipe_id) db in
  result_of (get_recipe_editor recipe_id) db' =
    Raise (HTTPException 404 "Recipe not found") /\
  result_of (delete_recipe recipe_id) db' =
    Raise (HTTPException 404 "Recipe not found") /\
  db_after (delete_recipe recipe_id) db' = db'.
Proof.
  intros db'.
  assert (G : find_recipe recipe_id db' = None).
  { unfold db', db_after. rewrite delete_recipe_request.
    destruct (find_recipe recipe_id db) eqn:F; cbn [fst snd]; [|exact F].
    apply find_recipe_none. unfold store_after_delete. cbn [recipes].
    intros r I. apply filter_In in I. destruct I as [_ N].
    apply negb_true_iff in N. now apply Z.eqb_neq. }
  unfold result_of, db_after at 1.
  rewrite get_recipe_request, delete_recipe_request, G. repeat split.
Qed.

(** X16. Deleting a recipe that no transcript links to leaves the
    transcript table exactly as it was, and every recipe under another key
    stays. *)
Theorem delete_unreferenced_keeps_transcripts (recipe_id : Z) (db : Store) :
  (forall t, In t (transcripts db) -> Transcript.recipe_id t <> Some recipe_id) ->
  let db' := db_after (delete_recipe recipe_id) db in
  transcripts db' = transcripts db /\
  (forall r, Recipe.id r <> recipe_id -> (In r (recipes db') <-> In r (recipes db))).
Proof.
  intros H db'. unfold db', db_after. rewrite delete_recipe_request.
  destruct (find_recipe recipe_id db) as [r0|]; cbn [fst snd];
    [|split; [reflexivity | tauto]].
  unfold store_after_delete. cbn [transcripts recipes]. split.
  - rewrite <- (map_id (transcripts db)) at 2. apply map_ext_in. intros t I.
    specialize (H t I). destruct (Transcript.recipe_id t) as [j|]; [|reflexivity].
    destruct (Z.eqb_spec j recipe_id) as [-> | _]; [now destruct H | reflexivity].
  - intros r N. rewrite filter_In. split; [tauto|]. intros I. split; [exact I|].
    apply negb_true_iff. now apply Z.eqb_neq.
Qed.

Lemma delete_unreferenced_keeps_transcripts_witness :
  let db' := db_after (delete_recipe 8) two_recipes in
  transcripts db' = transcripts two_recipes /\
  (forall r, Recipe.id r <> 8%Z -> (In r (recipes db') <-> In r (recipes two_recipes))).
Proof.
  apply (delete_unreferenced_keeps_transcripts 8 two_recipes).
  intros t [<- | [<- | []]]; simpl; discriminate.
Defined.

(* ================================================================== *)
(** * What every handler keeps *)
(* ================================================================== *)

Lemma existsb_id_app j (rs more : list Recipe.t) :
  existsb (fun r => (Recipe.id r =? j)%Z) rs = true ->
  existsb (fun r => (Recipe.id r =? j)%Z) (rs ++ more) = true.
Proof. intros H. rewrite existsb_app, H. reflexivity. Qed.

Lemma existsb_id_map j f (rs : list Recipe.t) :
  (forall r, Recipe.id (f r) = Recipe.id r) ->
  existsb (fun r => (Recipe.id r =? j)%Z) (map f rs) =
  existsb (fun r => (Recipe.id r =? j)%Z) rs.
Proof.
  intros Hf. induction rs as [|x r IH]; simpl; [reflexivity|]. now rewrite Hf, IH.
Qed.

Lemma existsb_id_filter j i (rs : list Recipe.t) :
  j <> i ->
  existsb (fun r => (Recipe.id r =? j)%Z) rs = true ->
  existsb (fun r => (Recipe.id r =? j)%Z)
    (filter (fun r => negb (Recipe.id r =? i)%Z) rs) = true.
Proof.
  intros N H. apply existsb_exists in H. destruct H as (r & I & E).
  apply existsb_exists. exists r. split; [|exact E].
  apply filter_In. split; [exact I|].
  apply Z.eqb_eq in E. apply negb_true_iff. apply Z.eqb_neq. congruence.
Qed.

(** X17. Every handler that writes keeps the links sound: if every
    transcript's recipe link leads to a stored recipe before the request, it
    does so after it, for POST /transcripts, POST /recipes, PUT
    /recipes/{id}, DELETE /recipes/{id} and the generation workflow. *)
Theorem links_stay_valid (generate_content : string -> option string) (real_text : float -> string) (db : Store) :
  links_valid db = true ->
  (forall full_text,
      links_valid (db_after (create_transcript_and_return_editor full_text) db) = true) /\
  (forall name prov qs us ns notes,
      links_valid (db_after (create_recipe_from_form name prov qs us ns notes) db) = true) /\
  (forall rid name prov qs us ns notes,
      links_valid
        (db_after (update_recipe_and_return_cookbook rid name prov qs us ns notes) db)
      = true) /\
  (forall rid, links_valid (db_after (delete_recipe rid) db) = true) /\
  (forall tid text hx,
      links_valid
        (db_after (generate_recipe_from_transcript generate_content real_text tid text hx) db)
      = true).
Proof.
  intros V. unfold links_valid in V. rewrite forallb_forall in V.
  split; [|split; [|split; [|split]]].
  - intros full_text. unfold db_after. rewrite create_transcript_request.
    cbn [fst snd]. unfold links_valid. cbn [transcripts recipes].
    rewrite forallb_app. cbn [forallb Transcript.recipe_id].
    rewrite andb_true_r. apply forallb_forall. exact V.
  - intros name prov qs us ns notes. unfold db_after.
    destruct (create_recipe_request name prov qs us ns notes db) as [rows ->].
    cbn [fst snd]. unfold links_valid. cbn [transcripts recipes].
    apply forallb_forall. intros t I. specialize (V t I).
    destruct (Transcript.recipe_id t) as [j|]; [|reflexivity].
    now apply existsb_id_app.
  - intros rid name prov qs us ns notes. rewrite db_after_update.
    destruct (find_recipe rid db) as [r0|]; [|now apply forallb_forall].
    unfold links_valid. cbn [transcripts recipes].
    apply forallb_forall. intros t I. specialize (V t I).
    destruct (Transcript.recipe_id t) as [j|]; [|reflexivity].
    rewrite existsb_id_map; [exact V|].
    intros x. now destruct (Recipe.id x =? rid)%Z.
  - intros rid. unfold db_after. rewrite delete_recipe_request.
    destruct (find_recipe rid db) as [r0|]; cbn [fst snd]; [|now apply forallb_forall].
    unfold links_valid, store_after_delete. cbn [transcripts recipes].
    apply forallb_forall. intros t' I. apply in_map_iff in I.
    destruct I as (t & <- & I). specialize (V t I).
    destruct (Transcript.recipe_id t) as [j|] eqn:E; [|now rewrite E].
    destruct (Z.eqb_spec j rid) as [-> | N]; [reflexivity|].
    rewrite E. now apply existsb_id_filter.
  - intros tid text hx.
    destruct (db_after_generate generate_content real_text tid text hx db)
      as [-> | (t0 & raw & d & new & F & G & P & Ins & ->)]; [now apply forallb_forall|].
    unfold links_valid, store_after_generation. cbn [transcripts recipes].
    apply forallb_forall. intros t' I. apply in_map_iff in I.
    destruct I as (t & <- & I). specialize (V t I).
    destruct (Transcript.id t =? tid)%Z.
    + cbn [processed_transcript Transcript.recipe_id].
      rewrite existsb_app. cbn [existsb]. rewrite Z.eqb_refl.
      now rewrite orb_true_r.
    + destruct (Transcript.recipe_id t) as [j|]; [|reflexivity].
      now apply existsb_id_app.
Qed.

Lemma links_stay_valid_witness :
  links_valid (db_after (delete_recipe 7) two_recipes) = true /\
  links_valid
    (db_after (generate_recipe_from_transcript (answering soup_json) sample_real_text 2 "soup" true)
       two_recipes) = true.
Proof.
  pose proof (links_stay_valid (answering soup_json) sample_real_text two_recipes eq_refl) as H.
  split; [apply H | apply H].
Defined.

Lemma transcripts_kept_map (f : Transcript.t -> Transcript.t) (db db' : Store) :
  transcripts db' = map f (transcripts db) ->
  (forall t, Transcript.id (f t) = Transcript.id t) ->
  (forall t, Transcript.status t = "processed" -> Transcript.status (f t) = "processed") ->
  transcripts_kept db db'.
Proof.
  intros E Hid Hst. split.
  - exists []. rewrite app_nil_r, E, map_map. apply map_ext. exact Hid.
  - intros t I S. exists (f t). rewrite E. split; [now apply in_map|].
    split; [apply Hid | now apply Hst].
Qed.

Lemma transcripts_kept_same (db db' : Store) :
  transcripts db' = transcripts db -> transcripts_kept db db'.
Proof.
  intros E. apply (transcripts_kept_map (fun t => t)); auto.
  now rewrite map_id.
Qed.

(** X18. No handler deletes a transcript or takes back a "processed":
    after POST /transcripts, POST /recipes, PUT /recipes/{id}, DELETE
    /recipes/{id} and the generation workflow, the transcript table starts
    with the keys it had, in their order, and every transcript that was
    processed is still there under its key and still processed. *)
Theorem transcripts_are_kept (generate_content : string -> option string) (real_text : float -> string) (db : Store) :
  (forall full_text,
      transcripts_kept db (db_after (create_transcript_and_return_editor full_text) db)) /\
  (forall name prov qs us ns notes,
      transcripts_kept db (db_after (create_recipe_from_form name prov qs us ns notes) db)) /\
  (forall rid name prov qs us ns notes,
      transcripts_kept db
        (db_after (update_recipe_and_return_cookbook rid name prov qs us ns notes) db)) /\
  (forall rid, transcripts_kept db (db_after (delete_recipe rid) db)) /\
  (forall tid text hx,
      transcripts_kept db
        (db_after (generate_recipe_from_transcript generate_content real_text tid text hx) db)).
Proof.
  split; [|split; [|split; [|split]]].
  - intros full_text. unfold db_after. rewrite create_transcript_request.
    cbn [fst snd]. split; cbn [transcripts].
    + eexists. now rewrite map_app.
    + intros t I S. exists t. split; [|now split]. apply in_or_app. now left.
  - intros name prov qs us ns notes. apply transcripts_kept_same. unfold db_after.
    now destruct (create_recipe_request name prov qs us ns notes db) as [rows ->].
  - intros rid name prov qs us ns notes. apply transcripts_kept_same.
    rewrite db_after_update. now destruct (find_recipe rid db).
  - intros rid. unfold db_after. rewrite delete_recipe_request.
    destruct (find_recipe rid db) as [r0|]; cbn [fst snd];
      [|now apply transcripts_kept_same].
    eapply transcripts_kept_map; [reflexivity | |]; intros t; cbv beta.
    + destruct (Transcript.recipe_id t) as [j|]; [|reflexivity].
      now destruct (j =? rid)%Z.
    + intros S. destruct (Transcript.recipe_id t) as [j|]; [|exact S].
      now destruct (j =? rid)%Z.
  - intros tid text hx.
    destruct (db_after_generate generate_content real_text tid text hx db)
      as [-> | (t0 & raw & d & new & F & G & P & Ins & ->)]; [now apply transcripts_kept_same|].
    eapply transcripts_kept_map; [reflexivity | |]; intros t; cbv beta.
    + now destruct (Transcript.id t =? tid)%Z.
    + intros S. now destruct (Transcript.id t =? tid)%Z.
Qed.

(* ================================================================== *)
(** * Further properties of the form rows and of the aggregator *)
(* ================================================================== *)

Lemma kept_rows_cons q qs u us n ns :
  kept_rows (q :: qs) (u :: us) (n :: ns) =
  ((if truthy_str n then [O] else []) ++ map S (kept_rows qs us ns))%list.
Proof.
  unfold kept_rows. cbn [List.length Nat.min seq filter].
  change (nth 0 (n :: ns) "") with n.
  rewrite <- seq_shift.
  assert (E : forall l,
             filter (fun i => truthy_str (nth i (n :: ns) "")) (map S l) =
             map S (filter (fun i => truthy_str (nth i ns "")) l)).
  { induction l as [|x l IH]; [reflexivity|].
    cbn [map filter]. change (nth (S x) (n :: ns) "") with (nth x ns "").
    rewrite IH. now destruct (truthy_str (nth x ns "")). }
  rewrite E. now destruct (truthy_str n).
Qed.

Lemma sorted_seq n : forall a, StronglySorted lt (seq a n).
Proof.
  induction n as [|n IH]; intros a; [constructor|].
  cbn [seq]. constructor; [apply IH|].
  apply Forall_forall. intros x I. apply in_seq in I. lia.
Qed.

Lemma sorted_filter {A} (R : A -> A -> Prop) f l :
  StronglySorted R l -> StronglySorted R (filter f l).
Proof.
  induction 1 as [|x l S IH F]; [constructor|].
  cbn [filter]. destruct (f x); [|exact IH].
  constructor; [exact IH|].
  rewrite Forall_forall in *. intros y I. apply filter_In in I. now apply F.
Qed.

(** X19. The items the form handlers build follow the rows of the form:
    the rows kept are those below the end of the shortest of the three
    lists whose name is not empty, in their order, and each becomes the
    object with exactly the keys "quantity", "unit" and "itemName" that
    holds the quantity, the unit and the name of its own row; a row whose
    name is empty is dropped with its quantity and unit. *)
Theorem items_data_rows (qs us ns : list string) :
  items_data qs us ns = map (row_object qs us ns) (kept_rows qs us ns) /\
  (forall i, In i (kept_rows qs us ns) <->
             (i < List.length qs /\ i < List.length us /\ i < List.length ns /\
              nth i ns "" <> "")%nat) /\
  StronglySorted lt (kept_rows qs us ns).
Proof.
  split; [|split].
  - revert us ns. induction qs as [|q qs IH]; intros us ns; [reflexivity|].
    destruct us as [|u us]; [reflexivity|].
    destruct ns as [|n ns]; [reflexivity|].
    rewrite kept_rows_cons, map_app, map_map. cbn [items_data].
    change (map (fun i => row_object (q :: qs) (u :: us) (n :: ns) (S i))
              (kept_rows qs us ns))
      with (map (row_object qs us ns) (kept_rows qs us ns)).
    rewrite <- IH. now destruct (truthy_str n).
  - intros i. unfold kept_rows. rewrite filter_In, in_seq.
    unfold truthy_str. rewrite negb_true_iff, String.eqb_neq.
    pose proof (Nat.min_glb_lt_iff (List.length qs)
                  (Nat.min (List.length us) (List.length ns)) i) as M1.
    pose proof (Nat.min_glb_lt_iff (List.length us) (List.length ns) i) as M2.
    cbn [Nat.add]. split.
    + intros [[_ L] N]. apply M1 in L. destruct L as [L1 L2]. apply M2 in L2. tauto.
    + intros (L1 & L2 & L3 & N). split; [|exact N]. split; [lia|].
      apply M1. split; [exact L1|]. apply M2. now split.
  - apply sorted_filter, sorted_seq.
Qed.

Lemma items_data_shaped qs : forall us ns,
  items_shaped (VList (items_data qs us ns)) = true.
Proof.
  induction qs as [|q qs IH]; intros [|u us] [|n ns]; try reflexivity.
  cbn [items_data]. destruct (truthy_str n); [|apply IH].
  cbn [items_shaped forallb]. change (item_shaped _) with true.
  exact (IH us ns).
Qed.

Lemma ingredients_request repr db :
  request (serve_ingredients_page repr) db =
  (match aggregate_ingredients repr (recipes db) with
   | Ok m => Ok (IngredientsPage m)
   | Raise e => Raise e
   end, db, []).
Proof.
  unfold request, serve_ingredients_page, and_then, select_recipes, pure, ret.
  cbn [session]. now destruct (aggregate_ingredients repr (recipes db)).
Qed.

(** X20. Recipes written through the forms never break the ingredients
    page: creating, updating and deleting recipes through their handlers
    keep every stored recipe's items a list of objects with text names and
    units, and on such a store GET /ingredients returns its page, raises
    nothing and commits nothing. *)
Theorem form_recipes_suit_ingredients (repr : value -> string) (db : Store) :
  recipes_shaped (recipes db) = true ->
  (forall name prov qs us ns notes,
      recipes_shaped
        (recipes (db_after (create_recipe_from_form name prov qs us ns notes) db)) = true) /\
  (forall rid name prov qs us ns notes,
      recipes_shaped
        (recipes (db_after (update_recipe_and_return_cookbook rid name prov qs us ns notes)
                    db)) = true) /\
  (forall rid, recipes_shaped (recipes (db_after (delete_recipe rid) db)) = true) /\
  (exists m, result_of (serve_ingredients_page repr) db = Ok (IngredientsPage m)) /\
  db_after (serve_ingredients_page repr) db = db.
Proof.
  intros V. split; [|split; [|split; [|split]]].
  - intros name prov qs us ns notes. unfold db_after.
    destruct (create_recipe_request name prov qs us ns notes db) as [rows ->].
    cbn [fst snd recipes]. unfold recipes_shaped in *.
    rewrite forallb_app, V. cbn [forallb Recipe.items].
    now rewrite items_data_shaped.
  - intros rid name prov qs us ns notes. rewrite db_after_update.
    destruct (find_recipe rid db) as [r0|]; [|exact V].
    cbn [recipes]. unfold recipes_shaped in *. rewrite forallb_forall in *.
    intros x I. apply in_map_iff in I. destruct I as (y & <- & Iy).
    destruct (Recipe.id y =? rid)%Z; [apply items_data_shaped | now apply V].
  - intros rid. unfold db_after. rewrite delete_recipe_request.
    destruct (find_recipe rid db) as [r0|]; cbn [fst snd]; [|exact V].
    unfold store_after_delete. cbn [recipes]. unfold recipes_shaped in *.
    rewrite forallb_forall in *. intros x I. apply filter_In in I. now apply V.
  - unfold result_of. rewrite ingredients_request. cbn [fst].
    destruct (aggregate_ingredients_shaped repr _ V) as (m & -> & _). eauto.
  - unfold db_after. now rewrite ingredients_request.
Qed.

Lemma form_recipes_suit_ingredients_witness :
  recipes_shaped
    (recipes (db_after (create_recipe_from_form "Toast" "" ["2"] ["slice"] ["bread"] None)
                two_recipes)) = true /\
  (exists m, result_of (serve_ingredients_page repr_unused) two_recipes
             = Ok (IngredientsPage m)).
Proof.
  pose proof (form_recipes_suit_ingredients repr_unused two_recipes eq_refl) as H.
  split; [apply H | apply H].
Defined.

(** A loop raises as soon as one of its elements makes the body raise
    whatever the accumulator. *)
Lemma for_each_raises {A S} (body : A -> S -> result S) (l : list A) (x : A) :
  In x l ->
  (forall acc, exists e, body x acc = Raise e) ->
  forall acc, exists e, for_each body l acc = Raise e.
Proof.
  intros I B. induction l as [|a r IH]; [destruct I|].
  intros acc. cbn [for_each].
  destruct (body a acc) as [acc1|e] eqn:E; cbn [bind]; [|eauto].
  destruct I as [-> | I]; [|now apply IH].
  destruct (B acc) as [e' E']. congruence.
Qed.

(** What a loop raises, its body raised. *)
Lemma for_each_raised {A S} (body : A -> S -> result S) (l : list A) e :
  forall acc, for_each body l acc = Raise e ->
  exists x acc', In x l /\ body x acc' = Raise e.
Proof.
  induction l as [|a r IH]; intros acc; cbn [for_each]; [discriminate|].
  destruct (body a acc) as [acc1|e'] eqn:E; cbn [bind].
  - intros H. destruct (IH _ H) as (x & acc' & I & B). exists x, acc'. split; [now right | exact B].
  - intros [= ->]. exists a, acc. split; [now left | exact E].
Qed.

Lemma aggregate_item_raised repr item agg e :
  aggregate_item repr item agg = Raise e -> e = Exn AttributeError.
Proof.
  unfold aggregate_item.
  destruct item as [|b|n|x|s|l|d]; cbn [get bind]; try (now intros [= <-]).
  destruct (strip_method _) as [unit1|e1] eqn:U; cbn [bind].
  2:{ intros [= <-]. destruct (or_else _ _); cbn in U; congruence. }
  destruct (truthy _ && truthy _); [|discriminate].
  rewrite parse_quantity_refines. cbn [bind].
  destruct (parse_quantity_rules _); [|discriminate].
  clear U.
  destruct (strip_method _) as [name1|e2] eqn:N; cbn [bind]; [discriminate|].
  intros [= <-].
  destruct (match assoc_get "itemName" d with Some x => x | None => VNone end);
    cbn in N; congruence.
Qed.

Lemma aggregate_ingredients_raised repr rs e :
  aggregate_ingredients repr rs = Raise e ->
  exists c, e = Exn c /\ c <> RequestValidationError.
Proof.
  unfold aggregate_ingredients.
  destruct (for_each (aggregate_recipe repr) rs []) as [agg|e0] eqn:F; cbn [bind];
    [discriminate|].
  intros [= <-]. apply for_each_raised in F. destruct F as (r & acc & _ & B).
  unfold aggregate_recipe in B.
  destruct (iterate (Recipe.items r)) as [its|e1] eqn:I; cbn [bind] in B.
  - apply for_each_raised in B. destruct B as (item & acc' & _ & B).
    apply aggregate_item_raised in B. subst e0.
    eexists. split; [reflexivity | discriminate].
  - injection B as <-. destruct (Recipe.items r); cbn in I; try discriminate;
      injection I as <-; (eexists; split; [reflexivity | discriminate]).
Qed.

Lemma breaking_item_raises repr item :
  breaks_aggregation item -> forall agg, exists e, aggregate_item repr item agg = Raise e.
Proof.
  intros [N | (d & -> & T & NS)] agg.
  - destruct item as [|b|n|x|s|l|d]; try (eexists; reflexivity).
    now destruct (N d).
  - unfold aggregate_item. cbn [get bind]. fold (field "unit" d).
    unfold or_else. rewrite T.
    destruct (field "unit" d) as [|b|n|x|s|l|d'] eqn:E; try (eexists; reflexivity).
    now destruct (NS s).
Qed.

(** X21. One malformed line item takes the whole ingredients page down:
    if some stored recipe's items is a list with an item that is no object,
    or an object whose unit is truthy and no text (even on an item with no
    name or quantity, since the unit is normalized first), GET /ingredients
    raises an exception that is no [HTTPException], answered with a 500,
    instead of skipping the item. *)
Theorem malformed_item_breaks_ingredients (repr : value -> string) (db : Store)
  (r : Recipe.t) (l : list value) (item : value) :
  In r (recipes db) ->
  Recipe.items r = VList l ->
  In item l ->
  breaks_aggregation item ->
  (exists c, result_of (serve_ingredients_page repr) db = Raise (Exn c)) /\
  status_code_of (result_of (serve_ingredients_page repr) db) = 500%Z.
Proof.
  intros Ir El Ii B.
  assert (R : exists e, aggregate_ingredients repr (recipes db) = Raise e).
  { unfold aggregate_ingredients.
    destruct (for_each_raises (aggregate_recipe repr) (recipes db) r Ir) with (acc := @nil (string * list (string * float)))
      as [e E].
    - intros acc. unfold aggregate_recipe. rewrite El. cbn [iterate bind].
      apply (for_each_raises _ _ item Ii). now apply breaking_item_raises.
    - rewrite E. cbn [bind]. eauto. }
  destruct R as [e E]. destruct (aggregate_ingredients_raised _ _ _ E) as (c & -> & N).
  unfold result_of. rewrite ingredients_request, E. cbn [fst].
  rewrite (status_of_exn _ N). eauto.
Qed.

Lemma malformed_item_breaks_ingredients_witness :
  (exists c,
      result_of (serve_ingredients_page repr_unused)
        {| transcripts := [];
           recipes := [recipe_with 1 "Tea" (VList []); numeric_unit_recipe] |}
      = Raise (Exn c)) /\
  status_code_of
    (result_of (serve_ingredients_page repr_unused)
       {| transcripts := [];
          recipes := [recipe_with 1 "Tea" (VList []); numeric_unit_recipe] |}) = 500%Z.
Proof.
  apply (malformed_item_breaks_ingredients repr_unused
           {| transcripts := []; recipes := [recipe_with 1 "Tea" (VList []); numeric_unit_recipe] |}
           numeric_unit_recipe [VDict [("unit", VInt 1)]] (VDict [("unit", VInt 1)])).
  - right. now left.
  - reflexivity.
  - now left.
  - right. exists [("unit", VInt 1)]. repeat split. discriminate.
Defined.

(** X22. [aggregated_ingredients[name][unit] += q] reads back: the
    bucket of that name and unit then holds what it held, or 0.0 when it did
    not exist, plus [q]; no other bucket changes; names keep their places
    and a new name goes last. *)
Theorem add_quantity_updates_one_bucket (n u : string) (q : float) (m : totals) :
  lookup n u (add_quantity n u q m) = Some (or_zero (lookup n u m) + q)%float /\
  (forall n' u', (n' <> n \/ u' <> u) ->
                 lookup n' u' (add_quantity n u q m) = lookup n' u' m) /\
  map fst (add_quantity n u q m) =
    match assoc_get n m with
    | Some _ => map fst m
    | None => (map fst m ++ [n])%list
    end.
Proof.
  split; [|split].
  - rewrite lookup_add_quantity. now rewrite !String.eqb_refl.
  - intros n' u' N. rewrite lookup_add_quantity.
    destruct (String.eqb_spec n n') as [<- | _]; [|reflexivity].
    destruct (String.eqb_spec u u') as [<- | _]; [|reflexivity].
    destruct N as [N | N]; now destruct N.
  - unfold add_quantity. apply assoc_set_keys.
Qed.

(* ================================================================== *)
(** * The cookbook list *)
(* ================================================================== *)

Lemma cookbook_rows_perm l : Permutation (cookbook_rows l) l.
Proof.
  unfold cookbook_rows.
  rewrite (Permutation_map snd (sorted_items_perm (map (fun r => (name_key r, r)) l))).
  rewrite map_map. cbn [snd]. now rewrite map_id.
Qed.

Lemma sorted_rows_by_name (l : list (string * Recipe.t)) :
  Forall (fun x => fst x = name_key (snd x)) l ->
  StronglySorted key_le l -> by_name (map snd l).
Proof.
  unfold by_name. induction l as [|x r IH]; intros K SS; [constructor|].
  inversion K as [|? ? Kx Kr]; subst. inversion SS as [|? ? SS' F]; subst.
  cbn [map]. constructor; [now apply IH|].
  rewrite Forall_forall in *. intros b Ib.
  apply in_map_iff in Ib. destruct Ib as (y & <- & Iy).
  specialize (F y Iy). unfold key_le in F.
  now rewrite <- Kx, <- (Kr y Iy).
Qed.

Lemma cookbook_rows_by_name l : by_name (cookbook_rows l).
Proof.
  unfold cookbook_rows. apply sorted_rows_by_name; [|apply sorted_items_sorted].
  rewrite Forall_forall. intros x Ix.
  apply (Permutation_in _ (sorted_items_perm _)) in Ix.
  apply in_map_iff in Ix. now destruct Ix as (r & <- & _).
Qed.

Lemma cookbook_request db :
  request serve_cookbook_page db = (Ok (CookbookList (cookbook_rows (recipes db))), db, []).
Proof. reflexivity. Qed.

Lemma create_recipe_rows name prov qs us ns notes db :
  result_of (create_recipe_from_form name prov qs us ns notes) db =
  Ok (CookbookList
        (cookbook_rows
           (recipes (db_after (create_recipe_from_form name prov qs us ns notes) db)))).
Proof. reflexivity. Qed.

Lemma update_recipe_rows rid name prov qs us ns notes db :
  find_recipe rid db <> None ->
  result_of (update_recipe_and_return_cookbook rid name prov qs us ns notes) db =
  Ok (CookbookList
        (cookbook_rows
           (recipes (db_after (update_recipe_and_return_cookbook rid name prov qs us ns notes)
                       db)))).
Proof.
  intros F. unfold result_of, db_after, request, update_recipe_and_return_cookbook,
    and_then, select_recipe.
  cbn [session]. destruct (find_recipe rid db); [reflexivity | now destruct F].
Qed.

(** X23. The cookbook lists every recipe once, by name: on a recipe table
    whose names are all text, GET /cookbook, and the list that POST
    /recipes and a PUT on a stored recipe answer with, hold exactly the
    committed recipes (the one just written included, with its new fields),
    each once, in ascending order of their names compared byte by byte;
    GET /cookbook commits nothing. *)
Theorem cookbook_lists_recipes_by_name (db : Store) :
  names_text (recipes db) = true ->
  (exists rows,
      result_of serve_cookbook_page db = Ok (CookbookList rows) /\
      Permutation rows (recipes db) /\ by_name rows) /\
  db_after serve_cookbook_page db = db /\
  (forall name prov qs us ns notes,
      exists rows,
        result_of (create_recipe_from_form name prov qs us ns notes) db
        = Ok (CookbookList rows) /\
        Permutation rows
          (recipes (db_after (create_recipe_from_form name prov qs us ns notes) db)) /\
        names_text rows = true /\ by_name rows) /\
  (forall rid name prov qs us ns notes,
      find_recipe rid db <> None ->
      exists rows,
        result_of (update_recipe_and_return_cookbook rid name prov qs us ns notes) db
        = Ok (CookbookList rows) /\
        Permutation rows
          (recipes (db_after (update_recipe_and_return_cookbook rid name prov qs us ns notes)
                      db)) /\
        names_text rows = true /\ by_name rows).
Proof.
  intros T. split; [|split; [reflexivity|split]].
  - exists (cookbook_rows (recipes db)).
    split; [reflexivity | split; [apply cookbook_rows_perm | apply cookbook_rows_by_name]].
  - intros name prov qs us ns notes. eexists. split; [apply create_recipe_rows|].
    split; [apply cookbook_rows_perm|]. split; [|apply cookbook_rows_by_name].
    unfold names_text in *. apply forallb_forall. intros r Ir.
    apply (Permutation_in _ (cookbook_rows_perm _)) in Ir.
    unfold db_after in Ir.
    destruct (create_recipe_request name prov qs us ns notes db) as [rows E].
    rewrite E in Ir. cbn [fst snd recipes] in Ir.
    apply in_app_or in Ir. destruct Ir as [Ir | [<- | []]]; [|reflexivity].
    rewrite forallb_forall in T. now apply T.
  - intros rid name prov qs us ns notes F. eexists.
    split; [now apply update_recipe_rows|].
    split; [apply cookbook_rows_perm|]. split; [|apply cookbook_rows_by_name].
    unfold names_text in *. apply forallb_forall. intros r Ir.
    apply (Permutation_in _ (cookbook_rows_perm _)) in Ir.
    rewrite db_after_update in Ir.
    destruct (find_recipe rid db) as [r0|]; [|now destruct F].
    cbn [recipes] in Ir. apply in_map_iff in Ir. destruct Ir as (y & <- & Iy).
    destruct (Recipe.id y =? rid)%Z; [reflexivity|].
    rewrite forallb_forall in T. now apply T.
Qed.

Lemma cookbook_lists_recipes_by_name_witness :
  exists rows,
    result_of serve_cookbook_page two_recipes = Ok (CookbookList rows) /\
    Permutation rows (recipes two_recipes) /\ by_name rows.
Proof.
  exact (proj1 (cookbook_lists_recipes_by_name two_recipes eq_refl)).
Defined.
